(** * Cineon / DPX image core ([logImageCore.cc]): a shallow embedding

    The bit-unpack and bit-pack engines, the element assembler, the
    look-up-table builders and the colour converters of
    [source/blender/imbuf/intern/cineon/logImageCore.cc], written as
    executable Rocq functions, and the properties of the specification
    stated and settled over them.

    Conventions.
    - C integers are [Z]; [size_t] arithmetic is reduced modulo [2^64],
      [uint] modulo [2^32], [ushort] modulo [2^16], [uchar] modulo [2^8].
    - The dimensions of an image are not negative and their products fit
      an [int]: loop counters and indices are plain [Z].
    - C [float] is IEEE-754 binary32, computed with the parametric
      operations of [SpecFloat] at precision 24 and maximal exponent 128
      (round to nearest, ties to even), every operation of an expression
      rounded on its own.
    - A C buffer is a list; a cell of a freshly [malloc]ed buffer that was
      never stored to is [None]; [imb_alloc_pixels] with its initialise
      flag set returns zeros.
    - A function that returns an [int] status returns it as a [Z]
      (0 = success), next to the buffers or the file it has written. *)

From Stdlib Require Import ZArith List Lia Bool SpecFloat.
From stdpp Require Import base list gmap.

Local Open Scope Z_scope.

(** ** binary32 arithmetic *)

Module F32.

Definition float : Type := spec_float.

Definition prec : Z := 24.
Definition emax : Z := 128.

Definition add : float -> float -> float := SFadd prec emax.
Definition sub : float -> float -> float := SFsub prec emax.
Definition mul : float -> float -> float := SFmul prec emax.
Definition div : float -> float -> float := SFdiv prec emax.
Definition ltb : float -> float -> bool := SFltb.
Definition leb : float -> float -> bool := SFleb.
Definition eqb : float -> float -> bool := SFeqb.
Definition gtb (x y : float) : bool := SFltb y x.

(** [float(n)] for an integer [n]: the nearest binary32 value. *)
Definition of_Z (n : Z) : float := binary_normalize prec emax n 0 false.

(** The literal [m / 10^k] written in decimal in the source: the nearest
    binary32 value of the quotient of two exactly representable
    integers, which a correctly rounded division returns. *)
Definition dec (m : Z) (k : Z) : float := div (of_Z m) (of_Z (10 ^ k)).

Definition zero : float := S754_zero false.
Definition one : float := of_Z 1.
Definition half : float := dec 5 1.

(** Conversion to an unsigned integer: truncation toward zero (the
    conversion of a negative, infinite or NaN value is undefined in C;
    the model returns 0 there). *)
Definition to_Z (x : float) : Z :=
  match x with
  | S754_finite false m e =>
      match e with
      | Zneg p => Z.shiftr (Zpos m) (Zpos p)
      | _ => Z.shiftl (Zpos m) e
      end
  | _ => 0
  end.

(** A float is within [0, 1] (false on NaN). *)
Definition in_unit (x : float) : bool := leb zero x && leb x one.

End F32.

Definition float : Type := F32.float.

(** ** The C library: [powf] and [log10f]

    The two transcendental functions the look-up tables call belong to
    the C library.  The table builders below take them as parameters;
    this module gives the instance used to evaluate a table on concrete
    values: the real function computed in fixed point with 200 fractional
    bits and rounded once to binary32, which is the correctly rounded
    result (as a C library with a sub-ulp error bound returns whenever
    the real value is not next to a rounding boundary). *)

Module Libm.

Definition P : Z := 200.
Definition fx_one : Z := 2 ^ P.
Definition fx_mul (a b : Z) : Z := Z.shiftr (a * b) P.
Definition fx_div (a b : Z) : Z := Z.shiftl a P / b.

(** [acc + zpow / k + zpow z^2 / (k + 2) + ...], [n] terms. *)
Fixpoint atanh_series (n : nat) (k : Z) (zpow z2 acc : Z) : Z :=
  match n with
  | O => acc
  | S n' => atanh_series n' (k + 2) (fx_mul zpow z2) z2 (acc + zpow / k)
  end.

(** [ln t] for [1 <= t <= 2]: [2 atanh ((t - 1) / (t + 1))]. *)
Definition fx_ln_small (t : Z) : Z :=
  let z := fx_div (t - fx_one) (t + fx_one) in
  2 * atanh_series 80 1 z (fx_mul z z) 0.

Definition fx_ln2 : Z := Eval vm_compute in fx_ln_small (2 * fx_one).

(** [ln (m * 2^e)] for a positive mantissa [m]. *)
Definition fx_ln (m : positive) (e : Z) : Z :=
  let d := Z.log2 (Zpos m) in
  fx_ln_small (Z.shiftl (Zpos m) (P - d)) + (e + d) * fx_ln2.

Definition fx_ln10 : Z := Eval vm_compute in fx_ln 5 1.

(** [acc + term + term r / k + ...], [n] terms. *)
Fixpoint exp_series (n : nat) (k : Z) (term r acc : Z) : Z :=
  match n with
  | O => acc
  | S n' => exp_series n' (k + 1) (fx_mul term r / k) r (acc + term)
  end.

(** [exp y] rounded to binary32: [y = k ln 2 + r] with [|r| <= ln 2 / 2]. *)
Definition exp_round (y : Z) : F32.float :=
  let k := (2 * y + fx_ln2) / (2 * fx_ln2) in
  let r := y - k * fx_ln2 in
  binary_normalize F32.prec F32.emax (exp_series 70 1 fx_one r 0) (k - P) false.

Definition powf (x y : F32.float) : F32.float :=
  match y, x with
  | S754_zero _, _ => F32.one
  | _, S754_nan | S754_nan, _ => S754_nan
  | S754_infinity sy, S754_finite false m e =>
      let big := Z.leb 0 (fx_ln m e) in
      if Z.eqb (fx_ln m e) 0 then F32.one
      else if Bool.eqb big sy then S754_zero false else S754_infinity false
  | S754_infinity sy, S754_infinity _ =>
      if sy then S754_zero false else S754_infinity false
  | S754_infinity sy, _ =>
      if sy then S754_infinity false else S754_zero false
  | S754_finite sy _ _, S754_zero _ =>
      if sy then S754_infinity false else S754_zero false
  | S754_finite sy _ _, S754_infinity false =>
      if sy then S754_zero false else S754_infinity false
  | S754_finite sy my ey, S754_finite false m e =>
      let l := fx_ln m e * (if sy then Zneg my else Zpos my) in
      exp_round (match ey with
                 | Zneg p => Z.shiftr l (Zpos p)
                 | _ => Z.shiftl l ey
                 end)
  | S754_finite _ _ _, _ => S754_nan       (* negative base *)
  end.

Definition log10f (x : F32.float) : F32.float :=
  match x with
  | S754_nan => S754_nan
  | S754_zero _ => S754_infinity true
  | S754_infinity false => S754_infinity false
  | S754_finite false m e =>
      binary_normalize F32.prec F32.emax (fx_div (fx_ln m e) fx_ln10) (- P) false
  | _ => S754_nan
  end.

End Libm.

(** ** Machine integers *)

Definition size_t_max : Z := 2 ^ 64.
Definition size_t (z : Z) : Z := z mod size_t_max.
Definition uint (z : Z) : Z := z mod 2 ^ 32.
Definition ushort (z : Z) : Z := z mod 2 ^ 16.
Definition uchar (z : Z) : Z := z mod 2 ^ 8.

(** ** Data model *)

(** Modelled from the spec: the enumerators of [logImageCore.h] that the
    [descriptor] field, an [int], holds (section 3);
    [descriptor_Unset] is the value [-1] the assembler starts from and
    [descriptor_Unknown] any enumerator the core does not name. *)
Inductive descriptor_id : Type :=
  | descriptor_Red
  | descriptor_Green
  | descriptor_Blue
  | descriptor_Alpha
  | descriptor_Luminance
  | descriptor_Chrominance
  | descriptor_Depth
  | descriptor_Composite
  | descriptor_RGB
  | descriptor_RGBA
  | descriptor_ABGR
  | descriptor_CbYCrY
  | descriptor_CbYACrYA
  | descriptor_CbYCr
  | descriptor_CbYCrA
  | descriptor_YA
  | descriptor_Unset
  | descriptor_Unknown.

#[global] Instance descriptor_eq_dec : EqDecision descriptor_id.
Proof. solve_decision. Defined.

(** Modelled from the spec: the transfer enumeration of [logImageCore.h],
    with the values of the data model (section 3). *)
Definition transfer_Unspecified : Z := 0.
Definition transfer_UserDefined : Z := 1.
Definition transfer_Linear : Z := 2.
Definition transfer_Logarithmic : Z := 3.
Definition transfer_PrintingDensity : Z := 4.

Inductive format : Type := format_DPX | format_Cineon.

(** Modelled from the spec: the structs [LogImageElement] and
    [LogImageFile] of [logImageCore.h], with the fields of the data model
    (section 3) that the core reads; [maxValue] and the three reference
    values of the handle are floats. *)
Record LogImageElement : Type := {
  depth : Z;
  bitsPerSample : Z;
  dataOffset : Z;
  packing : Z;
  transfer : Z;
  descriptor : descriptor_id;
  refLowData : Z;
  refHighData : Z;
  refLowQuantity : float;
  refHighQuantity : float;
  maxValue : float
}.

(** ** Helper: [getRowLength] *)

(** The row length in bytes according to width and packing method; every
    operation is a [size_t] operation. *)
Definition getRowLength (width : Z) (logElement : LogImageElement) : Z :=
  let wd := size_t (width * depth logElement) in
  match bitsPerSample logElement with
  | 1 => size_t ((size_t (size_t (wd - 1) / 32 + 1)) * 4)
  | 8 => size_t ((size_t (size_t (wd - 1) / 4 + 1)) * 4)
  | 10 =>
      if packing logElement =? 0 then
        size_t ((size_t (size_t (size_t (wd * 10) - 1) / 32 + 1)) * 4)
      else if (packing logElement =? 1) || (packing logElement =? 2) then
        size_t ((size_t (size_t (wd - 1) / 3 + 1)) * 4)
      else 0
  | 12 =>
      if packing logElement =? 0 then
        size_t ((size_t (size_t (size_t (wd * 12) - 1) / 32 + 1)) * 4)
      else if (packing logElement =? 1) || (packing logElement =? 2) then
        size_t (wd * 2)
      else 0
  | 16 => size_t (wd * 2)
  | _ => 0
  end.

(** The row byte count as the table of the specification gives it, over
    unbounded integers. *)
Definition ceil_div (a b : Z) : Z := (a + b - 1) / b.

Definition rowBytes_spec (w d bps pack : Z) : option Z :=
  match bps with
  | 1 => Some (ceil_div (w * d) 32 * 4)
  | 8 => Some (ceil_div (w * d) 4 * 4)
  | 10 =>
      if pack =? 0 then Some (ceil_div (w * d * 10) 32 * 4)
      else if (pack =? 1) || (pack =? 2) then Some (ceil_div (w * d) 3 * 4)
      else None
  | 12 =>
      if pack =? 0 then Some (ceil_div (w * d * 12) 32 * 4)
      else if (pack =? 1) || (pack =? 2) then Some (w * d * 2)
      else None
  | 16 => Some (w * d * 2)
  | _ => None
  end.

(** A (bitsPerSample, packing) pair the engines support. *)
Definition supported (bps pack : Z) : Prop :=
  bps = 1 \/ bps = 8 \/ bps = 16 \/
  ((bps = 10 \/ bps = 12) /\ (pack = 0 \/ pack = 1 \/ pack = 2)).

Record LogImageFile : Type := {
  width : Z;
  height : Z;
  numElements : Z;
  imageDepth : Z;                 (* the field [depth] of the handle *)
  element : list LogImageElement;
  referenceBlack : float;
  referenceWhite : float;
  gamma : float;
  file : option positive;         (* the [FILE *], [None] when null *)
  isMSB : Z;
  srcFormat : format
}.

(** ** Byte I/O adapter and endian swap *)

(** Modelled from the spec: [swap_uint] and [swap_ushort] of
    [logImageCore.h] (section 4.1), which reverse the bytes of a word
    when the flag says the file order differs from the host order. *)
Definition swap_uint (x : Z) (swap : Z) : Z :=
  if swap =? 0 then x
  else
    uint (Z.lor (Z.lor (Z.lor (Z.shiftr x 24)
                               (Z.land (Z.shiftl x 8) 0x00ff0000))
                        (Z.land (Z.shiftr x 8) 0x0000ff00))
                 (Z.shiftl x 24)).

Definition swap_ushort (x : Z) (swap : Z) : Z :=
  if swap =? 0 then x
  else ushort (Z.lor (Z.shiftr x 8) (Z.shiftl x 8)).

(** The byte stream being read: its bytes and the read position. *)
Record stream : Type := {
  content : list Z;
  cursor : Z
}.

(** Modelled from the spec: the seekable byte stream of [logmemfile]
    (section 4.1): [seek(offset)] and [readExact(n) -> bytes | Eof], a
    word being assembled in host (little-endian) order.  A failed call
    is [None]; the source tests its non-zero status. *)
Definition logimage_fseek (f : stream) (offset : Z) : option stream :=
  if (0 <=? offset) && (offset <=? Z.of_nat (length (content f)))
  then Some {| content := content f; cursor := offset |}
  else None.

Fixpoint le_combine (bs : list Z) : Z :=
  match bs with
  | [] => 0
  | b :: bs' => Z.lor b (Z.shiftl (le_combine bs') 8)
  end.

Definition readExact (n : nat) (f : stream) : option (Z * stream) :=
  let bs := take n (drop (Z.to_nat (cursor f)) (content f)) in
  if (0 <=? cursor f) && (length bs =? n)%nat
  then Some (le_combine bs,
             {| content := content f; cursor := cursor f + Z.of_nat n |})
  else None.

Definition logimage_read_uchar : stream -> option (Z * stream) := readExact 1.
Definition logimage_read_ushort : stream -> option (Z * stream) := readExact 2.
Definition logimage_read_uint : stream -> option (Z * stream) := readExact 4.

(** ** Loops with an early [return 1] *)

(** The state of a loop body either goes on to the next iteration or
    leaves the function with status 1. *)
Inductive flow (S : Type) : Type :=
  | Continue (s : S)
  | Return1 (s : S).
Arguments Continue {S} s.
Arguments Return1 {S} s.

(** [for (x = x0; cond x; x += step) body].  [fuel] bounds the number of
    iterations; every use below passes a bound that the loop cannot
    exceed, so the loop always leaves through [cond]. *)
Fixpoint for_loop {S : Type} (fuel : nat) (x step : Z) (cond : Z -> bool)
    (body : Z -> S -> flow S) (s : S) : flow S :=
  match fuel with
  | O => Continue s
  | Datatypes.S n =>
      if cond x then
        match body x s with
        | Continue s' => for_loop n (x + step) step cond body s'
        | Return1 s' => Return1 s'
        end
      else Continue s
  end.

(** [for (x = 0; x < bound; x++) body]. *)
Definition for_upto {S : Type} (bound : Z) (body : Z -> S -> flow S)
    (s : S) : flow S :=
  for_loop (Z.to_nat bound) 0 1 (fun x => x <? bound) body s.

(** A sample buffer handed to an unpacker: [None] marks a cell the
    unpacker has not stored to. *)
Definition buffer : Type := list (option float).

(** [data[i] = v].  Every index the engines compute lies inside the
    buffer the caller allocated for [width * height * depth] samples. *)
Definition store {A : Type} (i : Z) (v : A) (data : list (option A))
    : list (option A) :=
  <[Z.to_nat i := Some v]> data.

(** ** Bit-unpack engine *)

(** [logImageElementGetData1]: 1 bit data padded to 32 bits. *)
Definition logImageElementGetData1 (logImage : LogImageFile)
    (logElement : LogImageElement) (f : stream) (data : buffer)
    : Z * stream * buffer :=
  match logimage_fseek f (dataOffset logElement) with
  | None => (1, f, data)
  | Some f0 =>
      let row_samples := width logImage * depth logElement in
      let r :=
        for_upto (height logImage) (fun y =>
          for_loop (Z.to_nat row_samples) 0 32 (fun x => x <? row_samples)
            (fun x '(f1, d1) =>
            match logimage_read_uint f1 with
            | None => Return1 (f1, d1)
            | Some (pixel, f2) =>
                let pixel := swap_uint pixel (isMSB logImage) in
                for_loop 32 0 1
                  (fun offset => (offset <? 32) && (x + offset <? width logImage))
                  (fun offset '(f3, d3) =>
                  Continue
                    (f3,
                     store (y * width logImage * depth logElement + x + offset)
                       (F32.of_Z (Z.land (Z.shiftr pixel offset) 0x01)) d3))
                  (f2, d1)
            end))
          (f0, data)
      in
      match r with
      | Continue (f', d') => (0, f', d')
      | Return1 (f', d') => (1, f', d')
      end
  end.

(** [logImageElementGetData12]: 12 bits in a 16-bit cell. *)
Definition logImageElementGetData12 (logImage : LogImageFile)
    (logElement : LogImageElement) (f : stream) (data : buffer)
    : Z * stream * buffer :=
  let numSamples :=
    uint (width logImage * height logImage * depth logElement) in
  match logimage_fseek f (dataOffset logElement) with
  | None => (1, f, data)
  | Some f0 =>
      let r :=
        for_upto numSamples (fun sampleIndex '(f1, d1) =>
          match logimage_read_ushort f1 with
          | None => Return1 (f1, d1)
          | Some (pixel, f2) =>
              let pixel := swap_ushort pixel (isMSB logImage) in
              if packing logElement =? 1 then     (* padded to the right *)
                Continue (f2, store sampleIndex
                                (F32.div (F32.of_Z (Z.shiftr pixel 4))
                                         (F32.of_Z 4095)) d1)
              else if packing logElement =? 2 then (* padded to the left *)
                Continue (f2, store sampleIndex
                                (F32.div (F32.of_Z pixel) (F32.of_Z 4095)) d1)
              else Continue (f2, d1)
          end)
          (f0, data)
      in
      match r with
      | Continue (f', d') => (0, f', d')
      | Return1 (f', d') => (1, f', d')
      end
  end.

(** ** Quantisation helpers *)

(** Modelled from the spec: [float_uint] of [logImageCore.h], the code of
    a sample: [clamp(floor(f * maxValue + 0.5), 0, maxValue)]
    (sections 3 and 4.3). *)
Definition float_uint (value : float) (max : Z) : Z :=
  let v := F32.add (F32.mul value (F32.of_Z max)) F32.half in
  if F32.ltb v F32.zero then 0
  else if F32.leb (F32.of_Z max) v then max
  else F32.to_Z v.

(** Modelled from the spec: [clamp_float] of [logImageCore.h], the clamp
    to [[min, max]] of section 4.6. *)
Definition clamp_float (value min max : float) : float :=
  if F32.ltb value min then min
  else if F32.gtb value max then max
  else value.

(** [data[i]] read from a sample buffer of the caller; every index the
    engines compute lies inside a buffer of [width * height * depth]
    samples. *)
Definition load (i : Z) (data : list float) : float :=
  nth (Z.to_nat i) data F32.zero.

Definition flow_state {S : Type} (r : flow S) : S :=
  match r with Continue s => s | Return1 s => s end.

(** ** The file being written *)

(** The bytes written so far ([None]: a byte copied from memory that was
    never initialised) and the number of [fwrite] calls that will still
    succeed. *)
Record outfile : Type := {
  written : list (option Z);
  budget : nat
}.

(** Modelled from the spec: [write(bytes)] of the byte stream
    (section 4.1); a short write is [None]. *)
Definition logimage_fwrite (bytes : list (option Z)) (f : outfile)
    : option outfile :=
  match budget f with
  | O => None
  | Datatypes.S n => Some {| written := written f ++ bytes; budget := n |}
  end.

(** The bytes of a row buffer cell of [n] bytes, in host (little-endian)
    order. *)
Fixpoint le_split (n : nat) (v : Z) : list (option Z) :=
  match n with
  | O => []
  | Datatypes.S n' => Some (Z.land v 0xff) :: le_split n' (Z.shiftr v 8)
  end.

Definition cell_bytes (n : nat) (c : option Z) : list (option Z) :=
  match c with
  | Some v => le_split n v
  | None => replicate n None
  end.

Definition row_bytes (n : nat) (row : list (option Z)) : list (option Z) :=
  concat (map (cell_bytes n) row).

(** [MEM_mallocN(rowLength)] seen as cells of [n] bytes. *)
Definition malloc_row (rowLength : Z) (n : Z) : list (option Z) :=
  replicate (Z.to_nat (rowLength / n)) None.

(** ** Bit-pack engine *)

(** The rows of one image: [fill] stores the samples of row [y] into the
    row buffer, which is then written; the buffer is the same for every
    row.  [row_ok] tells whether [MEM_mallocN] returned a buffer. *)
Definition write_rows (logImage : LogImageFile) (cell : nat)
    (row0 : list (option Z))
    (fill : Z -> list (option Z) -> list (option Z))
    (f : outfile) : Z * outfile :=
  let r :=
    for_upto (height logImage) (fun y '(row, f1) =>
      let row' := fill y row in
      match logimage_fwrite (row_bytes cell row') f1 with
      | None => Return1 (row', f1)
      | Some f2 => Continue (row', f2)
      end)
      (row0, f)
  in
  match r with
  | Continue (_, f') => (0, f')
  | Return1 (_, f') => (1, f')
  end.

Definition logImageSetData8 (row_ok : bool) (logImage : LogImageFile)
    (logElement : LogImageElement) (data : list float) (f : outfile)
    : Z * outfile :=
  let rowLength := getRowLength (width logImage) logElement in
  if negb row_ok then (1, f)
  else
    (* memset(row, 0, rowLength) *)
    let row0 := replicate (Z.to_nat rowLength) (Some 0) in
    write_rows logImage 1 row0 (fun y row =>
      flow_state
        (for_upto (width logImage * imageDepth logImage) (fun x row1 =>
           Continue
             (store x
                (uchar
                   (float_uint
                      (load (y * width logImage * imageDepth logImage + x) data)
                      255))
                row1))
           row)) f.

Definition logImageSetData10 (row_ok : bool) (logImage : LogImageFile)
    (logElement : LogImageElement) (data : list float) (f : outfile)
    : Z * outfile :=
  let rowLength := getRowLength (width logImage) logElement in
  if negb row_ok then (1, f)
  else
    let row0 := malloc_row rowLength 4 in
    write_rows logImage 4 row0 (fun y row =>
      let '(row1, index, pixel, _) :=
        flow_state
          (for_upto (width logImage * imageDepth logImage)
             (fun x '(row1, index, pixel, offset) =>
                let pixel :=
                  Z.lor pixel
                    (uint (Z.shiftl
                             (uint (float_uint
                                      (load (y * width logImage
                                             * imageDepth logImage + x) data)
                                      1023))
                             offset)) in
                let offset := offset - 10 in
                if offset <? 0 then
                  Continue
                    (store index (swap_uint pixel (isMSB logImage)) row1,
                     uint (index + 1), 0, 22)
                else Continue (row1, index, pixel, offset))
             (row, 0, 0, 22))
      in
      if negb (pixel =? 0)
      then store index (swap_uint pixel (isMSB logImage)) row1
      else row1) f.

Definition logImageSetData12 (row_ok : bool) (logImage : LogImageFile)
    (logElement : LogImageElement) (data : list float) (f : outfile)
    : Z * outfile :=
  let rowLength := getRowLength (width logImage) logElement in
  if negb row_ok then (1, f)
  else
    let row0 := malloc_row rowLength 2 in
    write_rows logImage 2 row0 (fun y row =>
      flow_state
        (for_upto (width logImage * imageDepth logImage) (fun x row1 =>
           Continue
             (store x
                (swap_ushort
                   (ushort
                      (Z.shiftl
                         (ushort
                            (float_uint
                               (load (y * width logImage
                                      * imageDepth logImage + x) data)
                               4095))
                         4))
                   (isMSB logImage))
                row1))
           row)) f.

Definition logImageSetData16 (row_ok : bool) (logImage : LogImageFile)
    (logElement : LogImageElement) (data : list float) (f : outfile)
    : Z * outfile :=
  let rowLength := getRowLength (width logImage) logElement in
  if negb row_ok then (1, f)
  else
    let row0 := malloc_row rowLength 2 in
    write_rows logImage 2 row0 (fun y row =>
      flow_state
        (for_upto (width logImage * imageDepth logImage) (fun x row1 =>
           Continue
             (store x
                (swap_ushort
                   (ushort
                      (float_uint
                         (load (y * width logImage
                                * imageDepth logImage + x) data)
                         65535))
                   (isMSB logImage))
                row1))
           row)) f.

(** ** Pointer cursors

    The converters walk a source buffer with [*(src_ptr++)] and fill the
    destination buffer with [*(dst_ptr++) = v].  A conversion is a
    computation over the source buffer, the destination buffer and the
    two cursors; an access outside a buffer is undefined in C and is
    [None] here. *)

Record cursors : Type := {
  src_ptr : Z;
  dst_ptr : Z;
  dst : list float
}.

Definition conv (A : Type) : Type :=
  list float -> cursors -> option (A * cursors).

Definition conv_ret {A : Type} (a : A) : conv A :=
  fun _ c => Some (a, c).

Definition conv_bind {A B : Type} (m : conv A) (k : A -> conv B) : conv B :=
  fun src c =>
    match m src c with
    | Some (a, c') => k a src c'
    | None => None
    end.

Notation "'do' x <- m ; k" := (conv_bind m (fun x => k))
  (at level 10, x name, m at level 100, k at level 200).
Notation "m ;; k" := (conv_bind m (fun _ => k))
  (at level 100, k at level 200, right associativity).

Definition deref : conv float :=
  fun src c =>
    if 0 <=? src_ptr c
    then match src !! Z.to_nat (src_ptr c) with
         | Some v => Some (v, c)
         | None => None
         end
    else None.

(** [src_ptr += n]. *)
Definition advance (n : Z) : conv unit :=
  fun _ c =>
    Some (tt, {| src_ptr := src_ptr c + n; dst_ptr := dst_ptr c; dst := dst c |}).

(** [*(src_ptr++)] and [*(src_ptr--)]. *)
Definition read_inc : conv float := do v <- deref; advance 1;; conv_ret v.
Definition read_dec : conv float := do v <- deref; advance (-1);; conv_ret v.

(** [dst_ptr++]. *)
Definition skip_dst : conv unit :=
  fun _ c =>
    Some (tt, {| src_ptr := src_ptr c; dst_ptr := dst_ptr c + 1; dst := dst c |}).

(** [*(dst_ptr++) = v]. *)
Definition emit (v : float) : conv unit :=
  fun _ c =>
    if (0 <=? dst_ptr c) && (dst_ptr c <? Z.of_nat (length (dst c)))
    then Some (tt, {| src_ptr := src_ptr c;
                      dst_ptr := dst_ptr c + 1;
                      dst := <[Z.to_nat (dst_ptr c) := v]> (dst c) |})
    else None.

(** [memcpy(dst, src, n * sizeof(float))]. *)
Definition memcpy_conv (n : nat) : conv unit :=
  fun src c =>
    if (n <=? length src)%nat && (n <=? length (dst c))%nat
    then Some (tt, {| src_ptr := src_ptr c;
                      dst_ptr := dst_ptr c;
                      dst := take n src ++ drop n (dst c) |})
    else None.

Fixpoint repeat_conv (n : nat) (body : conv unit) : conv unit :=
  match n with
  | O => conv_ret tt
  | Datatypes.S n' => body;; repeat_conv n' body
  end.

(** Run a converter from the start of the source buffer [src] and of the
    destination buffer, whose content before the call is [dst0]: the
    status it returns and the destination buffer it leaves. *)
Definition run_conv (m : conv Z) (src dst0 : list float)
    : option (Z * list float) :=
  match m src {| src_ptr := 0; dst_ptr := 0; dst := dst0 |} with
  | Some (r, c) => Some (r, dst c)
  | None => None
  end.

(** Number of pixels: the bound [logImage->width * logImage->height] of
    the pixel loops (the dimensions of an image are not negative). *)
Definition pixels (logImage : LogImageFile) : nat :=
  Z.to_nat (width logImage * height logImage).

(** ** Colour conversion *)

Section Conversion.

(** The C library functions the tables are built with. *)
Variable powf : float -> float -> float.
Variable log10f : float -> float.

(** [getYUVtoRGBMatrix]: the status and the nine coefficients. *)
Definition getYUVtoRGBMatrix (logElement : LogImageElement)
    : Z * list float :=
  let refHighData :=
    F32.div (F32.of_Z (refHighData logElement)) (maxValue logElement) in
  let refLowData :=
    F32.div (F32.of_Z (refLowData logElement)) (maxValue logElement) in
  let scaleY := F32.div F32.one (F32.sub refHighData refLowData) in
  let scaleCbCr :=
    F32.mul scaleY
      (F32.div (F32.sub (F32.of_Z 940) (F32.of_Z 64))
               (F32.sub (F32.of_Z 960) (F32.of_Z 64))) in
  let y (c : float) := F32.mul c scaleY in
  let c (c : float) := F32.mul c scaleCbCr in
  let neg := SFopp in
  match transfer logElement with
  | 2 => (* linear *)
      (0, [y F32.one; c F32.one; c F32.one;
           y F32.one; c F32.one; c F32.one;
           y F32.one; c F32.one; c F32.one])
  | 5 => (* SMPTE 240M *)
      (0, [y F32.one; c F32.zero; c (F32.dec 15756 4);
           y F32.one; c (neg (F32.dec 2253 4)); c (neg (F32.dec 5 1));
           y F32.one; c (F32.dec 1827 3); c F32.zero])
  | 6 => (* CCIR 709-1 *)
      (0, [y F32.one; c F32.zero; c (F32.dec 15748 4);
           y F32.one; c (neg (F32.dec 187324 6)); c (neg (F32.dec 468124 6));
           y F32.one; c (F32.dec 18556 4); c F32.zero])
  | 7 | 8 => (* CCIR 601 *)
      (0, [y F32.one; c F32.zero; c (F32.dec 1402 3);
           y F32.one; c (neg (F32.dec 344136 6)); c (neg (F32.dec 714136 6));
           y F32.one; c (F32.dec 1772 3); c F32.zero])
  | _ => (1, [])
  end.

Definition lutsize (logElement : LogImageElement) : Z :=
  uint (F32.to_Z (F32.add (maxValue logElement) F32.one)).

(** The exponent [(x - referenceWhite) * step / negativeFilmGamma *
    gamma / 1.7f] of the two logarithmic tables. *)
Definition density_exponent (logImage : LogImageFile) (step x : float)
    : float :=
  let negativeFilmGamma := F32.dec 6 1 in
  F32.div
    (F32.mul
       (F32.div (F32.mul (F32.sub x (referenceWhite logImage)) step)
                negativeFilmGamma)
       (gamma logImage))
    (F32.dec 17 1).

Definition getLinToLogLut (logImage : LogImageFile)
    (logElement : LogImageElement) : list float :=
  let negativeFilmGamma := F32.dec 6 1 in
  let step := F32.div (refHighQuantity logElement) (maxValue logElement) in
  let gain :=
    F32.div (maxValue logElement)
      (F32.sub F32.one
         (powf (F32.of_Z 10)
            (density_exponent logImage step (referenceBlack logImage)))) in
  let offset := F32.sub gain (maxValue logElement) in
  map (fun i =>
         F32.div
           (F32.add (referenceWhite logImage)
              (F32.div
                 (log10f
                    (powf (F32.div (F32.add (F32.of_Z i) offset) gain)
                          (F32.div (F32.dec 17 1) (gamma logImage))))
                 (F32.div step negativeFilmGamma)))
           (maxValue logElement))
      (seqZ 0 (lutsize logElement)).

Definition getLogToLinLut (logImage : LogImageFile)
    (logElement : LogImageElement) : list float :=
  let step := F32.div (refHighQuantity logElement) (maxValue logElement) in
  (* these are default values *)
  let softClip := F32.zero in
  let breakPoint := F32.sub (referenceWhite logImage) softClip in
  let gain :=
    F32.div (maxValue logElement)
      (F32.sub F32.one
         (powf (F32.of_Z 10)
            (density_exponent logImage step (referenceBlack logImage)))) in
  let offset := F32.sub gain (maxValue logElement) in
  let kneeOffset :=
    F32.sub
      (F32.mul (powf (F32.of_Z 10) (density_exponent logImage step breakPoint))
               gain)
      offset in
  let kneeGain :=
    F32.div (F32.sub (maxValue logElement) kneeOffset)
      (powf (F32.mul (F32.of_Z 5) softClip)
            (F32.div softClip (F32.of_Z 100))) in
  map (fun i =>
         if F32.ltb (F32.of_Z i) (referenceBlack logImage) then F32.zero
         else if F32.gtb (F32.of_Z i) breakPoint then
           F32.div
             (F32.add
                (F32.mul
                   (powf (F32.sub (F32.of_Z i) breakPoint)
                         (F32.div softClip (F32.of_Z 100)))
                   kneeGain)
                kneeOffset)
             (maxValue logElement)
         else
           F32.div
             (F32.sub
                (F32.mul
                   (powf (F32.of_Z 10)
                         (density_exponent logImage step (F32.of_Z i)))
                   gain)
                offset)
             (maxValue logElement))
      (seqZ 0 (lutsize logElement)).

Definition getLinToSrgbLut (logElement : LogImageElement) : list float :=
  map (fun i =>
         let col := F32.div (F32.of_Z i) (maxValue logElement) in
         if F32.ltb col (F32.dec 31308 7) then
           if F32.ltb col F32.zero then F32.zero
           else F32.mul col (F32.dec 1292 2)
         else
           F32.sub
             (F32.mul (F32.dec 1055 3)
                (powf col (F32.div F32.one (F32.dec 24 1))))
             (F32.dec 55 3))
      (seqZ 0 (lutsize logElement)).

Definition getSrgbToLinLut (logElement : LogImageElement) : list float :=
  map (fun i =>
         let col := F32.div (F32.of_Z i) (maxValue logElement) in
         if F32.ltb col (F32.dec 4045 5) then
           if F32.ltb col F32.zero then F32.zero
           else F32.mul col (F32.div F32.one (F32.dec 1292 2))
         else
           powf (F32.mul (F32.add col (F32.dec 55 3))
                         (F32.div F32.one (F32.dec 1055 3)))
                (F32.dec 24 1))
      (seqZ 0 (lutsize logElement)).

(** [lut[float_uint(v, logElement.maxValue)]]. *)
Definition lut_at (lut : list float) (logElement : LogImageElement)
    (v : float) : float :=
  load (float_uint v (uint (F32.to_Z (maxValue logElement)))) lut.

Definition is_plain_transfer (t : Z) : bool :=
  (t =? transfer_Unspecified) || (t =? transfer_UserDefined)
  || (t =? transfer_Linear) || (t =? transfer_Logarithmic).

Definition density_lut (logImage : LogImageFile)
    (logElement : LogImageElement) (elementIsSource : Z) : list float :=
  if elementIsSource =? 1 then getLogToLinLut logImage logElement
  else getLinToLogLut logImage logElement.

Definition convertRGBA_RGB (logImage : LogImageFile)
    (logElement : LogImageElement) (elementIsSource : Z) : conv Z :=
  if is_plain_transfer (transfer logElement) then
    repeat_conv (pixels logImage)
      (do r <- read_inc; emit r;;
       do g <- read_inc; emit g;;
       do b <- read_inc; emit b;;
       advance 1);;
    conv_ret 0
  else if transfer logElement =? transfer_PrintingDensity then
    let lut := density_lut logImage logElement elementIsSource in
    repeat_conv (pixels logImage)
      (do r <- read_inc; emit (lut_at lut logElement r);;
       do g <- read_inc; emit (lut_at lut logElement g);;
       do b <- read_inc; emit (lut_at lut logElement b);;
       advance 1);;
    conv_ret 0
  else conv_ret 1.

Definition convertRGB_RGBA (logImage : LogImageFile)
    (logElement : LogImageElement) (elementIsSource : Z) : conv Z :=
  if is_plain_transfer (transfer logElement) then
    repeat_conv (pixels logImage)
      (do r <- read_inc; emit r;;
       do g <- read_inc; emit g;;
       do b <- read_inc; emit b;;
       emit F32.one);;
    conv_ret 0
  else if transfer logElement =? transfer_PrintingDensity then
    let lut := density_lut logImage logElement elementIsSource in
    repeat_conv (pixels logImage)
      (do r <- read_inc; emit (lut_at lut logElement r);;
       do g <- read_inc; emit (lut_at lut logElement g);;
       do b <- read_inc; emit (lut_at lut logElement b);;
       emit F32.one);;
    conv_ret 0
  else conv_ret 1.

Definition convertRGBA_RGBA (logImage : LogImageFile)
    (logElement : LogImageElement) (elementIsSource : Z) : conv Z :=
  let t := transfer logElement in
  if (t =? transfer_UserDefined) || (t =? transfer_Linear)
     || (t =? transfer_Logarithmic) then
    memcpy_conv (4 * pixels logImage);;
    conv_ret 0
  else if t =? transfer_PrintingDensity then
    let lut := density_lut logImage logElement elementIsSource in
    repeat_conv (pixels logImage)
      (do r <- read_inc; emit (lut_at lut logElement r);;
       do g <- read_inc; emit (lut_at lut logElement g);;
       do b <- read_inc; emit (lut_at lut logElement b);;
       do a <- read_inc; emit a);;
    conv_ret 0
  else conv_ret 1.

Definition convertABGR_RGBA (logImage : LogImageFile)
    (logElement : LogImageElement) (elementIsSource : Z) : conv Z :=
  let t := transfer logElement in
  if (t =? transfer_UserDefined) || (t =? transfer_Linear)
     || (t =? transfer_Logarithmic) then
    repeat_conv (pixels logImage)
      (advance 4;;
       do r <- read_dec; emit r;;
       do g <- read_dec; emit g;;
       do b <- read_dec; emit b;;
       do a <- read_dec; emit a;;
       advance 4);;
    conv_ret 0
  else if t =? transfer_PrintingDensity then
    let lut := density_lut logImage logElement elementIsSource in
    repeat_conv (pixels logImage)
      (advance 4;;
       do r <- read_dec; emit (lut_at lut logElement r);;
       do g <- read_dec; emit (lut_at lut logElement g);;
       do b <- read_dec; emit (lut_at lut logElement b);;
       do a <- read_dec; emit a;;
       advance 4);;
    conv_ret 0
  else conv_ret 1.

(** [clamp_float(y * m[k] + cb * m[k+1] + cr * m[k+2], 0.0f, 1.0f)]. *)
Definition matrix_row (m : list float) (k : Z) (y cb cr : float) : float :=
  clamp_float
    (F32.add
       (F32.add (F32.mul y (load k m)) (F32.mul cb (load (k + 1) m)))
       (F32.mul cr (load (k + 2) m)))
    F32.zero F32.one.

Definition emit_rgb (m : list float) (y cb cr : float) : conv unit :=
  emit (matrix_row m 0 y cb cr);;
  emit (matrix_row m 3 y cb cr);;
  emit (matrix_row m 6 y cb cr).

Definition refLow (logElement : LogImageElement) : float :=
  F32.div (F32.of_Z (refLowData logElement)) (maxValue logElement).

Definition convertCbYCr_RGBA (logImage : LogImageFile)
    (logElement : LogImageElement) : conv Z :=
  let '(status, conversionMatrix) := getYUVtoRGBMatrix logElement in
  if negb (status =? 0) then conv_ret 1
  else
    let refLowData := refLow logElement in
    repeat_conv (pixels logImage)
      (do cb <- read_inc; do y <- read_inc; do cr <- read_inc;
       emit_rgb conversionMatrix (F32.sub y refLowData)
         (F32.sub cb F32.half) (F32.sub cr F32.half);;
       emit F32.one);;
    conv_ret 0.

Definition convertCbYCrA_RGBA (logImage : LogImageFile)
    (logElement : LogImageElement) : conv Z :=
  let '(status, conversionMatrix) := getYUVtoRGBMatrix logElement in
  if negb (status =? 0) then conv_ret 1
  else
    let refLowData := refLow logElement in
    repeat_conv (pixels logImage)
      (do cb <- read_inc; do y <- read_inc; do cr <- read_inc;
       do a <- read_inc;
       emit_rgb conversionMatrix (F32.sub y refLowData)
         (F32.sub cb F32.half) (F32.sub cr F32.half);;
       emit a);;
    conv_ret 0.

Definition convertCbYCrY_RGBA (logImage : LogImageFile)
    (logElement : LogImageElement) : conv Z :=
  let '(status, conversionMatrix) := getYUVtoRGBMatrix logElement in
  if negb (status =? 0) then conv_ret 1
  else
    let refLowData := refLow logElement in
    repeat_conv (Z.to_nat (width logImage * height logImage / 2))
      (do cb <- read_inc; do y1 <- read_inc; do cr <- read_inc;
       do y2 <- read_inc;
       emit_rgb conversionMatrix (F32.sub y1 refLowData)
         (F32.sub cb F32.half) (F32.sub cr F32.half);;
       emit F32.one;;
       emit_rgb conversionMatrix (F32.sub y2 refLowData)
         (F32.sub cb F32.half) (F32.sub cr F32.half);;
       emit F32.one);;
    conv_ret 0.

Definition convertCbYACrYA_RGBA (logImage : LogImageFile)
    (logElement : LogImageElement) : conv Z :=
  let '(status, conversionMatrix) := getYUVtoRGBMatrix logElement in
  if negb (status =? 0) then conv_ret 1
  else
    let refLowData := refLow logElement in
    repeat_conv (Z.to_nat (width logImage * height logImage / 2))
      (do cb <- read_inc; do y1 <- read_inc; do a1 <- read_inc;
       do cr <- read_inc; do y2 <- read_inc; do a2 <- read_inc;
       emit_rgb conversionMatrix (F32.sub y1 refLowData)
         (F32.sub cb F32.half) (F32.sub cr F32.half);;
       emit a1;;
       emit_rgb conversionMatrix (F32.sub y2 refLowData)
         (F32.sub cb F32.half) (F32.sub cr F32.half);;
       emit a2);;
    conv_ret 0.

Definition convertLuminance_RGBA (logImage : LogImageFile)
    (logElement : LogImageElement) : conv Z :=
  let '(status, conversionMatrix) := getYUVtoRGBMatrix logElement in
  if negb (status =? 0) then conv_ret 1
  else
    let refLowData := refLow logElement in
    repeat_conv (pixels logImage)
      (do y <- read_inc;
       let value :=
         clamp_float (F32.mul (F32.sub y refLowData) (load 0 conversionMatrix))
           F32.zero F32.one in
       emit value;; emit value;; emit value;; emit F32.one);;
    conv_ret 0.

Definition convertYA_RGBA (logImage : LogImageFile)
    (logElement : LogImageElement) : conv Z :=
  let '(status, conversionMatrix) := getYUVtoRGBMatrix logElement in
  if negb (status =? 0) then conv_ret 1
  else
    let refLowData := refLow logElement in
    repeat_conv (pixels logImage)
      (do y <- read_inc;
       let value :=
         clamp_float (F32.mul (F32.sub y refLowData) (load 0 conversionMatrix))
           F32.zero F32.one in
       emit value;; emit value;; emit value;;
       do a <- read_inc; emit a);;
    conv_ret 0.

(** The pass [lut[float_uint(v, maxValue)]] over the R, G, B samples of
    an RGBA buffer; the alpha cell is stepped over. *)
Definition lut_rgb_pass (lut : list float) (logImage : LogImageFile)
    (logElement : LogImageElement) : conv Z :=
  repeat_conv (pixels logImage)
    (do r <- read_inc; emit (lut_at lut logElement r);;
     do g <- read_inc; emit (lut_at lut logElement g);;
     do b <- read_inc; emit (lut_at lut logElement b);;
     skip_dst;;
     advance 1);;
  conv_ret 0.

(** [convertLogElementToRGBA]: convert data in [src] to RGBA in the
    buffer [dst], whose content before the call is [dst0]. *)
Definition convertLogElementToRGBA (src dst0 : list float)
    (logImage : LogImageFile) (logElement : LogImageElement)
    (dstIsLinearRGB : Z) : option (Z * list float) :=
  let converter :=
    match descriptor logElement with
    | descriptor_RGB => Some (convertRGB_RGBA logImage logElement 1)
    | descriptor_RGBA => Some (convertRGBA_RGBA logImage logElement 1)
    | descriptor_ABGR => Some (convertABGR_RGBA logImage logElement 1)
    | descriptor_Luminance => Some (convertLuminance_RGBA logImage logElement)
    | descriptor_CbYCr => Some (convertCbYCr_RGBA logImage logElement)
    | descriptor_CbYCrY => Some (convertCbYCrY_RGBA logImage logElement)
    | descriptor_CbYACrYA => Some (convertCbYACrYA_RGBA logImage logElement)
    | descriptor_CbYCrA => Some (convertCbYCrA_RGBA logImage logElement)
    | descriptor_YA => Some (convertYA_RGBA logImage logElement)
    | _ => None
    end in
  match converter with
  | None => Some (1, dst0)
  | Some m =>
      match run_conv m src dst0 with
      | None => None
      | Some (rvalue, dst) =>
          if rvalue =? 1 then Some (1, dst)
          else if negb (dstIsLinearRGB =? 0) then
            (* convert data from sRGB to Linear RGB via lut; the source
               pointer is [dst] itself, each cell being read before it
               is stored to *)
            let lut := getSrgbToLinLut logElement in
            run_conv (lut_rgb_pass lut logImage logElement) dst dst
          else Some (0, dst)
      end
  end.

(** [convertRGBAToLogElement]: convert RGBA data in [src] to the format
    described by [logElement] in the buffer [dst], whose content before
    the call is [dst0].  [srgb_ok] tells whether the working copy could
    be allocated. *)
Definition convertRGBAToLogElement (srgb_ok : bool) (src dst0 : list float)
    (logImage : LogImageFile) (logElement : LogImageElement)
    (srcIsLinearRGB : Z) : option (Z * list float) :=
  let srgbSrc :=
    if negb (srcIsLinearRGB =? 0) then
      if negb srgb_ok then Some None
      else
        (* the working copy is overwritten whole by the memcpy *)
        let srgbSrc_alloc := replicate (4 * pixels logImage) F32.zero in
        let lut := getLinToSrgbLut logElement in
        match run_conv (memcpy_conv (4 * pixels logImage);;
                        lut_rgb_pass lut logImage logElement)
                src srgbSrc_alloc with
        | Some (_, copy) => Some (Some copy)
        | None => None
        end
    else Some (Some src) in
  match srgbSrc with
  | None => None
  | Some None => Some (1, dst0)
  | Some (Some srgbSrc) =>
      match descriptor logElement with
      | descriptor_RGB =>
          run_conv (convertRGBA_RGB logImage logElement 0) srgbSrc dst0
      | descriptor_RGBA =>
          run_conv (convertRGBA_RGBA logImage logElement 0) srgbSrc dst0
      | _ => (* these ones are not supported for the moment *)
          Some (1, dst0)
      end
  end.

End Conversion.

(** ** Top-level orchestrator *)

Section Orchestrator.

Variable powf : float -> float -> float.
Variable log10f : float -> float.

(** [logImageSetDataRGBA].  [pixels_ok], [srgb_ok] and [row_ok] tell
    whether the three allocations of the write path succeed;
    [elementData] is allocated zeroed.  The handle always has an
    [element[0]]; a handle without one is [None]. *)
Definition logImageSetDataRGBA (pixels_ok srgb_ok row_ok : bool)
    (logImage : LogImageFile) (data : list float) (dataIsLinearRGB : Z)
    (f : outfile) : option (Z * outfile) :=
  if negb pixels_ok then Some (1, f)
  else
    let elementData :=
      replicate
        (Z.to_nat (width logImage * height logImage * imageDepth logImage))
        F32.zero in
    match element logImage !! 0%nat with
    | None => None
    | Some element0 =>
        match convertRGBAToLogElement powf log10f srgb_ok data elementData
                logImage element0 dataIsLinearRGB with
        | None => None
        | Some (rvalue, elementData) =>
            if negb (rvalue =? 0) then Some (1, f)
            else
              match bitsPerSample element0 with
              | 8 => Some (logImageSetData8 row_ok logImage element0 elementData f)
              | 10 => Some (logImageSetData10 row_ok logImage element0 elementData f)
              | 12 => Some (logImageSetData12 row_ok logImage element0 elementData f)
              | 16 => Some (logImageSetData16 row_ok logImage element0 elementData f)
              | _ => Some (1, f)
              end
        end
    end.

End Orchestrator.

(** ** Element assembler: the merge of [logImageGetDataRGBA] *)

(** [for (i = 0; i < n; i++) body] over a state, an undefined access
    ([None]) ending the run. *)
Fixpoint iter_opt {S : Type} (n : nat) (i : Z) (body : Z -> S -> option S)
    (s : S) : option S :=
  match n with
  | O => Some s
  | Datatypes.S n' =>
      match body i s with
      | Some s' => iter_opt n' (i + 1) body s'
      | None => None
      end
  end.

(** [hasAlpha], as the loading loop leaves it. *)
Definition hasAlpha_of (logImage : LogImageFile) : Z :=
  if existsb (fun e => bool_decide (descriptor e = descriptor_Alpha))
       (take (Z.to_nat (numElements logImage)) (element logImage))
  then 1 else 0.

(** [sortedElementData[k] = i], an [int[8]]. *)
Definition set_sorted (k i : Z) (sorted : list Z) : option (list Z) :=
  if (0 <=? k) && (k <? 8) then Some (<[Z.to_nat k := i]> sorted) else None.

(** The merged descriptor of luminance met with chrominance. *)
Definition chroma_descriptor (mergedDepth hasAlpha : Z) (d : descriptor_id)
    : descriptor_id :=
  if mergedDepth =? 2 then descriptor_CbYCrY
  else if mergedDepth =? 3 then
    if hasAlpha =? 0 then descriptor_CbYCr else descriptor_CbYACrYA
  else if mergedDepth =? 4 then descriptor_CbYCrA
  else d.

(** One case of the switch that decides how to assemble the elements:
    the state is [mergedElement.descriptor] and [sortedElementData]. *)
Definition assemble_step (hasAlpha mergedDepth : Z) (i : Z) (d : descriptor_id)
    (st : descriptor_id * list Z) : option (descriptor_id * list Z) :=
  let '(merged, sorted) := st in
  let rgb := if hasAlpha =? 0 then descriptor_RGB else descriptor_RGBA in
  match d with
  | descriptor_Red | descriptor_RGB =>
      sorted' ← set_sorted 0 i sorted; Some (rgb, sorted')
  | descriptor_Green =>
      sorted' ← set_sorted 1 i sorted; Some (rgb, sorted')
  | descriptor_Blue =>
      sorted' ← set_sorted 2 i sorted; Some (rgb, sorted')
  | descriptor_Alpha =>
      (* Alpha component is always the last one *)
      sorted' ← set_sorted (mergedDepth - 1) i sorted; Some (merged, sorted')
  | descriptor_Luminance =>
      let merged' :=
        match merged with
        | descriptor_Unset =>
            if hasAlpha =? 0 then descriptor_Luminance else descriptor_YA
        | descriptor_Chrominance =>
            chroma_descriptor mergedDepth hasAlpha merged
        | _ => merged
        end in
      (* Y component always in 1 except if it's alone or with alpha *)
      sorted' ←
        (if (mergedDepth =? 1) || ((mergedDepth =? 2) && (hasAlpha =? 1))
         then set_sorted 0 i sorted else set_sorted 1 i sorted);
      Some (merged', sorted')
  | descriptor_Chrominance =>
      let merged' :=
        match merged with
        | descriptor_Unset => descriptor_Chrominance
        | descriptor_Luminance =>
            chroma_descriptor mergedDepth hasAlpha merged
        | _ => merged
        end in
      (* Cb and Cr always in 0 or 2 *)
      sorted' ←
        (if bool_decide (sorted !! 0%nat = Some (-1))
         then set_sorted 0 i sorted else set_sorted 2 i sorted);
      Some (merged', sorted')
  | descriptor_CbYCr =>
      sorted' ← set_sorted 0 i sorted;
      Some (if hasAlpha =? 0 then descriptor_CbYCr else descriptor_CbYCrA,
            sorted')
  | descriptor_RGBA | descriptor_ABGR | descriptor_CbYACrYA
  | descriptor_CbYCrY | descriptor_CbYCrA =>
      (* I don't think these ones can be seen in a planar image *)
      sorted' ← set_sorted 0 i sorted; Some (d, sorted')
  | _ => (* Depth, Composite: not supported; no other case *)
      Some (merged, sorted)
  end.

(** The loop "try to know how to assemble the elements". *)
Definition assemble (logImage : LogImageFile) (hasAlpha : Z)
    : option (descriptor_id * list Z) :=
  iter_opt (Z.to_nat (numElements logImage)) 0
    (fun i st =>
       e ← element logImage !! Z.to_nat i;
       assemble_step hasAlpha (imageDepth logImage) i (descriptor e) st)
    (descriptor_Unset, replicate 8 (-1)).

(** The state of the interleave loop: [sampleIndex], the plane cursors
    [elementData_ptr] (as offsets into the planes) and [mergedData]. *)
Record merge_state : Type := {
  sampleIndex : Z;
  elementData_ptr : list Z;
  mergedData : list float
}.

(** [mergedData[sampleIndex++] = *(elementData_ptr[k]++)]. *)
Definition copy_sample (elementData : list (option (list float))) (k : Z)
    (st : merge_state) : option merge_state :=
  plane ← mjoin (elementData !! Z.to_nat k);
  p ← elementData_ptr st !! Z.to_nat k;
  v ← plane !! Z.to_nat p;
  if sampleIndex st <? Z.of_nat (length (mergedData st)) then
    Some {| sampleIndex := sampleIndex st + 1;
            elementData_ptr := <[Z.to_nat k := p + 1]> (elementData_ptr st);
            mergedData := <[Z.to_nat (sampleIndex st) := v]> (mergedData st) |}
  else None.

(** The body of the [while]: for each slot [i], the samples of the
    element [sortedElementData[i]]. *)
Definition interleave_pass (logImage : LogImageFile) (sorted : list Z)
    (elementData : list (option (list float))) (st : merge_state)
    : option merge_state :=
  iter_opt (Z.to_nat (numElements logImage)) 0
    (fun i st =>
       k ← sorted !! Z.to_nat i;
       if k <? 0 then None
       else
         e ← element logImage !! Z.to_nat k;
         iter_opt (Z.to_nat (depth e)) 0
           (fun _ st => copy_sample elementData k st) st)
    st.

(** [while (sampleIndex < total) pass]; [None] when the fuel runs out
    before the loop condition fails. *)
Fixpoint interleave (fuel : nat) (total : Z) (logImage : LogImageFile)
    (sorted : list Z) (elementData : list (option (list float)))
    (st : merge_state) : option merge_state :=
  if sampleIndex st <? total then
    match fuel with
    | O => None
    | Datatypes.S n =>
        match interleave_pass logImage sorted elementData st with
        | Some st' => interleave n total logImage sorted elementData st'
        | None => None
        end
    end
  else Some st.

(** The [else] branch of [logImageGetDataRGBA] (more than one element)
    once the planes [elementData] are loaded ([None]: an element that was
    skipped): the merged element, a copy of [element[0]] with the depth of
    the handle and the assembled descriptor, and the merged data, which
    is allocated zeroed.  The fuel of the [while] is the number of samples
    to merge, which a turn that merges at least one sample cannot
    exceed. *)
Definition logImageGetDataRGBA_merge (logImage : LogImageFile)
    (elementData : list (option (list float)))
    : option (LogImageElement * list float) :=
  let hasAlpha := hasAlpha_of logImage in
  element0 ← element logImage !! 0%nat;
  '(merged, sorted) ← assemble logImage hasAlpha;
  let mergedElement :=
    {| depth := imageDepth logImage;
       bitsPerSample := bitsPerSample element0;
       dataOffset := dataOffset element0;
       packing := packing element0;
       transfer := transfer element0;
       descriptor := merged;
       refLowData := refLowData element0;
       refHighData := refHighData element0;
       refLowQuantity := refLowQuantity element0;
       refHighQuantity := refHighQuantity element0;
       maxValue := maxValue element0 |} in
  let total := width logImage * height logImage * depth mergedElement in
  st ← interleave (Z.to_nat total) total logImage sorted elementData
         {| sampleIndex := 0;
            elementData_ptr := replicate (Z.to_nat (numElements logImage)) 0;
            mergedData := replicate (Z.to_nat total) F32.zero |};
  Some (mergedElement, mergedData st).

(** ** Closing a handle *)

(** The heap of handles and the open byte-I/O handles, with the calls
    made to [fclose] and [MEM_freeN]. *)
Inductive call : Type :=
  | call_fclose (f : positive)
  | call_MEM_freeN (p : positive).

Record world : Type := {
  handles : gmap positive LogImageFile;
  open_files : gset positive;
  calls : list call
}.

Definition set_file (logImage : LogImageFile) (f : option positive)
    : LogImageFile :=
  {| width := width logImage; height := height logImage;
     numElements := numElements logImage; imageDepth := imageDepth logImage;
     element := element logImage;
     referenceBlack := referenceBlack logImage;
     referenceWhite := referenceWhite logImage;
     gamma := gamma logImage;
     file := f;
     isMSB := isMSB logImage; srcFormat := srcFormat logImage |}.

(** [logImageClose]: the pointer is [None] when null; a pointer to no
    live handle is undefined ([None]). *)
Definition logImageClose (logImage : option positive) (w : world)
    : option world :=
  match logImage with
  | None => Some w
  | Some p =>
      h ← handles w !! p;
      let w1 :=
        match file h with
        | Some f =>
            {| handles := <[p := set_file h None]> (handles w);
               open_files := open_files w ∖ {[f]};
               calls := calls w ++ [call_fclose f] |}
        | None => w
        end in
      Some {| handles := delete p (handles w1);
              open_files := open_files w1;
              calls := calls w1 ++ [call_MEM_freeN p] |}
  end.

(** ** Bit-unpack engine: the other sample sizes *)

(** [logImageElementGetData8]: one byte a sample, rows padded to 32 bits,
    hence a seek at each row. *)
Definition logImageElementGetData8 (logImage : LogImageFile)
    (logElement : LogImageElement) (f : stream) (data : buffer)
    : Z * stream * buffer :=
  let rowLength := getRowLength (width logImage) logElement in
  let r :=
    for_upto (height logImage) (fun y '(f1, d1) =>
      match logimage_fseek f1
              (size_t (dataOffset logElement + size_t (y * rowLength))) with
      | None => Return1 (f1, d1)
      | Some f2 =>
          for_upto (width logImage * depth logElement) (fun x '(f3, d3) =>
            match logimage_read_uchar f3 with
            | None => Return1 (f3, d3)
            | Some (pixel, f4) =>
                Continue
                  (f4,
                   store (y * width logImage * depth logElement + x)
                     (F32.div (F32.of_Z pixel) (F32.of_Z 255)) d3)
            end)
            (f2, d1)
      end)
      (f, data)
  in
  match r with
  | Continue (f', d') => (0, f', d')
  | Return1 (f', d') => (1, f', d')
  end.

(** The registers of the 10- and 12-bit unpackers: the file, the samples,
    the word being unpacked and the bit position in it. *)
Record unpack_state : Type := {
  u_file : stream;
  u_data : buffer;
  u_pixel : Z;
  u_offset : Z
}.

(** [logImageElementGetData10]: three samples in a 32-bit word. *)
Definition logImageElementGetData10 (logImage : LogImageFile)
    (logElement : LogImageElement) (f : stream) (data : buffer)
    : Z * stream * buffer :=
  match logimage_fseek f (dataOffset logElement) with
  | None => (1, f, data)
  | Some f0 =>
      (* [upward]: the loop of the first branch, for a DPX image of depth 1,
         whose shifts go up from 2 or 0; the other loop goes down from 22
         or 20 *)
      let upward :=
        (imageDepth logImage =? 1)
        && match srcFormat logImage with format_DPX => true | _ => false end in
      let r :=
        for_upto (height logImage) (fun y st =>
          for_upto (width logImage * depth logElement) (fun x st =>
            (* we need to read the next long *)
            let refill :=
              if upward then 30 <=? u_offset st else u_offset st <? 0 in
            let next :=
              if refill then
                let offset :=
                  if packing logElement =? 1 then (if upward then 2 else 22)
                  else if packing logElement =? 2 then (if upward then 0 else 20)
                  else u_offset st in
                match logimage_read_uint (u_file st) with
                | None => None
                | Some (pixel, f2) =>
                    Some {| u_file := f2; u_data := u_data st;
                            u_pixel := swap_uint pixel (isMSB logImage);
                            u_offset := offset |}
                end
              else Some st in
            match next with
            | None => Return1 st
            | Some st1 =>
                Continue
                  {| u_file := u_file st1;
                     u_data :=
                       store (y * width logImage * depth logElement + x)
                         (F32.div
                            (F32.of_Z
                               (Z.land (Z.shiftr (u_pixel st1) (u_offset st1))
                                       0x3ff))
                            (F32.of_Z 1023))
                         (u_data st1);
                     u_pixel := u_pixel st1;
                     u_offset :=
                       if upward then u_offset st1 + 10 else u_offset st1 - 10 |}
            end)
            {| u_file := u_file st; u_data := u_data st;
               u_pixel := u_pixel st;
               u_offset := if upward then 32 else -1 |})
          {| u_file := f0; u_data := data; u_pixel := 0; u_offset := 0 |}
      in
      match r with
      | Continue st => (0, u_file st, u_data st)
      | Return1 st => (1, u_file st, u_data st)
      end
  end.

(** The registers of the packed unpackers: [oldPixel] and [offset2] hold
    the head of a sample that straddles two words. *)
Record packed_state : Type := {
  p_file : stream;
  p_data : buffer;
  p_pixel : Z;
  p_oldPixel : Z;
  p_offset : Z;
  p_offset2 : Z
}.

(** The loop shared by [logImageElementGetData10Packed] ([bits] = 10,
    mask [0x3ff], divisor 1023) and [logImageElementGetData12Packed]
    ([bits] = 12, mask [0xfff], divisor 4095), which differ in these three
    constants only. *)
Definition getDataPacked (bits mask : Z) (logImage : LogImageFile)
    (logElement : LogImageElement) (f : stream) (data : buffer)
    : Z * stream * buffer :=
  let rowLength := getRowLength (width logImage) logElement in
  let r :=
    for_upto (height logImage) (fun y st =>
      match logimage_fseek (p_file st)
              (size_t (size_t (y * rowLength) + dataOffset logElement)) with
      | None => Return1 st
      | Some f1 =>
          for_upto (width logImage * depth logElement) (fun x st =>
            let st1 :=
              if negb (p_offset2 st =? 0) then
                {| p_file := p_file st; p_data := p_data st;
                   p_pixel := p_pixel st; p_oldPixel := 0;
                   p_offset := bits - p_offset2 st; p_offset2 := 0 |}
              else if p_offset st =? 32 then
                {| p_file := p_file st; p_data := p_data st;
                   p_pixel := p_pixel st; p_oldPixel := p_oldPixel st;
                   p_offset := 0; p_offset2 := 0 |}
              else if 32 <? p_offset st + bits then
                (* next pixel is on two different longs *)
                {| p_file := p_file st; p_data := p_data st;
                   p_pixel := p_pixel st;
                   p_oldPixel := Z.shiftr (p_pixel st) (p_offset st);
                   p_offset := 0; p_offset2 := 32 - p_offset st |}
              else st in
            let next :=
              if p_offset st1 =? 0 then
                (* we need to read the next long *)
                match logimage_read_uint (p_file st1) with
                | None => None
                | Some (pixel, f2) =>
                    Some {| p_file := f2; p_data := p_data st1;
                            p_pixel := swap_uint pixel (isMSB logImage);
                            p_oldPixel := p_oldPixel st1;
                            p_offset := p_offset st1;
                            p_offset2 := p_offset2 st1 |}
                end
              else Some st1 in
            match next with
            | None => Return1 st1
            | Some st2 =>
                Continue
                  {| p_file := p_file st2;
                     p_data :=
                       store (y * width logImage * depth logElement + x)
                         (F32.div
                            (F32.of_Z
                               (Z.lor
                                  (Z.land
                                     (Z.shiftr
                                        (uint (Z.shiftl (p_pixel st2)
                                                 (p_offset2 st2)))
                                        (p_offset st2))
                                     mask)
                                  (p_oldPixel st2)))
                            (F32.of_Z mask))
                         (p_data st2);
                     p_pixel := p_pixel st2; p_oldPixel := p_oldPixel st2;
                     p_offset := p_offset st2 + bits;
                     p_offset2 := p_offset2 st2 |}
            end)
            {| p_file := f1; p_data := p_data st; p_pixel := p_pixel st;
               p_oldPixel := 0; p_offset := 0; p_offset2 := 0 |}
      end)
      {| p_file := f; p_data := data; p_pixel := 0; p_oldPixel := 0;
         p_offset := 0; p_offset2 := 0 |}
  in
  match r with
  | Continue st => (0, p_file st, p_data st)
  | Return1 st => (1, p_file st, p_data st)
  end.

Definition logImageElementGetData10Packed :
    LogImageFile -> LogImageElement -> stream -> buffer -> Z * stream * buffer :=
  getDataPacked 10 0x3ff.

Definition logImageElementGetData12Packed :
    LogImageFile -> LogImageElement -> stream -> buffer -> Z * stream * buffer :=
  getDataPacked 12 0xfff.

(** [logImageElementGetData16]: one 16-bit word a sample. *)
Definition logImageElementGetData16 (logImage : LogImageFile)
    (logElement : LogImageElement) (f : stream) (data : buffer)
    : Z * stream * buffer :=
  let numSamples :=
    uint (width logImage * height logImage * depth logElement) in
  match logimage_fseek f (dataOffset logElement) with
  | None => (1, f, data)
  | Some f0 =>
      let r :=
        for_upto numSamples (fun sampleIndex '(f1, d1) =>
          match logimage_read_ushort f1 with
          | None => Return1 (f1, d1)
          | Some (pixel, f2) =>
              let pixel := swap_ushort pixel (isMSB logImage) in
              Continue (f2, store sampleIndex
                              (F32.div (F32.of_Z pixel) (F32.of_Z 65535)) d1)
          end)
          (f0, data)
      in
      match r with
      | Continue (f', d') => (0, f', d')
      | Return1 (f', d') => (1, f', d')
      end
  end.

(** [logImageElementGetData]: the unpacker of the element's sample size
    and packing; 1 when the format is not supported. *)
Definition logImageElementGetData (logImage : LogImageFile)
    (logElement : LogImageElement) (f : stream) (data : buffer)
    : Z * stream * buffer :=
  match bitsPerSample logElement with
  | 1 => logImageElementGetData1 logImage logElement f data
  | 8 => logImageElementGetData8 logImage logElement f data
  | 10 =>
      if packing logElement =? 0 then
        logImageElementGetData10Packed logImage logElement f data
      else if (packing logElement =? 1) || (packing logElement =? 2) then
        logImageElementGetData10 logImage logElement f data
      else (1, f, data)
  | 12 =>
      if packing logElement =? 0 then
        logImageElementGetData12Packed logImage logElement f data
      else if (packing logElement =? 1) || (packing logElement =? 2) then
        logImageElementGetData12 logImage logElement f data
      else (1, f, data)
  | 16 => logImageElementGetData16 logImage logElement f data
  | _ => (1, f, data)
  end.

(** ** Reading an image: [logImageGetDataRGBA] *)

(** The floats of a buffer that was allocated zeroed. *)
Definition samples_of (data : buffer) : list float :=
  (fun c => default F32.zero c) <$> data.

Definition is_skipped (d : descriptor_id) : bool :=
  match d with
  | descriptor_Depth | descriptor_Composite => true
  | _ => false
  end.

(** The loading loop: each element that is not Depth or Composite gets a
    zeroed plane of [width * height * depth] samples and is unpacked into
    it; [alloc_ok i] tells whether the plane of element [i] could be
    allocated.  The planes loaded so far are [acc]. *)
Fixpoint load_elements (alloc_ok : Z -> bool) (logImage : LogImageFile)
    (i : Z) (es : list LogImageElement) (f : stream)
    (acc : list (option (list float)))
    : flow (stream * list (option (list float))) :=
  match es with
  | [] => Continue (f, acc)
  | e :: es' =>
      if is_skipped (descriptor e) then
        load_elements alloc_ok logImage (i + 1) es' f (acc ++ [None])
      else if negb (alloc_ok i) then Return1 (f, acc)
      else
        let plane :=
          replicate (Z.to_nat (width logImage * height logImage * depth e))
            (Some F32.zero) in
        let '(r, f', d) := logImageElementGetData logImage e f plane in
        if negb (r =? 0) then Return1 (f', acc)
        else
          load_elements alloc_ok logImage (i + 1) es' f'
            (acc ++ [Some (samples_of d)])
  end.

Section Reading.

Variable powf : float -> float -> float.
Variable log10f : float -> float.

(** [logImageGetDataRGBA]: fills [data] with RGBA values.  [merged_ok]
    tells whether the merged buffer could be allocated.  A handle with
    fewer elements than [numElements] is [None], as is any undefined
    access of the conversion. *)
Definition logImageGetDataRGBA (alloc_ok : Z -> bool) (merged_ok : bool)
    (logImage : LogImageFile) (f : stream) (data : list float)
    (dataIsLinearRGB : Z) : option (Z * stream * list float) :=
  if Z.of_nat (length (element logImage)) <? numElements logImage then None
  else
    match load_elements alloc_ok logImage 0
            (take (Z.to_nat (numElements logImage)) (element logImage))
            f [] with
    | Return1 (f', _) => Some (1, f', data)
    | Continue (f', elementData) =>
        if numElements logImage =? 1 then
          (* Only one element, easy case, no need to do anything. *)
          element0 ← element logImage !! 0%nat;
          plane ← elementData !! 0%nat;
          '(r, out) ← convertLogElementToRGBA powf log10f (default [] plane)
                        data logImage element0 dataIsLinearRGB;
          Some (r, f', out)
        else
          _ ← assemble logImage (hasAlpha_of logImage);
          if negb merged_ok then Some (1, f', data)
          else
            '(mergedElement, mergedData) ←
              logImageGetDataRGBA_merge logImage elementData;
            '(r, out) ← convertLogElementToRGBA powf log10f mergedData data
                          logImage mergedElement dataIsLinearRGB;
            Some (r, f', out)
    end.

End Reading.

(** ** Opening an image *)

Section Opening.

(** Declared in [dpxlib.h] and [cineonlib.h]: the two magic numbers and
    the two container parsers, which take the buffer and its size. *)
Variable DPX_FILE_MAGIC : Z.
Variable CINEON_FILE_MAGIC : Z.
Variable dpxOpen : list Z -> Z -> option LogImageFile.
Variable cineonOpen : list Z -> Z -> option LogImageFile.

(** [*(uint * )buffer]: the first four bytes in host order. *)
Definition magicNum (buffer : list Z) : Z := le_combine (take 4 buffer).

Definition logImageIsDpx (buffer : list Z) (size : Z) : bool :=
  if size <? 4 then false
  else (magicNum buffer =? DPX_FILE_MAGIC)
       || (magicNum buffer =? swap_uint DPX_FILE_MAGIC 1).

Definition logImageIsCineon (buffer : list Z) (size : Z) : bool :=
  if size <? 4 then false
  else (magicNum buffer =? CINEON_FILE_MAGIC)
       || (magicNum buffer =? swap_uint CINEON_FILE_MAGIC 1).

(** [logImageOpenFromMemory]; [None] is the null pointer. *)
Definition logImageOpenFromMemory (buffer : list Z) (size : Z)
    : option LogImageFile :=
  if logImageIsDpx buffer size then dpxOpen buffer size
  else if logImageIsCineon buffer size then cineonOpen buffer size
  else None.

End Opening.

(** ** The black point of the log-to-lin table *)

(** The value the [else] branch of [getLogToLinLut] stores at the index
    [i] equal to [referenceBlack], as a function of the value [p] that
    [powf] returns for [10] raised to the exponent of the black point
    (the same exponent in [gain] and in the entry). *)
Definition black_point_from (p : float) (logElement : LogImageElement) : float :=
  let gain := F32.div (maxValue logElement) (F32.sub F32.one p) in
  let offset := F32.sub gain (maxValue logElement) in
  F32.div (F32.sub (F32.mul p gain) offset) (maxValue logElement).

Definition black_point_exponent (logImage : LogImageFile)
    (logElement : LogImageElement) : float :=
  density_exponent logImage
    (F32.div (refHighQuantity logElement) (maxValue logElement))
    (referenceBlack logImage).

(** ** Statements about the converters and the assembler *)

(** A conversion that, from any cursors with [r] source cells and [w]
    destination cells ahead, runs to completion, moves the cursors by
    exactly [r] and [w], keeps the size of the destination buffer and
    returns a value satisfying [P]. *)
Definition conv_ok {A : Type} (m : conv A) (r w : Z) (P : A -> Prop) : Prop :=
  forall src c,
    0 <= src_ptr c -> src_ptr c + r <= Z.of_nat (length src) ->
    0 <= dst_ptr c -> dst_ptr c + w <= Z.of_nat (length (dst c)) ->
    exists a c',
      m src c = Some (a, c') /\ P a /\
      src_ptr c' = src_ptr c + r /\ dst_ptr c' = dst_ptr c + w /\
      length (dst c') = length (dst c).

Definition yuv_transfer (t : Z) : bool :=
  (t =? 2) || (t =? 5) || (t =? 6) || (t =? 7) || (t =? 8).

(** The samples a converter of the Y'CbCr family reads and stores. *)
Definition ycbcr_reads (d : descriptor_id) (logImage : LogImageFile) : Z :=
  let n := Z.of_nat (pixels logImage) in
  let pairs := Z.of_nat (Z.to_nat (width logImage * height logImage / 2)) in
  match d with
  | descriptor_CbYCr => n * 3
  | descriptor_CbYCrA => n * 4
  | descriptor_CbYCrY => pairs * 4
  | descriptor_CbYACrYA => pairs * 6
  | descriptor_Luminance => n * 1
  | descriptor_YA => n * 2
  | _ => 0
  end.

Definition ycbcr_family (d : descriptor_id) : bool :=
  match d with
  | descriptor_CbYCr | descriptor_CbYCrA | descriptor_CbYCrY
  | descriptor_CbYACrYA | descriptor_Luminance | descriptor_YA => true
  | _ => false
  end.

(** What a converter of the Y'CbCr family does on element [e]: it reads
    [k] and stores [w] samples and returns 0 when the transfer has a
    matrix, and returns 1 at once otherwise. *)
Definition ycbcr_post (e : LogImageElement) (k w : Z) (m : conv Z) : Prop :=
  conv_ok m (if yuv_transfer (transfer e) then k else 0)
    (if yuv_transfer (transfer e) then w else 0)
    (fun s => s = if yuv_transfer (transfer e) then 0 else 1).

(** The interleave loop after [k] turns of the [while], for planes [pa],
    [pb], [pc] in the slots 0, 1, 2: [3 k] samples are merged, every plane
    cursor is at [k], and pixel [j < k] of the merged data holds sample
    [j] of the three planes in slot order. *)
Definition merged_upto (logImage : LogImageFile) (pa pb pc : list float)
    (k : nat) (st : merge_state) : Prop :=
  sampleIndex st = 3 * Z.of_nat k /\
  elementData_ptr st = replicate 3 (Z.of_nat k) /\
  length (mergedData st) = (3 * pixels logImage)%nat /\
  forall j, (j < k)%nat ->
    mergedData st !! (3 * j)%nat = pa !! j /\
    mergedData st !! (3 * j + 1)%nat = pb !! j /\
    mergedData st !! (3 * j + 2)%nat = pc !! j.

(** ** Concrete images *)

(** A CbYCr element whose reference code values are equal, and a
    one-pixel image of it. *)
Definition c2_element : LogImageElement :=
  {| depth := 3; bitsPerSample := 10; dataOffset := 0; packing := 1;
     transfer := 6; descriptor := descriptor_CbYCr;
     refLowData := 64; refHighData := 64;
     refLowQuantity := F32.zero; refHighQuantity := F32.dec 2048 3;
     maxValue := F32.of_Z 1023 |}.

Definition c2_image : LogImageFile :=
  {| width := 1; height := 1; numElements := 1; imageDepth := 3;
     element := [c2_element];
     referenceBlack := F32.of_Z 95; referenceWhite := F32.of_Z 685;
     gamma := F32.one; file := None; isMSB := 1; srcFormat := format_DPX |}.

(** A one-pixel image to be written, of a given descriptor and sample
    size. *)
Definition c9_element (d : descriptor_id) (bps : Z) : LogImageElement :=
  {| depth := 4; bitsPerSample := bps; dataOffset := 0; packing := 1;
     transfer := transfer_Linear; descriptor := d;
     refLowData := 0; refHighData := 1023;
     refLowQuantity := F32.zero; refHighQuantity := F32.dec 2048 3;
     maxValue := F32.of_Z 1023 |}.

Definition c9_image (d : descriptor_id) (bps : Z) : LogImageFile :=
  {| width := 1; height := 1; numElements := 1; imageDepth := 4;
     element := [c9_element d bps];
     referenceBlack := F32.of_Z 95; referenceWhite := F32.of_Z 685;
     gamma := F32.one; file := Some 1%positive; isMSB := 1;
     srcFormat := format_DPX |}.

Definition c1_element (d : descriptor_id) : LogImageElement :=
  {| depth := 1; bitsPerSample := 8; dataOffset := 0; packing := 0;
     transfer := transfer_Linear; descriptor := d;
     refLowData := 0; refHighData := 255;
     refLowQuantity := F32.zero; refHighQuantity := F32.dec 2048 3;
     maxValue := F32.of_Z 255 |}.

(** A 2 x 1 image whose planes come in the order Blue, Green, Red. *)
Definition c1_image : LogImageFile :=
  {| width := 2; height := 1; numElements := 3; imageDepth := 3;
     element := [c1_element descriptor_Blue; c1_element descriptor_Green;
                 c1_element descriptor_Red];
     referenceBlack := F32.of_Z 95; referenceWhite := F32.of_Z 685;
     gamma := F32.one; file := None; isMSB := 1; srcFormat := format_DPX |}.

(** A handle whose [file] field is null, in a heap where another
    byte-I/O handle is open. *)
Definition c10_image : LogImageFile :=
  {| width := 1; height := 1; numElements := 1; imageDepth := 3;
     element := [c2_element];
     referenceBlack := F32.of_Z 95; referenceWhite := F32.of_Z 685;
     gamma := F32.one; file := None; isMSB := 1; srcFormat := format_DPX |}.

Definition c10_world : world :=
  {| handles := {[ 7%positive := c10_image ]};
     open_files := {[ 3%positive ]};
     calls := [] |}.

(** A 10-bit printing-density element with the reference density 2.048
    of the DPX defaults. *)
Definition c5_element : LogImageElement :=
  {| depth := 3; bitsPerSample := 10; dataOffset := 0; packing := 1;
     transfer := transfer_PrintingDensity; descriptor := descriptor_RGB;
     refLowData := 0; refHighData := 1023;
     refLowQuantity := F32.zero; refHighQuantity := F32.dec 2048 3;
     maxValue := F32.of_Z 1023 |}.

(** referenceBlack = 95, referenceWhite = 685, gamma = 1.0. *)
Definition c5_image : LogImageFile :=
  {| width := 1; height := 1; numElements := 1; imageDepth := 3;
     element := [c5_element];
     referenceBlack := F32.of_Z 95; referenceWhite := F32.of_Z 685;
     gamma := F32.one; file := None; isMSB := 1; srcFormat := format_DPX |}.

(** A one-sample 12-bit element, filled, padded left (packing 2). *)
Definition c3_element : LogImageElement :=
  {| depth := 1; bitsPerSample := 12; dataOffset := 0; packing := 2;
     transfer := transfer_Linear; descriptor := descriptor_Luminance;
     refLowData := 0; refHighData := 4095;
     refLowQuantity := F32.zero; refHighQuantity := F32.dec 2048 3;
     maxValue := F32.of_Z 4095 |}.

Definition c3_image : LogImageFile :=
  {| width := 1; height := 1; numElements := 1; imageDepth := 1;
     element := [c3_element];
     referenceBlack := F32.zero; referenceWhite := F32.zero;
     gamma := F32.one; file := None; isMSB := 0; srcFormat := format_DPX |}.

(** The sample the unpacker stores for the 16-bit word [w] of a
    one-sample image. *)
Definition c3_sample (w : Z) : option float :=
  match logImageElementGetData12 c3_image c3_element
          {| content := [Z.land w 0xff; Z.shiftr w 8]; cursor := 0 |} [None]
  with
  | (0, _, [s]) => s
  | _ => None
  end.

(** One row of a 1-bit element of depth [d]. *)
Definition c7_element (d : Z) : LogImageElement :=
  {| depth := d; bitsPerSample := 1; dataOffset := 0; packing := 0;
     transfer := transfer_Linear; descriptor := descriptor_YA;
     refLowData := 0; refHighData := 1;
     refLowQuantity := F32.zero; refHighQuantity := F32.dec 2048 3;
     maxValue := F32.of_Z 1 |}.

Definition c7_image (w d : Z) : LogImageFile :=
  {| width := w; height := 1; numElements := 1; imageDepth := d;
     element := [c7_element d];
     referenceBlack := F32.zero; referenceWhite := F32.zero;
     gamma := F32.one; file := None; isMSB := 0; srcFormat := format_DPX |}.

(** A 10-bit RGBA image one pixel wide: four samples a row, the last
    alone in the second word. *)
Definition c8_element : LogImageElement :=
  {| depth := 4; bitsPerSample := 10; dataOffset := 0; packing := 1;
     transfer := transfer_Linear; descriptor := descriptor_RGBA;
     refLowData := 0; refHighData := 1023;
     refLowQuantity := F32.zero; refHighQuantity := F32.dec 2048 3;
     maxValue := F32.of_Z 1023 |}.

Definition c8_image (h : Z) : LogImageFile :=
  {| width := 1; height := h; numElements := 1; imageDepth := 4;
     element := [c8_element];
     referenceBlack := F32.of_Z 95; referenceWhite := F32.of_Z 685;
     gamma := F32.one; file := Some 1%positive; isMSB := 1;
     srcFormat := format_DPX |}.

(** An element of descriptor [d] and transfer [t], one row of it. *)
Definition c6_element (d : descriptor_id) (t : Z) : LogImageElement :=
  {| depth := 4; bitsPerSample := 10; dataOffset := 0; packing := 1;
     transfer := t; descriptor := d;
     refLowData := 0; refHighData := 1023;
     refLowQuantity := F32.zero; refHighQuantity := F32.dec 2048 3;
     maxValue := F32.of_Z 1023 |}.

Definition c6_image (w : Z) (d : descriptor_id) (t : Z) : LogImageFile :=
  {| width := w; height := 1; numElements := 1; imageDepth := 4;
     element := [c6_element d t];
     referenceBlack := F32.of_Z 95; referenceWhite := F32.of_Z 685;
     gamma := F32.one; file := None; isMSB := 1; srcFormat := format_DPX |}.

(** An RGB element of a given sample size, filled (packing 1). *)
Definition c4_element (bps : Z) : LogImageElement :=
  {| depth := 3; bitsPerSample := bps; dataOffset := 0; packing := 1;
     transfer := transfer_Linear; descriptor := descriptor_RGB;
     refLowData := 0; refHighData := 1023;
     refLowQuantity := F32.zero; refHighQuantity := F32.dec 2048 3;
     maxValue := F32.of_Z 1023 |}.

(** ** Notions used by the further properties *)

(** The [n]-byte word at byte offset [pos] of a file, in host order. *)
Definition word_at (n : nat) (bytes : list Z) (pos : Z) : Z :=
  le_combine (take n (drop (Z.to_nat pos) bytes)).

(** The samples an unpacker leaves when sample [i] decodes to [g i]. *)
Definition decoded (g : Z -> float) (n : Z) : buffer :=
  (fun i => Some (g i)) <$> seqZ 0 n.

(** The two bytes of a 16-bit cell, low byte first. *)
Definition bytes16 (v : Z) : list Z :=
  [Z.land v 0xff; Z.land (Z.shiftr v 8) 0xff].

(** All bytes of a file are bytes. *)
Definition all_bytes (bytes : list Z) : Prop :=
  Forall (fun b => 0 <= b < 256) bytes.

(** The bytes [logImageSetData16] is meant to produce: one 16-bit cell a
    sample, in file order. *)
Definition code16 (logImage : LogImageFile) (data : list float) (i : Z) : Z :=
  swap_ushort (ushort (float_uint (load i data) 65535)) (isMSB logImage).

Definition encode16 (logImage : LogImageFile) (data : list float) : list Z :=
  i ← seqZ 0 (height logImage * (width logImage * imageDepth logImage));
  bytes16 (code16 logImage data i).

(** A check of the [2 ^ k] integers from [base] on, by halving. *)
Fixpoint forall_range (k : nat) (base : Z) (P : Z -> bool) : bool :=
  match k with
  | O => P base
  | Datatypes.S k' =>
      forall_range k' base P && forall_range k' (base + 2 ^ Z.of_nat k') P
  end.

(** ** Concrete images for the further properties *)

(** A 16-bit element of two samples a pixel that starts behind a header
    of two bytes, and a 1 x 2 image of it. *)
Definition x16_element : LogImageElement :=
  {| depth := 2; bitsPerSample := 16; dataOffset := 2; packing := 0;
     transfer := transfer_Linear; descriptor := descriptor_YA;
     refLowData := 0; refHighData := 65535;
     refLowQuantity := F32.zero; refHighQuantity := F32.dec 2048 3;
     maxValue := F32.of_Z 65535 |}.

Definition x16_image : LogImageFile :=
  {| width := 1; height := 2; numElements := 1; imageDepth := 2;
     element := [x16_element];
     referenceBlack := F32.of_Z 95; referenceWhite := F32.of_Z 685;
     gamma := F32.one; file := Some 1%positive; isMSB := 1;
     srcFormat := format_DPX |}.

Definition x16_bytes : list Z := [83; 68; 128; 0; 255; 255; 0; 1; 18; 52].

Definition x16_samples : list float :=
  [F32.half; F32.one; F32.zero; F32.dec 25 2].

(** A cell of a sample buffer holds nothing or a value within [0, 1]. *)
Definition unit_cell (c : option float) : Prop :=
  match c with
  | Some v => F32.in_unit v = true
  | None => True
  end.

(** A cell of a sample buffer holds nothing, 0.0 or 1.0. *)
Definition bit_cell (c : option float) : Prop :=
  match c with
  | Some v => v = F32.zero \/ v = F32.one
  | None => True
  end.

(** The bytes [logImageSetData8] is meant to produce for row [y]: one
    byte a sample, then zeros up to the row length. *)
Definition code8 (data : list float) (i : Z) : Z :=
  uchar (float_uint (load i data) 255).

Definition row8 (logImage : LogImageFile) (logElement : LogImageElement)
    (data : list float) (y : Z) : list Z :=
  let m := width logImage * imageDepth logImage in
  ((fun x => code8 data (y * m + x)) <$> seqZ 0 m)
  ++ replicate (Z.to_nat (getRowLength (width logImage) logElement - m)) 0.

(** An 8-bit element of three samples a pixel behind a header of two
    bytes, and a 1 x 2 image of it: a row is three bytes and one byte of
    padding. *)
Definition x8_element : LogImageElement :=
  {| depth := 3; bitsPerSample := 8; dataOffset := 2; packing := 0;
     transfer := transfer_Linear; descriptor := descriptor_RGB;
     refLowData := 0; refHighData := 255;
     refLowQuantity := F32.zero; refHighQuantity := F32.dec 2048 3;
     maxValue := F32.of_Z 255 |}.

Definition x8_image : LogImageFile :=
  {| width := 1; height := 2; numElements := 1; imageDepth := 3;
     element := [x8_element];
     referenceBlack := F32.of_Z 95; referenceWhite := F32.of_Z 685;
     gamma := F32.one; file := Some 1%positive; isMSB := 1;
     srcFormat := format_DPX |}.

Definition x8_samples : list float :=
  [F32.half; F32.one; F32.zero; F32.dec 25 2; F32.dec 75 2; F32.dec 1 1].

(** A 16-bit RGBA element behind a header of two bytes and a 1 x 2
    image of it. *)
Definition x16rgba_element : LogImageElement :=
  {| depth := 4; bitsPerSample := 16; dataOffset := 2; packing := 0;
     transfer := transfer_Linear; descriptor := descriptor_RGBA;
     refLowData := 0; refHighData := 65535;
     refLowQuantity := F32.zero; refHighQuantity := F32.dec 2048 3;
     maxValue := F32.of_Z 65535 |}.

Definition x16rgba_image : LogImageFile :=
  {| width := 1; height := 2; numElements := 1; imageDepth := 4;
     element := [x16rgba_element];
     referenceBlack := F32.of_Z 95; referenceWhite := F32.of_Z 685;
     gamma := F32.one; file := Some 1%positive; isMSB := 1;
     srcFormat := format_DPX |}.

Definition x16rgba_samples : list float :=
  [F32.half; F32.one; F32.zero; F32.dec 25 2;
   F32.dec 75 2; F32.dec 1 1; F32.dec 3 1; F32.one].

(** The number of slots of [sortedElementData] that hold an element
    index, and the number of elements of a list that are loaded (neither
    Depth nor Composite). *)
Fixpoint assigned (sorted : list Z) : nat :=
  match sorted with
  | [] => 0
  | k :: l => ((if (0 <=? k)%Z then 1 else 0) + assigned l)%nat
  end.

Fixpoint loadable (es : list LogImageElement) : nat :=
  match es with
  | [] => 0
  | e :: l =>
      ((if is_skipped (descriptor e) then 0 else 1) + loadable l)%nat
  end.

(** An RGB element followed by a Depth element. *)
Definition xdepth_image : LogImageFile :=
  {| width := 1; height := 1; numElements := 2; imageDepth := 3;
     element := [c4_element 8; c1_element descriptor_Depth];
     referenceBlack := F32.of_Z 95; referenceWhite := F32.of_Z 685;
     gamma := F32.one; file := None; isMSB := 1; srcFormat := format_DPX |}.

(** A heap with one handle whose byte-I/O handle 3 is open. *)
Definition xclose_world : world :=
  {| handles := {[ 7%positive := x16_image ]};
     open_files := {[ 1%positive; 3%positive ]};
     calls := [] |}.

(** Pixel [k] of the three straight copies between RGB and RGBA. *)
Definition rgb_to_rgba (src : list float) (k : Z) : list float :=
  [load (3 * k) src; load (3 * k + 1) src; load (3 * k + 2) src; F32.one].

Definition rgba_to_rgb (src : list float) (k : Z) : list float :=
  [load (4 * k) src; load (4 * k + 1) src; load (4 * k + 2) src].

Definition rgba_opaque (src : list float) (k : Z) : list float :=
  [load (4 * k) src; load (4 * k + 1) src; load (4 * k + 2) src; F32.one].

(** The value read back for a sample written with 8 bits, and pixel [k]
    of an RGBA buffer after a round trip through an 8-bit RGB file. *)
Definition quantise8 (v : float) : float :=
  F32.div (F32.of_Z (uchar (float_uint v 255))) (F32.of_Z 255).

Definition rgb8_pixel (data : list float) (k : Z) : list float :=
  [quantise8 (load (4 * k) data); quantise8 (load (4 * k + 1) data);
   quantise8 (load (4 * k + 2) data); F32.one].

Definition x8_rgba : list float :=
  [F32.half; F32.one; F32.zero; F32.dec 25 2;
   F32.dec 75 2; F32.dec 1 1; F32.dec 3 1; F32.one].

(** The 16-bit cell [logImageSetData12] writes for sample [i], and the
    bytes of the image. *)
Definition code12 (logImage : LogImageFile) (data : list float) (i : Z) : Z :=
  swap_ushort
    (ushort (Z.shiftl (ushort (float_uint (load i data) 4095)) 4))
    (isMSB logImage).

Definition encode12 (logImage : LogImageFile) (data : list float) : list Z :=
  i ← seqZ 0 (height logImage * (width logImage * imageDepth logImage));
  bytes16 (code12 logImage data i).

(** A 12-bit element, samples padded to the right in 16-bit cells. *)
Definition x12_element : LogImageElement :=
  {| depth := 2; bitsPerSample := 12; dataOffset := 2; packing := 1;
     transfer := transfer_Linear; descriptor := descriptor_YA;
     refLowData := 0; refHighData := 4095;
     refLowQuantity := F32.zero; refHighQuantity := F32.dec 2048 3;
     maxValue := F32.of_Z 4095 |}.

Definition x12_image : LogImageFile :=
  {| width := 1; height := 2; numElements := 1; imageDepth := 2;
     element := [x12_element];
     referenceBlack := F32.of_Z 95; referenceWhite := F32.of_Z 685;
     gamma := F32.one; file := Some 1%positive; isMSB := 1;
     srcFormat := format_DPX |}.

(** The 32-bit word [j] of the data of an element, and the shift of the
    first sample of a word of 10-bit samples for the two filled
    packings. *)
Definition word32 (logImage : LogImageFile) (bytes : list Z) (off j : Z) : Z :=
  swap_uint (word_at 4 bytes (off + 4 * j)) (isMSB logImage).

Definition shift10 (logElement : LogImageElement) : Z :=
  if packing logElement =? 1 then 22 else 20.

(** A 10-bit element of four samples a pixel and a 1 x 2 image of it:
    a row is two words, the second holding one sample. *)
Definition x10_element : LogImageElement :=
  {| depth := 4; bitsPerSample := 10; dataOffset := 2; packing := 1;
     transfer := transfer_Linear; descriptor := descriptor_RGBA;
     refLowData := 0; refHighData := 1023;
     refLowQuantity := F32.zero; refHighQuantity := F32.dec 2048 3;
     maxValue := F32.of_Z 1023 |}.

Definition x10_image : LogImageFile :=
  {| width := 1; height := 2; numElements := 1; imageDepth := 4;
     element := [x10_element];
     referenceBlack := F32.of_Z 95; referenceWhite := F32.of_Z 685;
     gamma := F32.one; file := Some 1%positive; isMSB := 1;
     srcFormat := format_DPX |}.

(** The four bytes of a 32-bit cell, low byte first. *)
Definition bytes32 (v : Z) : list Z :=
  [Z.land v 0xff; Z.land (Z.shiftr v 8) 0xff;
   Z.land (Z.shiftr v 16) 0xff; Z.land (Z.shiftr v 24) 0xff].

(** The 32-bit word [logImageSetData10] builds from the samples [3 j],
    [3 j + 1] and [3 j + 2], and the bytes of an image whose rows are a
    whole number of such words. *)
Definition field10 (data : list float) (i k : Z) : Z :=
  uint (Z.shiftl (uint (float_uint (load i data) 1023)) k).

Definition word10 (logImage : LogImageFile) (data : list float) (j : Z) : Z :=
  swap_uint
    (Z.lor
       (Z.lor (Z.lor 0 (field10 data (3 * j) 22))
              (field10 data (3 * j + 1) 12))
       (field10 data (3 * j + 2) 2))
    (isMSB logImage).

Definition encode10 (logImage : LogImageFile) (data : list float) : list Z :=
  j ← seqZ 0 (height logImage
              * (width logImage * imageDepth logImage / 3));
  bytes32 (word10 logImage data j).

(** A 10-bit RGB element and a 2 x 2 image of it: a row is six samples,
    two words. *)
Definition x10rgb_element : LogImageElement :=
  {| depth := 3; bitsPerSample := 10; dataOffset := 2; packing := 1;
     transfer := transfer_Linear; descriptor := descriptor_RGB;
     refLowData := 0; refHighData := 1023;
     refLowQuantity := F32.zero; refHighQuantity := F32.dec 2048 3;
     maxValue := F32.of_Z 1023 |}.

Definition x10rgb_image : LogImageFile :=
  {| width := 2; height := 2; numElements := 1; imageDepth := 3;
     element := [x10rgb_element];
     referenceBlack := F32.of_Z 95; referenceWhite := F32.of_Z 685;
     gamma := F32.one; file := Some 1%positive; isMSB := 1;
     srcFormat := format_DPX |}.

Definition x10rgb_samples : list float :=
  [F32.half; F32.one; F32.zero; F32.dec 25 2; F32.dec 75 2; F32.dec 1 1;
   F32.dec 3 1; F32.one; F32.zero; F32.zero; F32.zero; F32.dec 9 1].
(** ** Row length *)

Lemma size_t_small (z : Z) : 0 <= z < size_t_max -> size_t z = z.
Proof. intros H. unfold size_t. apply Z.mod_small. exact H. Qed.

Lemma ceil_div_pred (a b : Z) : 0 < b -> (a - 1) / b + 1 = ceil_div a b.
Proof.
  intros Hb. unfold ceil_div.
  replace (a + b - 1) with (a - 1 + 1 * b) by lia.
  rewrite Z.div_add by lia. reflexivity.
Qed.

(** The expression [((a - 1) / b + 1) * 4] in [size_t] arithmetic, when
    neither [a] nor the padded length wraps. *)
Lemma padded_row (a b : Z) :
  1 <= a < size_t_max -> 0 < b ->
  (forall q, 0 <= q -> b * q <= a - 1 -> (q + 1) * 4 < size_t_max) ->
  size_t (size_t (size_t (a - 1) / b + 1) * 4) = ceil_div a b * 4.
Proof.
  intros Ha Hb Hfit.
  assert (Hq : 0 <= (a - 1) / b) by (apply Z.div_pos; lia).
  assert (Hm : b * ((a - 1) / b) <= a - 1) by (apply Z.mul_div_le; lia).
  specialize (Hfit _ Hq Hm).
  rewrite (size_t_small (a - 1)) by lia.
  rewrite (size_t_small ((a - 1) / b + 1)) by lia.
  rewrite (size_t_small (((a - 1) / b + 1) * 4)) by lia.
  rewrite ceil_div_pred by lia. reflexivity.
Qed.

(** C4: for every width [w >= 1], element depth [d >= 1] and supported
    (bitsPerSample, packing), [getRowLength] returns the row byte count of
    the table of the specification: [ceil(w d / 32) 4] for 1 bit,
    [ceil(w d / 4) 4] for 8 bits, [ceil(w d 10 / 32) 4] for 10 bits packed,
    [ceil(w d / 3) 4] for 10 bits filled, [ceil(w d 12 / 32) 4] for 12 bits
    packed, [w d 2] for 12 bits filled and for 16 bits.  The widths are
    those whose row fits [size_t]: [w d 12 < 2^64]. *)
Theorem getRowLength_row_table (w : Z) (e : LogImageElement) :
  1 <= w -> 1 <= depth e -> w * depth e * 12 < size_t_max ->
  supported (bitsPerSample e) (packing e) ->
  rowBytes_spec w (depth e) (bitsPerSample e) (packing e)
  = Some (getRowLength w e).
Proof.
  intros Hw Hd Hfit Hs.
  assert (Hwd : 1 <= w * depth e) by nia.
  unfold getRowLength, rowBytes_spec.
  rewrite (size_t_small (w * depth e)) by lia.
  destruct Hs as [-> | [-> | [-> | [[-> | ->] [-> | [-> | ->]]]]]];
    cbn [Z.eqb orb Pos.eqb]; f_equal; symmetry;
    rewrite ?(size_t_small (w * depth e * 10)), ?(size_t_small (w * depth e * 12))
      by lia;
    first [ apply padded_row; [lia | lia | intros q Hq Hb; lia]
          | apply size_t_small; lia ].
Qed.

Lemma getRowLength_row_table_witness :
  rowBytes_spec 5 3 10 1 = Some (getRowLength 5 (c4_element 10)).
Proof.
  apply (getRowLength_row_table 5 (c4_element 10)).
  - simpl. lia.
  - simpl. lia.
  - reflexivity.
  - right; right; right. split; [left | right; left]; reflexivity.
Defined.

(** Past that range the arithmetic of [size_t] wraps: a 16-bit row of
    width [2^62] and depth 3 has [2^64 + 2^63] bytes, and the length
    returned is that reduced modulo [2^64]. *)
Lemma getRowLength_wraps :
  getRowLength (2 ^ 62) (c4_element 16) = 2 ^ 63 /\
  2 ^ 62 * 3 * 2 = 2 ^ 64 + 2 ^ 63.
Proof. vm_compute. split; reflexivity. Qed.

(** ** Conversions that run to completion *)



Lemma conv_ok_ret {A : Type} (a : A) (P : A -> Prop) :
  P a -> conv_ok (conv_ret a) 0 0 P.
Proof.
  intros HP src c _ _ _ _.
  exists a, c. unfold conv_ret. repeat split; auto; lia.
Qed.

Lemma conv_ok_bind {A B : Type} (m : conv A) (k : A -> conv B)
    (r1 w1 r2 w2 : Z) (P : A -> Prop) (Q : B -> Prop) :
  0 <= r1 -> 0 <= w1 -> 0 <= r2 -> 0 <= w2 ->
  conv_ok m r1 w1 P -> (forall a, P a -> conv_ok (k a) r2 w2 Q) ->
  conv_ok (conv_bind m k) (r1 + r2) (w1 + w2) Q.
Proof.
  intros Hr1 Hw1 Hr2 Hw2 Hm Hk src c Hs Hsl Hd Hdl.
  destruct (Hm src c) as (a & c1 & E1 & Pa & Es & Ed & El); try lia.
  destruct (Hk a Pa src c1) as (b & c2 & E2 & Qb & Es2 & Ed2 & El2); try lia.
  exists b, c2. unfold conv_bind. rewrite E1, E2.
  repeat split; auto; lia.
Qed.

Lemma conv_ok_weaken {A : Type} (m : conv A) (r w r' w' : Z) (P : A -> Prop) :
  conv_ok m r w P -> r = r' -> w = w' -> conv_ok m r' w' P.
Proof. intros H -> ->. exact H. Qed.

Lemma conv_ok_read_inc : conv_ok read_inc 1 0 (fun _ => True).
Proof.
  intros src c Hs Hsl Hd Hdl.
  unfold read_inc, conv_bind, deref, advance, conv_ret.
  destruct (0 <=? src_ptr c) eqn:E; [| lia].
  destruct (lookup_lt_is_Some_2 src (Z.to_nat (src_ptr c))) as [v Hv]; [lia |].
  rewrite Hv. eexists _, _. split; [reflexivity |]. simpl. repeat split; lia.
Qed.

Lemma conv_ok_advance (n : Z) : conv_ok (advance n) n 0 (fun _ => True).
Proof.
  intros src c Hs Hsl Hd Hdl. unfold advance.
  eexists _, _. split; [reflexivity |]. simpl. repeat split; lia.
Qed.

Lemma conv_ok_skip_dst : conv_ok skip_dst 0 1 (fun _ => True).
Proof.
  intros src c Hs Hsl Hd Hdl. unfold skip_dst.
  eexists _, _. split; [reflexivity |]. simpl. repeat split; lia.
Qed.

Lemma conv_ok_emit (v : float) : conv_ok (emit v) 0 1 (fun _ => True).
Proof.
  intros src c Hs Hsl Hd Hdl. unfold emit.
  destruct ((0 <=? dst_ptr c) && (dst_ptr c <? Z.of_nat (length (dst c)))) eqn:E.
  - eexists _, _. split; [reflexivity |]. simpl.
    rewrite length_insert. repeat split; lia.
  - apply andb_false_iff in E as [E | E]; lia.
Qed.

Lemma conv_ok_repeat (n : nat) (body : conv unit) (r w : Z) :
  0 <= r -> 0 <= w ->
  conv_ok body r w (fun _ => True) ->
  conv_ok (repeat_conv n body) (Z.of_nat n * r) (Z.of_nat n * w) (fun _ => True).
Proof.
  intros Hr Hw Hb. induction n as [| n IH].
  - simpl repeat_conv. eapply conv_ok_weaken; [apply conv_ok_ret; exact I | lia | lia].
  - simpl repeat_conv.
    eapply conv_ok_weaken.
    + eapply (conv_ok_bind body _ r w); [lia | lia | | | exact Hb | intros _ _; exact IH]; nia.
    + lia.
    + lia.
Qed.

(** Sequencing the steps of a pixel loop body. *)
Ltac conv_step :=
  first
    [ apply conv_ok_read_inc
    | apply conv_ok_emit
    | apply conv_ok_skip_dst
    | apply conv_ok_advance
    | eapply conv_ok_bind; [ | | | | conv_step | intros ? _; conv_step ] ].

Lemma run_conv_ok (m : conv Z) (r w : Z) (P : Z -> Prop) (src dst0 : list float) :
  conv_ok m r w P ->
  r <= Z.of_nat (length src) -> w <= Z.of_nat (length dst0) ->
  exists a out,
    run_conv m src dst0 = Some (a, out) /\ P a /\ length out = length dst0.
Proof.
  intros Hm Hr Hw. unfold run_conv.
  destruct (Hm src {| src_ptr := 0; dst_ptr := 0; dst := dst0 |})
    as (a & c' & E & Pa & _ & _ & El); simpl; try lia.
  rewrite E. exists a, (dst c'). auto.
Qed.

(** A pixel loop followed by [return 0]. *)
Lemma conv_ok_loop (n : nat) (body : conv unit) (r w : Z) :
  0 <= r -> 0 <= w ->
  conv_ok body r w (fun _ => True) ->
  conv_ok (repeat_conv n body;; conv_ret 0) (Z.of_nat n * r) (Z.of_nat n * w)
    (fun s => s = 0).
Proof.
  intros Hr Hw Hb.
  eapply conv_ok_weaken.
  - apply (conv_ok_bind _ _ (Z.of_nat n * r) (Z.of_nat n * w) 0 0
             (fun _ => True));
      [nia | nia | lia | lia | apply conv_ok_repeat; assumption
      | intros _ _; apply conv_ok_ret; reflexivity ].
  - lia.
  - lia.
Qed.

(** The loop of a converter whose body reads [r] and stores [w] samples. *)
Ltac conv_loop r w :=
  apply (conv_ok_loop _ _ r w); [lia | lia |];
  eapply conv_ok_weaken; [conv_step; lia | reflexivity | reflexivity].

Lemma getYUVtoRGBMatrix_status (e : LogImageElement) :
  fst (getYUVtoRGBMatrix e) = if yuv_transfer (transfer e) then 0 else 1.
Proof.
  unfold getYUVtoRGBMatrix, yuv_transfer.
  destruct (transfer e) as [| p | p]; try reflexivity.
  do 4 (try (destruct p as [p | p |]; try reflexivity)).
Qed.


Section ConverterRuns.

Variable powf : float -> float -> float.
Variable log10f : float -> float.
Variable logImage : LogImageFile.
Variable e : LogImageElement.

Local Abbreviation n := (Z.of_nat (pixels logImage)).
Local Abbreviation pairs :=
  (Z.of_nat (Z.to_nat (width logImage * height logImage / 2))).

Ltac ycbcr r w :=
  match goal with
  | |- conv_ok (?f logImage e) _ _ _ => unfold f
  end;
  pose proof (getYUVtoRGBMatrix_status e) as Hst;
  destruct (getYUVtoRGBMatrix e) as [status conversionMatrix];
  simpl in Hst; subst status;
  destruct (yuv_transfer (transfer e)); simpl negb; cbv iota;
  [ unfold emit_rgb; conv_loop r w | apply conv_ok_ret; reflexivity ].


Lemma convertCbYCr_RGBA_ok :
  ycbcr_post e (n * 3) (n * 4) (convertCbYCr_RGBA logImage e).
Proof. unfold ycbcr_post. ycbcr 3 4. Qed.

Lemma convertCbYCrA_RGBA_ok :
  ycbcr_post e (n * 4) (n * 4) (convertCbYCrA_RGBA logImage e).
Proof. unfold ycbcr_post. ycbcr 4 4. Qed.

Lemma convertCbYCrY_RGBA_ok :
  ycbcr_post e (pairs * 4) (pairs * 8) (convertCbYCrY_RGBA logImage e).
Proof. unfold ycbcr_post. ycbcr 4 8. Qed.

Lemma convertCbYACrYA_RGBA_ok :
  ycbcr_post e (pairs * 6) (pairs * 8) (convertCbYACrYA_RGBA logImage e).
Proof. unfold ycbcr_post. ycbcr 6 8. Qed.

Lemma convertLuminance_RGBA_ok :
  ycbcr_post e (n * 1) (n * 4) (convertLuminance_RGBA logImage e).
Proof. unfold ycbcr_post. ycbcr 1 4. Qed.

Lemma convertYA_RGBA_ok :
  ycbcr_post e (n * 2) (n * 4) (convertYA_RGBA logImage e).
Proof. unfold ycbcr_post. ycbcr 2 4. Qed.

Lemma lut_rgb_pass_ok (lut : list float) :
  conv_ok (lut_rgb_pass lut logImage e) (n * 4) (n * 4) (fun s => s = 0).
Proof. unfold lut_rgb_pass. conv_loop 4 4. Qed.

Lemma pairs_le_pixels : pairs * 2 <= n.
Proof.
  unfold pixels.
  generalize (width logImage * height logImage). intros x.
  pose proof (Z.div_mod x 2). pose proof (Z.mod_pos_bound x 2). lia.
Qed.

End ConverterRuns.

(** ** Y'CbCr conversion and equal reference code values *)


(** Every converter of the family runs to completion on buffers of the
    sizes of the image, with the status of [getYUVtoRGBMatrix]. *)
Lemma ycbcr_converter_runs (powf : float -> float -> float)
    (log10f : float -> float) (logImage : LogImageFile)
    (e : LogImageElement) (m : conv Z) (src dst0 : list float) :
  ycbcr_family (descriptor e) = true ->
  m = match descriptor e with
      | descriptor_Luminance => convertLuminance_RGBA logImage e
      | descriptor_CbYCr => convertCbYCr_RGBA logImage e
      | descriptor_CbYCrY => convertCbYCrY_RGBA logImage e
      | descriptor_CbYACrYA => convertCbYACrYA_RGBA logImage e
      | descriptor_CbYCrA => convertCbYCrA_RGBA logImage e
      | _ => convertYA_RGBA logImage e
      end ->
  ycbcr_reads (descriptor e) logImage <= Z.of_nat (length src) ->
  4 * Z.of_nat (pixels logImage) <= Z.of_nat (length dst0) ->
  exists out,
    run_conv m src dst0
    = Some (if yuv_transfer (transfer e) then 0 else 1, out)
    /\ length out = length dst0.
Proof.
  intros Hfam -> Hsrc Hdst.
  pose proof (pairs_le_pixels logImage) as Hpairs.
  assert (Hrun : forall k w,
             ycbcr_post e k w
               (match descriptor e with
                | descriptor_Luminance => convertLuminance_RGBA logImage e
                | descriptor_CbYCr => convertCbYCr_RGBA logImage e
                | descriptor_CbYCrY => convertCbYCrY_RGBA logImage e
                | descriptor_CbYACrYA => convertCbYACrYA_RGBA logImage e
                | descriptor_CbYCrA => convertCbYCrA_RGBA logImage e
                | _ => convertYA_RGBA logImage e
                end) ->
             0 <= k <= Z.of_nat (length src) ->
             0 <= w <= Z.of_nat (length dst0) ->
             exists out,
               run_conv
                 (match descriptor e with
                  | descriptor_Luminance => convertLuminance_RGBA logImage e
                  | descriptor_CbYCr => convertCbYCr_RGBA logImage e
                  | descriptor_CbYCrY => convertCbYCrY_RGBA logImage e
                  | descriptor_CbYACrYA => convertCbYACrYA_RGBA logImage e
                  | descriptor_CbYCrA => convertCbYCrA_RGBA logImage e
                  | _ => convertYA_RGBA logImage e
                  end) src dst0
               = Some (if yuv_transfer (transfer e) then 0 else 1, out)
               /\ length out = length dst0).
  { intros k w Hok Hk Hw.
    destruct (run_conv_ok _ _ _ _ src dst0 Hok) as (a & out & E & -> & El).
    - destruct (yuv_transfer (transfer e)); lia.
    - destruct (yuv_transfer (transfer e)); lia.
    - exists out. split; assumption. }
  unfold ycbcr_reads in Hsrc.
  destruct (descriptor e); try discriminate Hfam.
  - eapply Hrun; [apply convertLuminance_RGBA_ok | lia | lia].
  - eapply Hrun; [apply convertCbYCrY_RGBA_ok | lia | lia].
  - eapply Hrun; [apply convertCbYACrYA_RGBA_ok | lia | lia].
  - eapply Hrun; [apply convertCbYCr_RGBA_ok | lia | lia].
  - eapply Hrun; [apply convertCbYCrA_RGBA_ok | lia | lia].
  - eapply Hrun; [apply convertYA_RGBA_ok | lia | lia].
Qed.

(** C2 (as amended): for every element of the Y'CbCr family (CbYCr,
    CbYCrY, CbYACrYA, CbYCrA, Luminance, YA) the status of the
    Y'CbCr-to-RGB conversion is decided by the transfer alone: on buffers
    of the sizes of the image it returns 0 when the transfer is 2, 5, 6, 7
    or 8 and 1 otherwise, whatever [refLowData] and [refHighData] are;
    equal reference code values do not make it fail. *)
Theorem convertLogElementToRGBA_ycbcr_status (powf : float -> float -> float)
    (log10f : float -> float) (logImage : LogImageFile)
    (e : LogImageElement) (src dst0 : list float) (dstIsLinearRGB : Z) :
  ycbcr_family (descriptor e) = true ->
  ycbcr_reads (descriptor e) logImage <= Z.of_nat (length src) ->
  4 * Z.of_nat (pixels logImage) <= Z.of_nat (length dst0) ->
  exists out,
    convertLogElementToRGBA powf log10f src dst0 logImage e dstIsLinearRGB
    = Some (if yuv_transfer (transfer e) then 0 else 1, out)
    /\ length out = length dst0.
Proof.
  intros Hfam Hsrc Hdst.
  destruct (ycbcr_converter_runs powf log10f logImage e _ src dst0 Hfam eq_refl
              Hsrc Hdst) as (out & Hrun & Hlen).
  unfold convertLogElementToRGBA.
  destruct (descriptor e); try discriminate Hfam; cbv iota beta;
    rewrite Hrun;
    (destruct (yuv_transfer (transfer e));
     [ simpl (0 =? 1); cbv iota;
       destruct (negb (dstIsLinearRGB =? 0));
       [ destruct (run_conv_ok _ _ _ _ out out
                     (lut_rgb_pass_ok logImage e (getSrgbToLinLut powf e)))
           as (a & out' & E & -> & El); [lia | lia |];
         rewrite E; exists out'; split; [reflexivity | congruence]
       | exists out; split; [reflexivity | assumption] ]
     | simpl (1 =? 1); cbv iota; exists out; split; [reflexivity | assumption] ]).
Qed.

Lemma convertLogElementToRGBA_ycbcr_status_witness :
  exists out,
    convertLogElementToRGBA Libm.powf Libm.log10f
      [F32.half; F32.dec 25 2; F32.half] (replicate 4 F32.zero)
      c2_image c2_element 0
    = Some (0, out) /\ length out = 4%nat.
Proof.
  apply (convertLogElementToRGBA_ycbcr_status Libm.powf Libm.log10f
           c2_image c2_element [F32.half; F32.dec 25 2; F32.half]
           (replicate 4 F32.zero) 0).
  - reflexivity.
  - vm_compute. discriminate.
  - vm_compute. discriminate.
Defined.

(** C2 (counterexample): a CbYCr element whose [refLowData] equals its
    [refHighData] (both 64), transfer CCIR 709: the conversion of a
    one-pixel image returns 0 and stores four samples, R, G and B being
    NaN. *)
Lemma convertCbYCr_equal_refs_returns_0 :
  ycbcr_family (descriptor c2_element) = true /\
  refLowData c2_element = refHighData c2_element /\
  convertLogElementToRGBA Libm.powf Libm.log10f
    [F32.half; F32.dec 25 2; F32.half] (replicate 4 F32.zero)
    c2_image c2_element 0
  = Some (0, [S754_nan; S754_nan; S754_nan; F32.one]) /\
  fst (getYUVtoRGBMatrix c2_element) = 0.
Proof. vm_compute. repeat split. Qed.

(** ** The write path refuses what it cannot encode *)

Section WritePath.

Variable powf : float -> float -> float.
Variable log10f : float -> float.
Variable logImage : LogImageFile.
Variable e : LogImageElement.

Local Abbreviation n := (Z.of_nat (pixels logImage)).

Lemma run_conv_defined (m : conv Z) (r w : Z) (P : Z -> Prop)
    (src dst0 : list float) :
  conv_ok m r w P ->
  r <= Z.of_nat (length src) -> w <= Z.of_nat (length dst0) ->
  exists a out, run_conv m src dst0 = Some (a, out).
Proof.
  intros Hm Hr Hw.
  destruct (run_conv_ok m r w P src dst0 Hm Hr Hw) as (a & out & E & _).
  eauto.
Qed.

Lemma convertRGBA_RGB_runs (elementIsSource : Z) (src dst0 : list float) :
  n * 4 <= Z.of_nat (length src) -> n * 3 <= Z.of_nat (length dst0) ->
  exists r out,
    run_conv (convertRGBA_RGB powf log10f logImage e elementIsSource) src dst0
    = Some (r, out).
Proof.
  intros Hsrc Hdst. unfold convertRGBA_RGB.
  destruct (is_plain_transfer (transfer e));
    [| destruct (transfer e =? transfer_PrintingDensity)].
  - eapply (run_conv_defined _ (n * 4) (n * 3)); [conv_loop 4 3 | lia | lia].
  - eapply (run_conv_defined _ (n * 4) (n * 3)); [conv_loop 4 3 | lia | lia].
  - eexists _, _. reflexivity.
Qed.

Lemma convertRGBA_RGBA_runs (elementIsSource : Z) (src dst0 : list float) :
  n * 4 <= Z.of_nat (length src) -> n * 4 <= Z.of_nat (length dst0) ->
  exists r out,
    run_conv (convertRGBA_RGBA powf log10f logImage e elementIsSource) src dst0
    = Some (r, out).
Proof.
  intros Hsrc Hdst. unfold convertRGBA_RGBA.
  destruct ((transfer e =? transfer_UserDefined)
            || (transfer e =? transfer_Linear)
            || (transfer e =? transfer_Logarithmic));
    [| destruct (transfer e =? transfer_PrintingDensity)].
  - unfold run_conv, conv_bind, memcpy_conv, conv_ret. simpl dst.
    destruct (_ <=? length src)%nat eqn:E1; [| apply Nat.leb_gt in E1; lia].
    destruct (_ <=? length dst0)%nat eqn:E2; [| apply Nat.leb_gt in E2; lia].
    simpl. eexists _, _. reflexivity.
  - eapply (run_conv_defined _ (n * 4) (n * 4)); [conv_loop 4 4 | lia | lia].
  - eexists _, _. reflexivity.
Qed.

(** The working copy in sRGB: the [memcpy] and the table pass. *)
Lemma srgb_copy_runs (lut : list float) (src : list float) :
  n * 4 <= Z.of_nat (length src) ->
  exists r copy,
    run_conv (memcpy_conv (4 * pixels logImage);;
              lut_rgb_pass lut logImage e)
      src (replicate (4 * pixels logImage) F32.zero)
    = Some (r, copy) /\ length copy = (4 * pixels logImage)%nat.
Proof.
  intros Hsrc. unfold run_conv, conv_bind at 1, memcpy_conv. simpl dst.
  rewrite length_replicate.
  destruct (_ <=? length src)%nat eqn:E1; [| apply Nat.leb_gt in E1; lia].
  rewrite Nat.leb_refl. simpl andb. cbv iota.
  rewrite drop_ge by (rewrite length_replicate; lia).
  rewrite app_nil_r.
  destruct (lut_rgb_pass_ok logImage e lut src
              {| src_ptr := 0; dst_ptr := 0;
                 dst := take (4 * pixels logImage) src |})
    as (a & c' & E & _ & _ & _ & El); cbn [src_ptr dst_ptr dst] in *;
    rewrite ?length_take; try lia.
  rewrite E. exists a, (dst c'). split; [reflexivity |].
  rewrite El, length_take. lia.
Qed.

(** On buffers of the sizes of the image the conversion of the write
    path is defined for every descriptor and transfer. *)
Lemma convertRGBAToLogElement_runs (srgb_ok : bool) (src dst0 : list float)
    (srcIsLinearRGB : Z) :
  n * 4 <= Z.of_nat (length src) ->
  (descriptor e = descriptor_RGB -> n * 3 <= Z.of_nat (length dst0)) ->
  (descriptor e = descriptor_RGBA -> n * 4 <= Z.of_nat (length dst0)) ->
  exists r out,
    convertRGBAToLogElement powf log10f srgb_ok src dst0 logImage e
      srcIsLinearRGB = Some (r, out)
    /\ (descriptor e <> descriptor_RGB ->
        descriptor e <> descriptor_RGBA -> r = 1).
Proof.
  intros Hsrc Hrgb Hrgba. unfold convertRGBAToLogElement.
  assert (Hsw : forall srgbSrc,
             n * 4 <= Z.of_nat (length srgbSrc) ->
             exists r out,
               match descriptor e with
               | descriptor_RGB =>
                   run_conv (convertRGBA_RGB powf log10f logImage e 0)
                     srgbSrc dst0
               | descriptor_RGBA =>
                   run_conv (convertRGBA_RGBA powf log10f logImage e 0)
                     srgbSrc dst0
               | _ => Some (1, dst0)
               end = Some (r, out)
               /\ (descriptor e <> descriptor_RGB ->
                   descriptor e <> descriptor_RGBA -> r = 1)).
  { intros srgbSrc Hlen.
    destruct (descriptor e) eqn:Ed;
      try (exists 1, dst0; split; [reflexivity | reflexivity]).
    - destruct (convertRGBA_RGB_runs 0 srgbSrc dst0) as (r & out & E);
        [lia | auto |].
      exists r, out. split; [exact E | congruence].
    - destruct (convertRGBA_RGBA_runs 0 srgbSrc dst0) as (r & out & E);
        [lia | auto |].
      exists r, out. split; [exact E | congruence]. }
  destruct (negb (srcIsLinearRGB =? 0)).
  - destruct srgb_ok; simpl negb; cbv iota.
    + destruct (srgb_copy_runs (getLinToSrgbLut powf e) src Hsrc)
        as (r & copy & E & El).
      rewrite E. apply Hsw. rewrite El. lia.
    + exists 1, dst0. split; reflexivity.
  - apply Hsw. exact Hsrc.
Qed.

End WritePath.


(** C9: [logImageSetDataRGBA] returns non-zero, and writes nothing,
    whenever [element[0].descriptor] is neither RGB nor RGBA, and also
    whenever [element[0].bitsPerSample] is not one of 8, 10, 12, 16: for
    every input of the sizes of the image, whatever the allocations do.
    So a conversion followed by a write happens only for RGB or RGBA. *)
Theorem logImageSetDataRGBA_unsupported (powf : float -> float -> float)
    (log10f : float -> float) (pixels_ok srgb_ok row_ok : bool)
    (logImage : LogImageFile) (element0 : LogImageElement)
    (data : list float) (dataIsLinearRGB : Z) (f : outfile) :
  element logImage !! 0%nat = Some element0 ->
  4 * Z.of_nat (pixels logImage) <= Z.of_nat (length data) ->
  (descriptor element0 = descriptor_RGB -> 3 <= imageDepth logImage) ->
  (descriptor element0 = descriptor_RGBA -> 4 <= imageDepth logImage) ->
  (descriptor element0 <> descriptor_RGB /\
   descriptor element0 <> descriptor_RGBA) \/
  (bitsPerSample element0 <> 8 /\ bitsPerSample element0 <> 10 /\
   bitsPerSample element0 <> 12 /\ bitsPerSample element0 <> 16) ->
  logImageSetDataRGBA powf log10f pixels_ok srgb_ok row_ok logImage data
    dataIsLinearRGB f = Some (1, f).
Proof.
  intros He Hdata Hrgb Hrgba Hcase.
  unfold logImageSetDataRGBA.
  destruct pixels_ok; [| reflexivity]. simpl negb. cbv iota.
  rewrite He.
  assert (Hsize : forall k, k <= imageDepth logImage -> 0 <= k ->
            Z.of_nat (pixels logImage) * k
            <= Z.of_nat (length (replicate
                  (Z.to_nat (width logImage * height logImage
                             * imageDepth logImage)) F32.zero))).
  { intros k Hk H0. rewrite length_replicate. unfold pixels.
    destruct (Z.le_gt_cases 0 (width logImage * height logImage)) as [Hp | Hp].
    - rewrite !Z2Nat.id by nia. nia.
    - rewrite (Z2Nat.nonpos (width logImage * height logImage)) by lia. lia. }
  destruct (convertRGBAToLogElement_runs powf log10f logImage element0 srgb_ok
              data _ dataIsLinearRGB ltac:(lia)
              (fun H => Hsize 3 (Hrgb H) ltac:(lia))
              (fun H => Hsize 4 (Hrgba H) ltac:(lia)))
    as (r & out & E & Hr).
  rewrite E.
  destruct Hcase as [[H1 H2] | (H8 & H10 & H12 & H16)].
  - rewrite (Hr H1 H2). reflexivity.
  - destruct (negb (r =? 0)); [reflexivity |].
    destruct (bitsPerSample element0) as [| p | p]; try reflexivity.
    do 5 (try (destruct p as [p | p |]; try reflexivity; try congruence)).
Qed.

Lemma logImageSetDataRGBA_unsupported_witness :
  logImageSetDataRGBA Libm.powf Libm.log10f true true true
    (c9_image descriptor_ABGR 10)
    [F32.one; F32.zero; F32.half; F32.one] 1
    {| written := []; budget := 1 |}
  = Some (1, {| written := []; budget := 1 |})
  /\
  logImageSetDataRGBA Libm.powf Libm.log10f true true true
    (c9_image descriptor_RGBA 1)
    [F32.one; F32.zero; F32.half; F32.one] 0
    {| written := []; budget := 1 |}
  = Some (1, {| written := []; budget := 1 |}).
Proof.
  split.
  - apply (logImageSetDataRGBA_unsupported Libm.powf Libm.log10f true true true
             (c9_image descriptor_ABGR 10) (c9_element descriptor_ABGR 10)).
    + reflexivity.
    + vm_compute. discriminate.
    + discriminate.
    + discriminate.
    + left. split; discriminate.
  - apply (logImageSetDataRGBA_unsupported Libm.powf Libm.log10f true true true
             (c9_image descriptor_RGBA 1) (c9_element descriptor_RGBA 1)).
    + reflexivity.
    + vm_compute. discriminate.
    + discriminate.
    + intros _. vm_compute. discriminate.
    + right. repeat split; discriminate.
Defined.

(** ** Assembly of three planar elements *)

Section PlanarRGB.

Variable logImage : LogImageFile.
Variables e0 e1 e2 : LogImageElement.
Variables p0 p1 p2 : list float.

Hypothesis Hnum : numElements logImage = 3.
Hypothesis Hel : element logImage = [e0; e1; e2].
Hypothesis Hd0 : depth e0 = 1.
Hypothesis Hd1 : depth e1 = 1.
Hypothesis Hd2 : depth e2 = 1.

Local Abbreviation n := (pixels logImage).
Local Abbreviation planes := [Some p0; Some p1; Some p2].

Hypothesis Hl0 : length p0 = n.
Hypothesis Hl1 : length p1 = n.
Hypothesis Hl2 : length p2 = n.

(** The file positions [a], [b], [c] of the planes that go to the
    slots 0, 1, 2. *)
Variables a b c : nat.
Variables pa pb pc : list float.
Hypothesis Hperm :
  In (a, b, c)
    [(0, 1, 2); (0, 2, 1); (1, 0, 2); (1, 2, 0); (2, 0, 1); (2, 1, 0)]%nat.
Hypothesis Hpa : [p0; p1; p2] !! a = Some pa.
Hypothesis Hpb : [p0; p1; p2] !! b = Some pb.
Hypothesis Hpc : [p0; p1; p2] !! c = Some pc.

Local Abbreviation sorted :=
  [Z.of_nat a; Z.of_nat b; Z.of_nat c; -1; -1; -1; -1; -1].
Local Abbreviation merged_to := (merged_upto logImage pa pb pc).


(** One slot of a turn: the element has depth 1, so one sample is
    copied. *)
Lemma slot_copy (x : Z) (ex : LogImageElement) (plane : list float)
    (p : Z) (v : float) (st : merge_state) :
  0 <= x ->
  [e0; e1; e2] !! Z.to_nat x = Some ex -> depth ex = 1 ->
  planes !! Z.to_nat x = Some (Some plane) ->
  elementData_ptr st !! Z.to_nat x = Some p ->
  plane !! Z.to_nat p = Some v ->
  sampleIndex st < Z.of_nat (length (mergedData st)) ->
  (if x <? 0 then None
   else
     [e0; e1; e2] !! Z.to_nat x ≫= fun e =>
       iter_opt (Z.to_nat (depth e)) 0
         (fun _ st0 => copy_sample planes x st0) st)
  = Some {| sampleIndex := sampleIndex st + 1;
            elementData_ptr := <[Z.to_nat x := p + 1]> (elementData_ptr st);
            mergedData :=
              <[Z.to_nat (sampleIndex st) := v]> (mergedData st) |}.
Proof.
  intros Hx Hex Hdx Hplane Hp Hv Hroom.
  destruct (x <? 0) eqn:E; [lia |].
  rewrite Hex. cbn [mbind option_bind]. rewrite Hdx.
  change (Z.to_nat 1) with 1%nat. cbn [iter_opt].
  unfold copy_sample. rewrite Hplane. cbn [mjoin option_join mbind option_bind].
  rewrite Hp. cbn [mbind option_bind]. rewrite Hv. cbn [mbind option_bind].
  destruct (sampleIndex st <? Z.of_nat (length (mergedData st))) eqn:E2; [| lia].
  reflexivity.
Qed.

Ltac to_nat_literals :=
  change (Z.to_nat 0) with 0%nat; change (Z.to_nat 1) with 1%nat;
  change (Z.to_nat 2) with 2%nat; change (Z.to_nat 3) with 3%nat.

Ltac slot x :=
  erewrite (slot_copy x);
  [ | lia | reflexivity | assumption | reflexivity | reflexivity
    | rewrite ?Nat2Z.id; eassumption
    | cbn [sampleIndex mergedData]; rewrite ?length_insert; lia ];
  cbn [sampleIndex elementData_ptr mergedData]; to_nat_literals;
  cbn [replicate insert list_insert].

Lemma interleave_pass_step (k : nat) (st : merge_state) :
  merged_to k st -> (k < n)%nat ->
  exists st',
    interleave_pass logImage sorted planes st = Some st' /\
    merged_to (S k) st'.
Proof.
  intros (Hidx & Hptr & Hlen & Hdata) Hk.
  destruct st as [si ptrs md]. cbn [sampleIndex elementData_ptr mergedData] in *.
  subst si ptrs.
  assert (Hla : length pa = n /\ length pb = n /\ length pc = n).
  { destruct Hperm as [E | [E | [E | [E | [E | [E | []]]]]]];
      injection E as <- <- <-; cbn in Hpa, Hpb, Hpc;
      injection Hpa as <-; injection Hpb as <-; injection Hpc as <-; auto. }
  destruct Hla as (Hla & Hlb & Hlc).
  destruct (lookup_lt_is_Some_2 pa k) as [va Hva]; [lia |].
  destruct (lookup_lt_is_Some_2 pb k) as [vb Hvb]; [lia |].
  destruct (lookup_lt_is_Some_2 pc k) as [vc Hvc]; [lia |].
  exists {| sampleIndex := 3 * Z.of_nat k + 1 + 1 + 1;
            elementData_ptr := replicate 3 (Z.of_nat k + 1);
            mergedData :=
              <[Z.to_nat (3 * Z.of_nat k + 1 + 1) := vc]>
                (<[Z.to_nat (3 * Z.of_nat k + 1) := vb]>
                   (<[Z.to_nat (3 * Z.of_nat k) := va]> md)) |}.
  split.
  - unfold interleave_pass. rewrite Hnum, Hel.
    change (Z.to_nat 3) with 3%nat. cbn [iter_opt].
    change (0 + 1) with 1. change (1 + 1) with 2.
    change (Z.to_nat 0) with 0%nat. change (Z.to_nat 1) with 1%nat.
    change (Z.to_nat 2) with 2%nat.
    cbn [lookup list_lookup mbind option_bind].
    destruct Hperm as [E | [E | [E | [E | [E | [E | []]]]]]];
      injection E as <- <- <-; cbn in Hpa, Hpb, Hpc;
      injection Hpa as <-; injection Hpb as <-; injection Hpc as <-;
      change (Z.of_nat 0) with 0; change (Z.of_nat 1) with 1;
      change (Z.of_nat 2) with 2; cbn [replicate].
    all: do 3 (first [slot 0 | slot 1 | slot 2]); reflexivity.
  - unfold merged_upto. cbn [sampleIndex elementData_ptr mergedData].
    rewrite !length_insert.
    replace (Z.to_nat (3 * Z.of_nat k + 1 + 1)) with (3 * k + 2)%nat by lia.
    replace (Z.to_nat (3 * Z.of_nat k + 1)) with (3 * k + 1)%nat by lia.
    replace (Z.to_nat (3 * Z.of_nat k)) with (3 * k)%nat by lia.
    split; [lia |]. split; [cbn [replicate]; repeat f_equal; lia |].
    split; [assumption |].
    intros j Hj.
    destruct (decide (j = k)) as [-> | Hne].
    + rewrite Hva, Hvb, Hvc.
      split; [| split].
      * rewrite list_lookup_insert_ne by lia.
        rewrite list_lookup_insert_ne by lia.
        apply list_lookup_insert_eq. lia.
      * rewrite list_lookup_insert_ne by lia.
        apply list_lookup_insert_eq. rewrite length_insert. lia.
      * apply list_lookup_insert_eq. rewrite !length_insert. lia.
    + rewrite !list_lookup_insert_ne by lia. apply Hdata. lia.
Qed.

Lemma interleave_runs (fuel k : nat) (st : merge_state) :
  merged_to k st -> (k <= n)%nat -> (n - k <= fuel)%nat ->
  exists st',
    interleave fuel (3 * Z.of_nat n) logImage sorted planes st = Some st' /\
    merged_to n st'.
Proof.
  revert k st. induction fuel as [| fuel IH]; intros k st Hinv Hk Hfuel.
  - assert (k = n) by lia. subst k.
    exists st. split; [| assumption].
    destruct Hinv as (Hidx & _). cbn [interleave]. rewrite Hidx.
    destruct (3 * Z.of_nat n <? 3 * Z.of_nat n) eqn:E; [lia | reflexivity].
  - cbn [interleave].
    destruct (sampleIndex st <? 3 * Z.of_nat n) eqn:E.
    + assert (Hlt : (k < n)%nat) by (destruct Hinv as (Hidx & _); lia).
      destruct (interleave_pass_step k st Hinv Hlt) as (st1 & E1 & Hinv1).
      rewrite E1. apply (IH (S k)); [assumption | lia | lia].
    + assert (k = n) by (destruct Hinv as (Hidx & _); lia). subst k.
      exists st. split; [reflexivity | assumption].
Qed.


End PlanarRGB.

(** The positions of three distinct descriptors among three elements
    are a permutation of 0, 1, 2. *)
Lemma positions_permutation (d0 d1 d2 : descriptor_id) (r g b : nat) :
  [d0; d1; d2] !! r = Some descriptor_Red ->
  [d0; d1; d2] !! g = Some descriptor_Green ->
  [d0; d1; d2] !! b = Some descriptor_Blue ->
  In (r, g, b)
    [(0, 1, 2); (0, 2, 1); (1, 0, 2); (1, 2, 0); (2, 0, 1); (2, 1, 0)]%nat.
Proof.
  intros Hr Hg Hb.
  destruct r as [| [| [| r]]]; try discriminate Hr;
    destruct g as [| [| [| g]]]; try discriminate Hg;
    destruct b as [| [| [| b]]]; try discriminate Hb;
    cbn in Hr, Hg, Hb; try congruence; cbn; tauto.
Qed.

(** With no alpha element the switch assembles Red, Green and Blue
    planes, wherever they are in the file, into an RGB element whose
    slots 0, 1, 2 are the positions of the three planes. *)
Lemma assemble_planar_rgb (logImage : LogImageFile)
    (e0 e1 e2 : LogImageElement) (r g b : nat) :
  numElements logImage = 3 -> element logImage = [e0; e1; e2] ->
  (descriptor <$> [e0; e1; e2]) !! r = Some descriptor_Red ->
  (descriptor <$> [e0; e1; e2]) !! g = Some descriptor_Green ->
  (descriptor <$> [e0; e1; e2]) !! b = Some descriptor_Blue ->
  hasAlpha_of logImage = 0 /\
  assemble logImage 0
  = Some (descriptor_RGB,
          [Z.of_nat r; Z.of_nat g; Z.of_nat b; -1; -1; -1; -1; -1]).
Proof.
  intros Hnum Hel Hr Hg Hb. cbn [fmap list_fmap] in Hr, Hg, Hb.
  pose proof (positions_permutation _ _ _ _ _ _ Hr Hg Hb) as Hperm.
  unfold hasAlpha_of, assemble. rewrite Hnum, Hel.
  destruct Hperm as [E | [E | [E | [E | [E | [E | []]]]]]];
    injection E as <- <- <-; cbn in Hr, Hg, Hb;
    injection Hr as Hr; injection Hg as Hg; injection Hb as Hb;
    change (Z.to_nat 3) with 3%nat;
    cbn [take firstn existsb iter_opt]; rewrite ?Hr, ?Hg, ?Hb;
    (split; [reflexivity |]);
    change (Z.to_nat 0) with 0%nat; change (Z.to_nat (0 + 1)) with 1%nat;
    change (Z.to_nat (0 + 1 + 1)) with 2%nat;
    cbn [lookup list_lookup mbind option_bind]; rewrite ?Hr, ?Hg, ?Hb;
    reflexivity.
Qed.


(** C1: three planar elements (depth 1 each) of descriptors Red, Green
    and Blue, at the positions [r], [g], [b] of the file in any order, are
    merged by [logImageGetDataRGBA] into a buffer of depth 3 with merged
    descriptor RGB, in which, for every pixel [k], sample [3 k] is sample
    [k] of the Red plane, [3 k + 1] of the Green plane and [3 k + 2] of
    the Blue plane. *)
Theorem logImageGetDataRGBA_merge_planar_rgb (logImage : LogImageFile)
    (e0 e1 e2 : LogImageElement) (p0 p1 p2 : list float)
    (r g b : nat) (red green blue : list float) :
  numElements logImage = 3 -> element logImage = [e0; e1; e2] ->
  imageDepth logImage = 3 ->
  0 <= width logImage -> 0 <= height logImage ->
  depth e0 = 1 -> depth e1 = 1 -> depth e2 = 1 ->
  length p0 = pixels logImage -> length p1 = pixels logImage ->
  length p2 = pixels logImage ->
  (descriptor <$> [e0; e1; e2]) !! r = Some descriptor_Red ->
  (descriptor <$> [e0; e1; e2]) !! g = Some descriptor_Green ->
  (descriptor <$> [e0; e1; e2]) !! b = Some descriptor_Blue ->
  [p0; p1; p2] !! r = Some red ->
  [p0; p1; p2] !! g = Some green ->
  [p0; p1; p2] !! b = Some blue ->
  exists mergedElement mergedData,
    logImageGetDataRGBA_merge logImage [Some p0; Some p1; Some p2]
    = Some (mergedElement, mergedData) /\
    depth mergedElement = 3 /\
    descriptor mergedElement = descriptor_RGB /\
    length mergedData = (3 * pixels logImage)%nat /\
    forall k, (k < pixels logImage)%nat ->
      mergedData !! (3 * k)%nat = red !! k /\
      mergedData !! (3 * k + 1)%nat = green !! k /\
      mergedData !! (3 * k + 2)%nat = blue !! k.
Proof.
  intros Hnum Hel Hdepth Hw Hh Hd0 Hd1 Hd2 Hl0 Hl1 Hl2 Hr Hg Hb Hpr Hpg Hpb.
  destruct (assemble_planar_rgb logImage e0 e1 e2 r g b Hnum Hel Hr Hg Hb)
    as [Halpha Hasm].
  cbn [fmap list_fmap] in Hr, Hg, Hb.
  pose proof (positions_permutation _ _ _ _ _ _ Hr Hg Hb) as Hperm.
  assert (Htotal : width logImage * height logImage * 3
                   = 3 * Z.of_nat (pixels logImage)).
  { unfold pixels. rewrite Z2Nat.id by nia. lia. }
  set (st0 := {| sampleIndex := 0;
                 elementData_ptr := replicate 3 0;
                 mergedData :=
                   replicate (Z.to_nat (3 * Z.of_nat (pixels logImage)))
                     F32.zero |}).
  assert (Hinv0 : merged_upto logImage red green blue 0 st0).
  { unfold merged_upto, st0. cbn [sampleIndex elementData_ptr mergedData].
    rewrite length_replicate.
    split; [lia |]. split; [reflexivity |]. split; [lia |].
    intros j Hj. lia. }
  destruct (interleave_runs logImage e0 e1 e2 p0 p1 p2 Hnum Hel Hd0 Hd1 Hd2
              Hl0 Hl1 Hl2 r g b red green blue Hperm Hpr Hpg Hpb
              (Z.to_nat (3 * Z.of_nat (pixels logImage))) 0%nat st0 Hinv0
              ltac:(lia) ltac:(lia))
    as (st' & Hrun & Hinv).
  unfold logImageGetDataRGBA_merge.
  rewrite Hel, Halpha, Hasm. cbn [lookup list_lookup mbind option_bind].
  cbn [depth]. rewrite Hdepth, Hnum, Htotal.
  change (Z.to_nat 3) with 3%nat. fold st0. rewrite Hrun.
  cbn [mbind option_bind].
  destruct Hinv as (_ & _ & Hlen & Hdata).
  eexists _, _. split; [reflexivity |].
  cbn [depth descriptor]. repeat split; try assumption; apply Hdata; assumption.
Qed.

Lemma logImageGetDataRGBA_merge_planar_rgb_witness :
  exists mergedElement mergedData,
    logImageGetDataRGBA_merge c1_image
      [Some [F32.dec 9 1; F32.dec 8 1]; Some [F32.half; F32.dec 4 1];
       Some [F32.dec 1 1; F32.dec 2 1]]
    = Some (mergedElement, mergedData) /\
    depth mergedElement = 3 /\
    descriptor mergedElement = descriptor_RGB /\
    length mergedData = (3 * pixels c1_image)%nat /\
    forall k, (k < pixels c1_image)%nat ->
      mergedData !! (3 * k)%nat = [F32.dec 1 1; F32.dec 2 1] !! k /\
      mergedData !! (3 * k + 1)%nat = [F32.half; F32.dec 4 1] !! k /\
      mergedData !! (3 * k + 2)%nat = [F32.dec 9 1; F32.dec 8 1] !! k.
Proof.
  apply (logImageGetDataRGBA_merge_planar_rgb c1_image
           (c1_element descriptor_Blue) (c1_element descriptor_Green)
           (c1_element descriptor_Red)
           [F32.dec 9 1; F32.dec 8 1] [F32.half; F32.dec 4 1]
           [F32.dec 1 1; F32.dec 2 1] 2 1 0);
    first [reflexivity | simpl; lia].
Defined.

(** ** Closing a handle *)


(** C10: [logImageClose] is null-safe and idempotent at the interface:
    called with a null pointer it does nothing (once or twice), and on a
    handle whose [file] field is already null it frees the struct only:
    the one call made is [MEM_freeN] of the handle, no [fclose] is made
    and the open byte-I/O handles are left as they were. *)
Theorem logImageClose_null_safe (w : world) :
  logImageClose None w = Some w /\
  (logImageClose None w ≫= logImageClose None) = Some w /\
  forall (p : positive) (h : LogImageFile),
    handles w !! p = Some h -> file h = None ->
    logImageClose (Some p) w
    = Some {| handles := delete p (handles w);
              open_files := open_files w;
              calls := calls w ++ [call_MEM_freeN p] |}.
Proof.
  split; [reflexivity |]. split; [reflexivity |].
  intros p h Hp Hfile. unfold logImageClose.
  rewrite Hp. cbn [mbind option_bind]. rewrite Hfile. reflexivity.
Qed.

Lemma logImageClose_null_safe_witness :
  logImageClose (Some 7%positive) c10_world
  = Some {| handles := delete 7%positive (handles c10_world);
            open_files := open_files c10_world;
            calls := calls c10_world ++ [call_MEM_freeN 7%positive] |}.
Proof.
  apply (proj2 (proj2 (logImageClose_null_safe c10_world)) 7%positive c10_image).
  - reflexivity.
  - reflexivity.
Defined.

(** ** The log-to-lin table around the black point *)


(** An entry of the table: the branch taken at index [i]. *)
Lemma getLogToLinLut_below_black (powf : float -> float -> float)
    (logImage : LogImageFile) (e : LogImageElement) (i : Z) :
  0 <= i < lutsize e ->
  F32.ltb (F32.of_Z i) (referenceBlack logImage) = true ->
  getLogToLinLut powf logImage e !! Z.to_nat i = Some F32.zero.
Proof.
  intros Hi H1.
  unfold getLogToLinLut; change (map ?f ?l) with (f <$> l).
  rewrite list_lookup_fmap, lookup_seqZ_lt by lia.
  cbn [fmap option_fmap option_map]. rewrite Z.add_0_l, Z2Nat.id by lia.
  cbv beta. rewrite H1. reflexivity.
Qed.

Lemma getLogToLinLut_at_black (powf : float -> float -> float)
    (logImage : LogImageFile) (e : LogImageElement) (i : Z) :
  0 <= i < lutsize e ->
  F32.of_Z i = referenceBlack logImage ->
  F32.gtb (referenceBlack logImage)
    (F32.sub (referenceWhite logImage) F32.zero) = false ->
  getLogToLinLut powf logImage e !! Z.to_nat i
  = Some (black_point_from
            (powf (F32.of_Z 10) (black_point_exponent logImage e)) e).
Proof.
  intros Hi H1 H2.
  assert (Hlt : F32.ltb (referenceBlack logImage) (referenceBlack logImage)
                = false).
  { unfold F32.ltb, SFltb, SFcompare.
    destruct (referenceBlack logImage) as [[] | [] | | [] m ex];
      try reflexivity;
      rewrite Z.compare_refl, ?Pos.compare_cont_refl; reflexivity. }
  unfold getLogToLinLut; change (map ?f ?l) with (f <$> l).
  rewrite list_lookup_fmap, lookup_seqZ_lt by lia.
  cbn [fmap option_fmap option_map]. rewrite Z.add_0_l, Z2Nat.id by lia.
  cbv beta. rewrite H1, Hlt, H2. reflexivity.
Qed.

(** C5 (as amended): the table built by [getLogToLinLut] has
    [lut[i] = 0] for every index [i < referenceBlack]; at the index equal
    to [referenceBlack] (not above the break point) no branch stores 0:
    the entry is the [else] expression evaluated in binary32, which is
    zero in real arithmetic only. *)
Theorem getLogToLinLut_black (powf : float -> float -> float)
    (logImage : LogImageFile) (e : LogImageElement) (i : Z) :
  0 <= i < lutsize e ->
  (F32.ltb (F32.of_Z i) (referenceBlack logImage) = true ->
   getLogToLinLut powf logImage e !! Z.to_nat i = Some F32.zero) /\
  (F32.of_Z i = referenceBlack logImage ->
   F32.gtb (referenceBlack logImage)
     (F32.sub (referenceWhite logImage) F32.zero) = false ->
   getLogToLinLut powf logImage e !! Z.to_nat i
   = Some (black_point_from
             (powf (F32.of_Z 10) (black_point_exponent logImage e)) e)).
Proof.
  intros Hi. split.
  - apply getLogToLinLut_below_black. exact Hi.
  - apply getLogToLinLut_at_black. exact Hi.
Qed.

Lemma getLogToLinLut_black_witness :
  getLogToLinLut Libm.powf c5_image c5_element !! Z.to_nat 94 = Some F32.zero /\
  getLogToLinLut Libm.powf c5_image c5_element !! Z.to_nat 95
  = Some (black_point_from
            (Libm.powf (F32.of_Z 10) (black_point_exponent c5_image c5_element))
            c5_element).
Proof.
  split.
  - apply (proj1 (getLogToLinLut_black Libm.powf c5_image c5_element 94
                    ltac:(vm_compute; split; [discriminate | reflexivity]))).
    vm_compute. reflexivity.
  - apply (proj2 (getLogToLinLut_black Libm.powf c5_image c5_element 95
                    ltac:(vm_compute; split; [discriminate | reflexivity]))).
    + vm_compute. reflexivity.
    + vm_compute. reflexivity.
Defined.

(** C5 (counterexample): referenceBlack = 95, referenceWhite = 685,
    gamma = 1.0 on a 10-bit element of reference density 2.048: [powf]
    returns 9328597 * 2^-27 for the black-point exponent, and [lut[95]] is
    [- 9446409 * 2^-47] (about [-6.7e-8]), not [0.0]. *)
Lemma getLogToLinLut_black_point_not_zero :
  referenceBlack c5_image = F32.of_Z 95 /\
  referenceWhite c5_image = F32.of_Z 685 /\
  gamma c5_image = F32.one /\
  Libm.powf (F32.of_Z 10) (black_point_exponent c5_image c5_element)
  = S754_finite false 9328597 (-27) /\
  getLogToLinLut Libm.powf c5_image c5_element !! 95%nat
  = Some (S754_finite true 9446409 (-47)) /\
  getLogToLinLut Libm.powf c5_image c5_element !! 95%nat <> Some F32.zero.
Proof.
  assert (E : getLogToLinLut Libm.powf c5_image c5_element !! 95%nat
              = Some (S754_finite true 9446409 (-47))).
  { refine (eq_trans
              (getLogToLinLut_at_black Libm.powf c5_image c5_element 95 _ _ _)
              _).
    - vm_compute. split; [discriminate | reflexivity].
    - vm_compute. reflexivity.
    - vm_compute. reflexivity.
    - vm_compute. reflexivity. }
  split; [reflexivity |]. split; [reflexivity |]. split; [reflexivity |].
  split; [vm_compute; reflexivity |]. split; [exact E |].
  intros H. discriminate (eq_trans (eq_sym E) H).
Qed.

(** The entry at the black point is not zero either for the four binary32
    neighbours of that value of [powf], so the conclusion does not hang on
    the last bit of the C library. *)
Lemma black_point_not_zero_near :
  Forall (fun m =>
            F32.eqb (black_point_from (S754_finite false m (-27)) c5_element)
              F32.zero = false)
    [9328595; 9328596; 9328597; 9328598; 9328599]%positive.
Proof. repeat constructor. Qed.

(** ** Where the code departs from the specification *)

(** *** 12-bit filled, padded left *)



(** C3 (the code at the failing input): the word [0x1000], whose twelve
    low bits are zero, is unpacked with packing 2 to [4096 / 4095], which
    is above 1, where [(word & 0xFFF) / 4095] is 0. *)
Lemma logImageElementGetData12_keeps_padding_bits :
  logImageElementGetData12 c3_image c3_element
    {| content := [0x00; 0x10]; cursor := 0 |} [None]
  = (0, {| content := [0x00; 0x10]; cursor := 2 |},
     [Some (F32.div (F32.of_Z 0x1000) (F32.of_Z 4095))]) /\
  F32.in_unit (F32.div (F32.of_Z 0x1000) (F32.of_Z 4095)) = false /\
  F32.div (F32.of_Z (Z.land 0x1000 0xFFF)) (F32.of_Z 4095) = F32.zero.
Proof. vm_compute. repeat split. Qed.

(** For each value of the four padding bits and a few values of the
    twelve low bits the sample is [word / 4095]: the padding bits are
    kept, and the sample is in [0, 1] exactly when they are 0. *)
Lemma logImageElementGetData12_padding_values :
  forallb
    (fun w =>
       match c3_sample w with
       | Some s =>
           SFeqb s (F32.div (F32.of_Z w) (F32.of_Z 4095))
           && Bool.eqb (F32.in_unit s) (w <=? 4095)
       | None => false
       end)
    (pad ← seqZ 0 16; low ← [0; 1; 2047; 4095]; [pad * 4096 + low]) = true.
Proof. vm_compute. reflexivity. Qed.

(** *** 1-bit elements of depth above 1 *)


(** C7 (the code at the failing input): width 2, height 1, depth 2, the
    word [0x0000000F]: of the four samples of the row only the first two
    (as many as the width) are stored; samples 2 and 3, whose bits are 1,
    are left as the caller allocated them. *)
Lemma logImageElementGetData1_leaves_samples :
  logImageElementGetData1 (c7_image 2 2) (c7_element 2)
    {| content := [0x0F; 0; 0; 0]; cursor := 0 |} (replicate 4 None)
  = (0, {| content := [0x0F; 0; 0; 0]; cursor := 4 |},
     [Some F32.one; Some F32.one; None; None]).
Proof. vm_compute. reflexivity. Qed.

(** With depth 1 the same word fills a row of four samples. *)
Lemma logImageElementGetData1_depth_1 :
  logImageElementGetData1 (c7_image 4 1) (c7_element 1)
    {| content := [0x05; 0; 0; 0]; cursor := 0 |} (replicate 4 None)
  = (0, {| content := [0x05; 0; 0; 0]; cursor := 4 |},
     [Some F32.one; Some F32.zero; Some F32.one; Some F32.zero]).
Proof. vm_compute. reflexivity. Qed.

(** *** The last word of a 10-bit row *)


(** C8 (the code at the failing input): a 1 x 2 RGBA image, rows
    (1, 0, 0, 1) and (0, 1, 0, 0).  Each row is two words; the second
    word of row 1 holds the alpha code 0 alone, is not stored, and the
    file receives the second word of row 0 again ([FF C0 00 00], alpha
    code 1023) where [00 00 00 00] is due. *)
Lemma logImageSetData10_stale_last_word :
  logImageSetData10 true (c8_image 2) c8_element
    [F32.one; F32.zero; F32.zero; F32.one;
     F32.zero; F32.one; F32.zero; F32.zero]
    {| written := []; budget := 2 |}
  = (0, {| written :=
             [Some 0xFF; Some 0xC0; Some 0x00; Some 0x00;
              Some 0xFF; Some 0xC0; Some 0x00; Some 0x00;
              Some 0x00; Some 0x3F; Some 0xF0; Some 0x00;
              Some 0xFF; Some 0xC0; Some 0x00; Some 0x00];
           budget := 0 |}).
Proof. vm_compute. reflexivity. Qed.

(** In the first row the word that is not stored is the memory
    [MEM_mallocN] returned, never initialised. *)
Lemma logImageSetData10_uninitialised_last_word :
  logImageSetData10 true (c8_image 1) c8_element
    [F32.one; F32.zero; F32.zero; F32.zero]
    {| written := []; budget := 1 |}
  = (0, {| written :=
             [Some 0xFF; Some 0xC0; Some 0x00; Some 0x00;
              None; None; None; None];
           budget := 0 |}).
Proof. vm_compute. reflexivity. Qed.

(** A last word that is not zero is stored, its unused lanes zero. *)
Lemma logImageSetData10_last_word_stored :
  logImageSetData10 true (c8_image 1) c8_element
    [F32.one; F32.zero; F32.zero; F32.one]
    {| written := []; budget := 1 |}
  = (0, {| written :=
             [Some 0xFF; Some 0xC0; Some 0x00; Some 0x00;
              Some 0xFF; Some 0xC0; Some 0x00; Some 0x00];
           budget := 0 |}).
Proof. vm_compute. reflexivity. Qed.

(** *** RGBA and ABGR with an unspecified transfer *)


(** C6 (what the code does): with transfer Unspecified an RGBA or ABGR
    element is refused on the read path, and an RGBA element on the write
    path: the conversion returns 1 and stores nothing, where the RGB
    converters accept this transfer. *)
Theorem convert_rgba_unspecified_refused (powf : float -> float -> float)
    (log10f : float -> float) (logImage : LogImageFile)
    (e : LogImageElement) (src dst0 : list float) (dstIsLinearRGB : Z) :
  transfer e = transfer_Unspecified ->
  (descriptor e = descriptor_RGBA \/ descriptor e = descriptor_ABGR ->
   convertLogElementToRGBA powf log10f src dst0 logImage e dstIsLinearRGB
   = Some (1, dst0)) /\
  (descriptor e = descriptor_RGBA ->
   convertRGBAToLogElement powf log10f true src dst0 logImage e 0
   = Some (1, dst0)).
Proof.
  intros Ht. split.
  - intros [Hd | Hd]; unfold convertLogElementToRGBA; rewrite Hd; cbv iota beta;
      [unfold convertRGBA_RGBA | unfold convertABGR_RGBA]; rewrite Ht;
      reflexivity.
  - intros Hd. unfold convertRGBAToLogElement. rewrite Hd. cbv iota beta.
    change (negb (0 =? 0)) with false. cbv iota.
    unfold convertRGBA_RGBA. rewrite Ht. reflexivity.
Qed.

Lemma convert_rgba_unspecified_refused_witness :
  convertLogElementToRGBA Libm.powf Libm.log10f
    [F32.dec 1 1; F32.dec 2 1; F32.dec 3 1; F32.one] (replicate 4 F32.zero)
    (c6_image 1 descriptor_RGBA transfer_Unspecified)
    (c6_element descriptor_RGBA transfer_Unspecified) 0
  = Some (1, replicate 4 F32.zero).
Proof.
  apply (proj1 (convert_rgba_unspecified_refused Libm.powf Libm.log10f
                  (c6_image 1 descriptor_RGBA transfer_Unspecified)
                  (c6_element descriptor_RGBA transfer_Unspecified)
                  [F32.dec 1 1; F32.dec 2 1; F32.dec 3 1; F32.one]
                  (replicate 4 F32.zero) 0 eq_refl)).
  left. reflexivity.
Defined.

(** The same element with descriptor RGB is converted: a straight copy
    with alpha 1.0. *)
Lemma convertRGB_RGBA_unspecified_copies :
  convertLogElementToRGBA Libm.powf Libm.log10f
    [F32.dec 1 1; F32.dec 2 1; F32.dec 3 1] (replicate 4 F32.zero)
    (c6_image 1 descriptor_RGB transfer_Unspecified)
    (c6_element descriptor_RGB transfer_Unspecified) 0
  = Some (0, [F32.dec 1 1; F32.dec 2 1; F32.dec 3 1; F32.one]).
Proof. vm_compute. reflexivity. Qed.

(** The ABGR reversal starts one sample too far: pixel [i] is read from
    the samples [4 i + 4] down to [4 i + 1].  On a source of exactly two
    pixels the last pixel reads past the end; with one more sample behind
    them the two pixels (1, 2, 3, 4) and (5, 6, 7, 8) come out as
    (5, 4, 3, 2) and (9, 8, 7, 6). *)
Lemma convertABGR_RGBA_off_by_one :
  convertLogElementToRGBA Libm.powf Libm.log10f
    (F32.of_Z <$> [1; 2; 3; 4; 5; 6; 7; 8]) (replicate 8 F32.zero)
    (c6_image 2 descriptor_ABGR transfer_Linear)
    (c6_element descriptor_ABGR transfer_Linear) 0
  = None /\
  convertLogElementToRGBA Libm.powf Libm.log10f
    (F32.of_Z <$> [1; 2; 3; 4; 5; 6; 7; 8; 9]) (replicate 8 F32.zero)
    (c6_image 2 descriptor_ABGR transfer_Linear)
    (c6_element descriptor_ABGR transfer_Linear) 0
  = Some (0, F32.of_Z <$> [5; 4; 3; 2; 9; 8; 7; 6]).
Proof. vm_compute. split; reflexivity. Qed.

(** * Further properties of the engines *)

(** ** Reasoning rules for the loops *)

(** A [for] loop from 0 whose body never leaves early: an invariant
    indexed by the counter holds at the bound. *)
Lemma for_loop_run {S : Type} (I : Z -> S -> Prop) (n : Z)
    (body : Z -> S -> flow S) :
  (forall x s, 0 <= x < n -> I x s ->
     exists s', body x s = Continue s' /\ I (x + 1) s') ->
  forall (fuel : nat) (x : Z) (s : S),
    0 <= x -> x + Z.of_nat fuel = n -> I x s ->
    exists s', for_loop fuel x 1 (fun x => x <? n) body s = Continue s'
               /\ I n s'.
Proof.
  intros Hbody fuel; induction fuel as [|fuel IH]; intros x s Hx Hn HI.
  - exists s; split; [reflexivity|].
    replace n with x by lia; exact HI.
  - cbn [for_loop].
    destruct (Z.ltb_spec x n) as [Hlt|Hge]; [|lia].
    destruct (Hbody x s (conj Hx Hlt) HI) as (s1 & -> & HI1).
    apply IH; [lia|lia|exact HI1].
Qed.

Lemma for_upto_run {S : Type} (I : Z -> S -> Prop) (n : Z)
    (body : Z -> S -> flow S) (s : S) :
  0 <= n -> I 0 s ->
  (forall x s, 0 <= x < n -> I x s ->
     exists s', body x s = Continue s' /\ I (x + 1) s') ->
  exists s', for_upto n body s = Continue s' /\ I n s'.
Proof.
  intros Hn H0 Hbody; unfold for_upto.
  apply (for_loop_run I n body Hbody); [lia|lia|exact H0].
Qed.

(** A [for] loop from 0 whose body leaves at iteration [k]. *)
Lemma for_loop_break {S : Type} (I : Z -> S -> Prop) (Q : S -> Prop)
    (n k : Z) (body : Z -> S -> flow S) :
  k < n ->
  (forall x s, 0 <= x < k -> I x s ->
     exists s', body x s = Continue s' /\ I (x + 1) s') ->
  (forall s, I k s -> exists s', body k s = Return1 s' /\ Q s') ->
  forall (fuel : nat) (x : Z) (s : S),
    0 <= x <= k -> k < x + Z.of_nat fuel -> I x s ->
    exists s', for_loop fuel x 1 (fun x => x <? n) body s = Return1 s'
               /\ Q s'.
Proof.
  intros Hk Hbody Hlast fuel; induction fuel as [|fuel IH];
    intros x s Hx Hfuel HI; [lia|].
  cbn [for_loop].
  destruct (Z.ltb_spec x n) as [Hlt|Hge]; [|lia].
  destruct (Z.eq_dec x k) as [->|Hne].
  - destruct (Hlast s HI) as (s1 & -> & HQ). exists s1; auto.
  - destruct (Hbody x s ltac:(lia) HI) as (s1 & -> & HI1).
    apply IH; [lia|lia|exact HI1].
Qed.

Lemma for_upto_break {S : Type} (I : Z -> S -> Prop) (Q : S -> Prop)
    (n k : Z) (body : Z -> S -> flow S) (s : S) :
  0 <= k < n -> I 0 s ->
  (forall x s, 0 <= x < k -> I x s ->
     exists s', body x s = Continue s' /\ I (x + 1) s') ->
  (forall s, I k s -> exists s', body k s = Return1 s' /\ Q s') ->
  exists s', for_upto n body s = Return1 s' /\ Q s'.
Proof.
  intros Hk H0 Hbody Hlast; unfold for_upto.
  apply (for_loop_break I Q n k body); [lia|exact Hbody|exact Hlast|lia|lia|exact H0].
Qed.

(** Whatever way a loop ends, a property that every iteration keeps
    holds of the state it leaves. *)
Lemma for_loop_invariant {S : Type} (I : S -> Prop) (step : Z)
    (cond : Z -> bool) (body : Z -> S -> flow S) :
  (forall x s, I s -> I (flow_state (body x s))) ->
  forall (fuel : nat) (x : Z) (s : S),
    I s -> I (flow_state (for_loop fuel x step cond body s)).
Proof.
  intros Hbody fuel; induction fuel as [|fuel IH]; intros x s HI;
    [exact HI|].
  cbn [for_loop]. destruct (cond x); [|exact HI].
  pose proof (Hbody x s HI) as H1.
  destruct (body x s) as [s1|s1]; cbn [flow_state] in *; auto.
Qed.

Lemma for_upto_invariant {S : Type} (I : S -> Prop) (n : Z)
    (body : Z -> S -> flow S) (s : S) :
  (forall x s, I s -> I (flow_state (body x s))) ->
  I s -> I (flow_state (for_upto n body s)).
Proof.
  intros Hbody HI; unfold for_upto.
  apply for_loop_invariant; assumption.
Qed.

(** ** Reading words from the stream *)

Lemma readExact_ok (n : nat) (f : stream) :
  0 <= cursor f ->
  cursor f + Z.of_nat n <= Z.of_nat (length (content f)) ->
  readExact n f =
    Some (word_at n (content f) (cursor f),
          {| content := content f; cursor := cursor f + Z.of_nat n |}).
Proof.
  intros H0 H1; unfold readExact, word_at.
  destruct (Z.leb_spec 0 (cursor f)) as [_|]; [|lia].
  rewrite length_take, length_drop.
  replace (n `min` (length (content f) - Z.to_nat (cursor f)))%nat with n
    by lia.
  rewrite Nat.eqb_refl; reflexivity.
Qed.

Lemma readExact_eof (n : nat) (f : stream) :
  (0 < n)%nat ->
  Z.of_nat (length (content f)) < cursor f + Z.of_nat n ->
  readExact n f = None.
Proof.
  intros Hn H1; unfold readExact.
  destruct (Z.leb_spec 0 (cursor f)) as [H0|]; [|reflexivity].
  rewrite length_take, length_drop.
  destruct (Nat.eqb_spec
              (n `min` (length (content f) - Z.to_nat (cursor f))) n);
    [lia|reflexivity].
Qed.

Lemma logimage_fseek_ok (f : stream) (offset : Z) :
  0 <= offset <= Z.of_nat (length (content f)) ->
  logimage_fseek f offset = Some {| content := content f; cursor := offset |}.
Proof.
  intros [H0 H1]; unfold logimage_fseek.
  destruct (Z.leb_spec 0 offset); [|lia].
  destruct (Z.leb_spec offset (Z.of_nat (length (content f)))); [|lia].
  reflexivity.
Qed.

Lemma logimage_fseek_fails (f : stream) (offset : Z) :
  offset < 0 \/ Z.of_nat (length (content f)) < offset ->
  logimage_fseek f offset = None.
Proof.
  intros H; unfold logimage_fseek.
  destruct (Z.leb_spec 0 offset);
    destruct (Z.leb_spec offset (Z.of_nat (length (content f))));
    try reflexivity; lia.
Qed.

(** ** Filling a buffer cell by cell *)

Lemma seqZ_snoc (x : Z) : 0 <= x -> seqZ 0 (x + 1) = seqZ 0 x ++ [x].
Proof.
  intros Hx. rewrite seqZ_app by lia. f_equal.
Qed.

Lemma store_next {A : Type} (g : Z -> A) (x : Z) (data : list (option A)) :
  0 <= x < Z.of_nat (length data) ->
  store x (g x)
    (((fun i => Some (g i)) <$> seqZ 0 x) ++ drop (Z.to_nat x) data)
  = ((fun i => Some (g i)) <$> seqZ 0 (x + 1))
    ++ drop (Z.to_nat (x + 1)) data.
Proof.
  intros Hx; unfold store.
  destruct (lookup_lt_is_Some_2 data (Z.to_nat x) ltac:(lia)) as [c Hc].
  rewrite (drop_S _ _ _ Hc).
  replace (Z.to_nat x) with
    (length ((fun i => Some (g i)) <$> seqZ 0 x) + 0)%nat at 1
    by (rewrite length_fmap, length_seqZ; lia).
  rewrite insert_app_r; cbn [insert list_insert].
  rewrite seqZ_snoc, fmap_app by lia. cbn [fmap list_fmap].
  rewrite <- app_assoc. cbn [app].
  replace (Z.to_nat (x + 1)) with (S (Z.to_nat x)) by lia.
  reflexivity.
Qed.

(** ** The loop of the 16-bit cells

    [logImageElementGetData12] and [logImageElementGetData16] run the same
    loop: read a 16-bit word, swap it, store a sample computed from it. *)

Section WordLoop.

Variable decode : Z -> float.
Variable body : Z -> stream * buffer -> flow (stream * buffer).

Hypothesis body_eq : forall i f1 d1,
body i (f1, d1) =
  match logimage_read_ushort f1 with
  | None => Return1 (f1, d1)
  | Some (pixel, f2) => Continue (f2, store i (decode pixel) d1)
  end.

Variable bytes : list Z.
Variable off : Z.
Variable data : buffer.

Local Abbreviation sample i := (decode (word_at 2 bytes (off + 2 * i))).

Lemma word_loop_run (n : Z) :
0 <= off -> 0 <= n ->
off + 2 * n <= Z.of_nat (length bytes) ->
n <= Z.of_nat (length data) ->
for_upto n body ({| content := bytes; cursor := off |}, data) =
  Continue ({| content := bytes; cursor := off + 2 * n |},
            decoded (fun i => sample i) n ++ drop (Z.to_nat n) data).
Proof.
intros Hoff Hn Hlen Hdata.
destruct (for_upto_run
  (fun x s => s = ({| content := bytes; cursor := off + 2 * x |},
                   decoded (fun i => sample i) x ++ drop (Z.to_nat x) data))
  n body ({| content := bytes; cursor := off |}, data) Hn) as (s & Hs & ->).
- rewrite Z.mul_0_r, Z.add_0_r. reflexivity.
- intros x s Hx ->. rewrite body_eq.
  unfold logimage_read_ushort. rewrite readExact_ok; cbn [content cursor];
    [|lia|lia].
  eexists; split; [reflexivity|]. f_equal.
  + f_equal. lia.
  + unfold decoded. apply (store_next (fun i => sample i)). lia.
- exact Hs.
Qed.

End WordLoop.

(** The status of such a loop depends on the length of the file only. *)

Section WordLoopStatus.

Variable body : Z -> stream * buffer -> flow (stream * buffer).

Hypothesis body_spec : forall i f1 d1,
match logimage_read_ushort f1 with
| None => body i (f1, d1) = Return1 (f1, d1)
| Some (_, f2) => exists d2, body i (f1, d1) = Continue (f2, d2)
end.

Variable bytes : list Z.
Variable off : Z.

Lemma word_loop_step (x : Z) (s : stream * buffer) :
0 <= off -> 0 <= x ->
off + 2 * (x + 1) <= Z.of_nat (length bytes) ->
content (fst s) = bytes /\ cursor (fst s) = off + 2 * x ->
exists s', body x s = Continue s'
  /\ content (fst s') = bytes /\ cursor (fst s') = off + 2 * (x + 1).
Proof.
intros Hoff Hx Hlen [Hc Hp]. destruct s as [f1 d1]; cbn [fst] in *.
pose proof (body_spec x f1 d1) as Hb.
unfold logimage_read_ushort in Hb.
rewrite readExact_ok in Hb; [|lia|rewrite Hc; lia].
destruct Hb as (d2 & ->). eexists; split; [reflexivity|].
cbn. split; [exact Hc|lia].
Qed.

Lemma word_loop_complete (n : Z) (data : buffer) :
0 <= off -> 0 <= n ->
off + 2 * n <= Z.of_nat (length bytes) ->
exists s, for_upto n body ({| content := bytes; cursor := off |}, data)
          = Continue s.
Proof.
intros Hoff Hn Hlen.
destruct (for_upto_run
  (fun x s => content (fst s) = bytes /\ cursor (fst s) = off + 2 * x)
  n body ({| content := bytes; cursor := off |}, data) Hn)
  as (s & Hs & _).
- cbn; split; [reflexivity|lia].
- intros x s Hx HI. apply word_loop_step; [lia|lia|lia|exact HI].
- exists s; exact Hs.
Qed.

Lemma word_loop_short (n : Z) (data : buffer) :
0 <= off <= Z.of_nat (length bytes) -> 0 <= n ->
Z.of_nat (length bytes) < off + 2 * n ->
exists s, for_upto n body ({| content := bytes; cursor := off |}, data)
          = Return1 s.
Proof.
intros Hoff Hn Hlen.
(* the number of whole words the file holds *)
set (k := (Z.of_nat (length bytes) - off) / 2).
assert (Hk : 0 <= k < n /\ off + 2 * k <= Z.of_nat (length bytes)
             /\ Z.of_nat (length bytes) < off + 2 * (k + 1)).
{ pose proof (Z.div_mod (Z.of_nat (length bytes) - off) 2 ltac:(lia)) as H.
  pose proof (Z.mod_pos_bound (Z.of_nat (length bytes) - off) 2 ltac:(lia)).
  fold k in H. lia. }
destruct (for_upto_break
  (fun x s => content (fst s) = bytes /\ cursor (fst s) = off + 2 * x)
  (fun _ => True) n k body ({| content := bytes; cursor := off |}, data))
  as (s & Hs & _).
- lia.
- cbn; split; [reflexivity|lia].
- intros x s Hx HI. apply word_loop_step; [lia|lia|lia|exact HI].
- intros [f1 d1] [Hc Hp]; cbn [fst] in *.
  pose proof (body_spec k f1 d1) as Hb.
  unfold logimage_read_ushort in Hb.
  rewrite readExact_eof in Hb; [|lia|rewrite Hc; lia].
  eexists; split; [exact Hb|exact I].
- exists s; exact Hs.
Qed.

End WordLoopStatus.

(** ** The 16-bit unpacker *)

Lemma uint_small (z : Z) : 0 <= z < 2 ^ 32 -> uint z = z.
Proof. intros H; unfold uint; apply Z.mod_small; exact H. Qed.

Lemma logImageElementGetData16_run (logImage : LogImageFile)
    (logElement : LogImageElement) (f : stream) (data : buffer) :
  let n := width logImage * height logImage * depth logElement in
  0 <= n < 2 ^ 32 ->
  0 <= dataOffset logElement ->
  dataOffset logElement + 2 * n <= Z.of_nat (length (content f)) ->
  Z.of_nat (length data) = n ->
  logImageElementGetData16 logImage logElement f data =
    (0,
     {| content := content f; cursor := dataOffset logElement + 2 * n |},
     decoded
       (fun i =>
          F32.div
            (F32.of_Z
               (swap_ushort
                  (word_at 2 (content f) (dataOffset logElement + 2 * i))
                  (isMSB logImage)))
            (F32.of_Z 65535))
       n).
Proof.
  intros n Hn Hoff Hlen Hdata. unfold logImageElementGetData16.
  fold n. rewrite (uint_small n Hn).
  rewrite logimage_fseek_ok by lia.
  rewrite (word_loop_run
             (fun p => F32.div (F32.of_Z (swap_ushort p (isMSB logImage)))
                               (F32.of_Z 65535)));
    [|intros; reflexivity|lia|lia|lia|lia].
  rewrite drop_ge by lia. rewrite app_nil_r. reflexivity.
Qed.

(** X1.  [logImageElementGetData16] on a file that holds the whole
    element: it returns 0, leaves the read position just behind the last
    sample and stores, for every [i] below [width * height * depth],
    sample [i] as the (swapped) 16-bit word at byte [dataOffset + 2 i]
    divided by 65535; nothing of the buffer's former content is left. *)
Theorem logImageElementGetData16_samples (logImage : LogImageFile)
    (logElement : LogImageElement) (f : stream) (data : buffer) :
  let n := width logImage * height logImage * depth logElement in
  0 <= n < 2 ^ 32 ->
  0 <= dataOffset logElement ->
  dataOffset logElement + 2 * n <= Z.of_nat (length (content f)) ->
  Z.of_nat (length data) = n ->
  logImageElementGetData16 logImage logElement f data =
    (0,
     {| content := content f; cursor := dataOffset logElement + 2 * n |},
     decoded
       (fun i =>
          F32.div
            (F32.of_Z
               (swap_ushort
                  (word_at 2 (content f) (dataOffset logElement + 2 * i))
                  (isMSB logImage)))
            (F32.of_Z 65535))
       n).
Proof. apply logImageElementGetData16_run. Qed.

Lemma logImageElementGetData16_samples_witness :
  logImageElementGetData16 x16_image x16_element
    {| content := x16_bytes; cursor := 0 |} (replicate 4 None)
  = (0, {| content := x16_bytes; cursor := 10 |},
     decoded
       (fun i =>
          F32.div
            (F32.of_Z (swap_ushort (word_at 2 x16_bytes (2 + 2 * i)) 1))
            (F32.of_Z 65535))
       4).
Proof.
  apply (logImageElementGetData16_samples x16_image x16_element
           {| content := x16_bytes; cursor := 0 |} (replicate 4 None));
    cbn; lia.
Defined.

(** X2.  [logImageElementGetData12] and [logImageElementGetData16]
    succeed exactly when the file holds all the 16-bit cells of the
    element from [dataOffset] on: a negative or too large offset, or a
    file that ends before the last cell, gives status 1. *)
Theorem logImageElementGetData16_status (logImage : LogImageFile)
    (logElement : LogImageElement) (f : stream) (data : buffer) :
  let n := width logImage * height logImage * depth logElement in
  0 <= n < 2 ^ 32 ->
  n <= Z.of_nat (length data) ->
  let complete :=
    0 <= dataOffset logElement /\
    dataOffset logElement + 2 * n <= Z.of_nat (length (content f)) in
  (fst (fst (logImageElementGetData16 logImage logElement f data)) = 0
     <-> complete) /\
  (fst (fst (logImageElementGetData12 logImage logElement f data)) = 0
     <-> complete).
Proof.
  intros n Hn Hdata complete; subst complete.
  unfold logImageElementGetData16, logImageElementGetData12.
  fold n. rewrite (uint_small n Hn).
  destruct (Z.lt_ge_cases (dataOffset logElement) 0) as [Hneg|Hoff].
  { rewrite logimage_fseek_fails by lia. cbn. split; split; intros; lia. }
  destruct (Z.lt_ge_cases (Z.of_nat (length (content f)))
              (dataOffset logElement)) as [Hbig|Hfit].
  { rewrite logimage_fseek_fails by lia. cbn. split; split; intros; lia. }
  rewrite logimage_fseek_ok by lia.
  assert (H16 : forall i f1 d1,
    match logimage_read_ushort f1 with
    | None =>
        match logimage_read_ushort f1 with
        | None => Return1 (f1, d1)
        | Some (pixel, f2) =>
            let pixel := swap_ushort pixel (isMSB logImage) in
            Continue (f2, store i (F32.div (F32.of_Z pixel) (F32.of_Z 65535))
                            d1)
        end = Return1 (f1, d1)
    | Some (_, f2) => exists d2,
        match logimage_read_ushort f1 with
        | None => Return1 (f1, d1)
        | Some (pixel, f2) =>
            let pixel := swap_ushort pixel (isMSB logImage) in
            Continue (f2, store i (F32.div (F32.of_Z pixel) (F32.of_Z 65535))
                            d1)
        end = Continue (f2, d2)
    end).
  { intros i f1 d1. destruct (logimage_read_ushort f1) as [[p f2]|];
      [eexists; reflexivity|reflexivity]. }
  assert (H12 : forall i f1 d1,
    match logimage_read_ushort f1 with
    | None =>
        match logimage_read_ushort f1 with
        | None => Return1 (f1, d1)
        | Some (pixel, f2) =>
            let pixel := swap_ushort pixel (isMSB logImage) in
            if packing logElement =? 1 then
              Continue (f2, store i (F32.div (F32.of_Z (Z.shiftr pixel 4))
                                             (F32.of_Z 4095)) d1)
            else if packing logElement =? 2 then
              Continue (f2, store i (F32.div (F32.of_Z pixel)
                                             (F32.of_Z 4095)) d1)
            else Continue (f2, d1)
        end = Return1 (f1, d1)
    | Some (_, f2) => exists d2,
        match logimage_read_ushort f1 with
        | None => Return1 (f1, d1)
        | Some (pixel, f2) =>
            let pixel := swap_ushort pixel (isMSB logImage) in
            if packing logElement =? 1 then
              Continue (f2, store i (F32.div (F32.of_Z (Z.shiftr pixel 4))
                                             (F32.of_Z 4095)) d1)
            else if packing logElement =? 2 then
              Continue (f2, store i (F32.div (F32.of_Z pixel)
                                             (F32.of_Z 4095)) d1)
            else Continue (f2, d1)
        end = Continue (f2, d2)
    end).
  { intros i f1 d1. destruct (logimage_read_ushort f1) as [[p f2]|];
      [|reflexivity].
    cbv zeta. destruct (packing logElement =? 1);
      [|destruct (packing logElement =? 2)]; eexists; reflexivity. }
  destruct (Z.le_gt_cases (dataOffset logElement + 2 * n)
              (Z.of_nat (length (content f)))) as [Hlen|Hshort].
  - split.
    + match goal with |- context [@for_upto ?S n ?b ?s] =>
        destruct (word_loop_complete b H16 (content f)
                    (dataOffset logElement) n data) as (s' & Hs);
          [lia|lia|lia|];
        destruct (@for_upto S n b s) as [[f' d']|[f' d']] eqn:E
      end; [|discriminate (eq_trans (eq_sym E) Hs)].
      cbn. split; intros; [split; lia|reflexivity].
    + match goal with |- context [@for_upto ?S n ?b ?s] =>
        destruct (word_loop_complete b H12 (content f)
                    (dataOffset logElement) n data) as (s' & Hs);
          [lia|lia|lia|];
        destruct (@for_upto S n b s) as [[f' d']|[f' d']] eqn:E
      end; [|discriminate (eq_trans (eq_sym E) Hs)].
      cbn. split; intros; [split; lia|reflexivity].
  - split.
    + match goal with |- context [@for_upto ?S n ?b ?s] =>
        destruct (word_loop_short b H16 (content f)
                    (dataOffset logElement) n data) as (s' & Hs);
          [lia|lia|lia|];
        destruct (@for_upto S n b s) as [[f' d']|[f' d']] eqn:E
      end; [discriminate (eq_trans (eq_sym E) Hs)|].
      cbn. split; intros; lia.
    + match goal with |- context [@for_upto ?S n ?b ?s] =>
        destruct (word_loop_short b H12 (content f)
                    (dataOffset logElement) n data) as (s' & Hs);
          [lia|lia|lia|];
        destruct (@for_upto S n b s) as [[f' d']|[f' d']] eqn:E
      end; [discriminate (eq_trans (eq_sym E) Hs)|].
      cbn. split; intros; lia.
Qed.

Lemma logImageElementGetData16_status_witness :
  (fst (fst (logImageElementGetData16 x16_image x16_element
               {| content := take 9 x16_bytes; cursor := 0 |}
               (replicate 4 None))) = 0
   <-> 0 <= 2 /\ 2 + 2 * 4 <= 9)
  /\
  (fst (fst (logImageElementGetData12 x16_image x16_element
               {| content := take 9 x16_bytes; cursor := 0 |}
               (replicate 4 None))) = 0
   <-> 0 <= 2 /\ 2 + 2 * 4 <= 9).
Proof.
  apply (logImageElementGetData16_status x16_image x16_element
           {| content := take 9 x16_bytes; cursor := 0 |} (replicate 4 None));
    cbn; lia.
Defined.

(** ** Writing rows *)

(** Storing to the cells 0 .. m-1 of a row, one after the other. *)
Lemma fill_cells (g : Z -> Z) (m : Z) (row : list (option Z)) :
  0 <= m <= Z.of_nat (length row) ->
  for_upto m (fun x row1 => Continue (store x (g x) row1)) row =
    Continue (((fun x => Some (g x)) <$> seqZ 0 m) ++ drop (Z.to_nat m) row).
Proof.
  intros Hm.
  destruct (for_upto_run
    (fun x r => r = ((fun x => Some (g x)) <$> seqZ 0 x)
                    ++ drop (Z.to_nat x) row)
    m (fun x row1 => Continue (store x (g x) row1)) row) as (r & Hr & ->).
  - lia.
  - reflexivity.
  - intros x r Hx ->. eexists; split; [reflexivity|].
    apply (store_next g). lia.
  - exact Hr.
Qed.

Lemma seqZ_rows (y m : Z) :
  0 <= y -> 0 <= m ->
  seqZ 0 ((y + 1) * m) = seqZ 0 (y * m) ++ (Z.add (y * m) <$> seqZ 0 m).
Proof.
  intros Hy Hm. replace ((y + 1) * m) with (y * m + m) by lia.
  rewrite seqZ_app by nia. rewrite fmap_add_seqZ.
  replace (y * m + 0) with (0 + y * m) by lia. reflexivity.
Qed.

(** The rows of an image written in order, when every write succeeds:
    [R y] is the content of the row buffer at the time row [y] is
    written, and [Inv] what holds of the row buffer between two rows. *)
Lemma write_rows_run (logImage : LogImageFile) (cell : nat)
    (row0 : list (option Z))
    (fill : Z -> list (option Z) -> list (option Z)) (f : outfile)
    (R : Z -> list (option Z)) (Inv : list (option Z) -> Prop) :
  0 <= height logImage ->
  (Z.to_nat (height logImage) <= budget f)%nat ->
  Inv row0 ->
  (forall y row, 0 <= y < height logImage -> Inv row ->
     Inv (fill y row) /\ row_bytes cell (fill y row) = R y) ->
  write_rows logImage cell row0 fill f =
    (0, {| written := written f ++ (seqZ 0 (height logImage) ≫= R);
           budget := (budget f - Z.to_nat (height logImage))%nat |}).
Proof.
  intros Hh Hb Hrow0 Hfill. unfold write_rows.
  match goal with |- context [@for_upto ?S ?n ?b ?s] =>
    destruct (for_upto_run
      (fun y (st : list (option Z) * outfile) =>
         Inv (fst st)
         /\ snd st = {| written := written f ++ (seqZ 0 y ≫= R);
                        budget := (budget f - Z.to_nat y)%nat |})
      n b s Hh) as ([row' f'] & Hs & Hlen & Hf'); [| |rewrite Hs]
  end.
  - cbn. split; [exact Hrow0|]. rewrite app_nil_r, Nat.sub_0_r.
    destruct f; reflexivity.
  - intros y [row f1] Hy [Hlen Hf1]; cbn [fst snd] in *.
    destruct (Hfill y row Hy Hlen) as [Hlen' Hbytes].
    rewrite Hbytes, Hf1. unfold logimage_fwrite; cbn [budget written].
    destruct (budget f - Z.to_nat y)%nat as [|k] eqn:Ek; [lia|].
    eexists; split; [reflexivity|]. cbn [fst snd]. split; [exact Hlen'|].
    f_equal.
    + rewrite <- app_assoc. f_equal.
      rewrite seqZ_app by lia. rewrite bind_app. f_equal.
      change (seqZ (0 + y) 1) with [y]. cbn [mbind list_bind].
      symmetry; apply app_nil_r.
    + lia.
  - cbn [snd] in Hf'. rewrite Hf'. reflexivity.
Qed.

(** A failed write ends the function at once with status 1. *)
Lemma write_rows_status (logImage : LogImageFile) (cell : nat)
    (row0 : list (option Z))
    (fill : Z -> list (option Z) -> list (option Z)) (f : outfile) :
  0 <= height logImage ->
  let r := write_rows logImage cell row0 fill f in
  (fst r = 0 <-> (Z.to_nat (height logImage) <= budget f)%nat) /\
  budget (snd r) = (budget f - Z.to_nat (height logImage))%nat.
Proof.
  intros Hh r; subst r. unfold write_rows.
  match goal with |- context [@for_upto ?S ?n ?b ?s] =>
    set (body := b); set (s0 := s)
  end.
  destruct (le_lt_dec (Z.to_nat (height logImage)) (budget f)) as [Hb|Hb].
  - destruct (for_upto_run
      (fun y (s : list (option Z) * outfile) =>
         budget (snd s) = (budget f - Z.to_nat y)%nat)
      (height logImage) body s0 Hh) as ([row' f'] & Hs & Hf').
    + cbn. lia.
    + intros y [row f1] Hy Hf1; cbn [snd] in *. subst body; cbn beta iota.
      unfold logimage_fwrite. rewrite Hf1.
      destruct (budget f - Z.to_nat y)%nat as [|k] eqn:Ek; [lia|].
      eexists; split; [reflexivity|]. cbn. lia.
    + rewrite Hs. cbn [fst snd] in *. split; [split; auto|exact Hf'].
  - destruct (for_upto_break
      (fun y (s : list (option Z) * outfile) =>
         budget (snd s) = (budget f - Z.to_nat y)%nat)
      (fun s => budget (snd s) = 0%nat)
      (height logImage) (Z.of_nat (budget f)) body s0) as ([row' f'] & Hs & Hf').
    + lia.
    + cbn. lia.
    + intros y [row f1] Hy Hf1; cbn [snd] in *. subst body; cbn beta iota.
      unfold logimage_fwrite. rewrite Hf1.
      destruct (budget f - Z.to_nat y)%nat as [|k] eqn:Ek; [lia|].
      eexists; split; [reflexivity|]. cbn. lia.
    + intros [row f1] Hf1; cbn [snd] in *. subst body; cbn beta iota.
      unfold logimage_fwrite. rewrite Hf1.
      replace (budget f - Z.to_nat (Z.of_nat (budget f)))%nat with 0%nat by lia.
      eexists; split; [reflexivity|]. cbn. lia.
    + rewrite Hs. cbn [fst snd] in *.
      split; [split; intros; [discriminate|lia]|lia].
Qed.

(** ** Cells of a fixed size in a byte string *)

Lemma bind_rows {A : Type} (F : Z -> list A) (m : Z) (h : nat) :
  0 <= m ->
  (y ← seqZ 0 (Z.of_nat h); x ← seqZ 0 m; F (y * m + x))
  = (i ← seqZ 0 (Z.of_nat h * m); F i).
Proof.
  intros Hm. induction h as [|h IH]; [reflexivity|].
  rewrite seqZ_S, bind_app, IH.
  replace (Z.of_nat (S h) * m) with ((Z.of_nat h + 1) * m) by lia.
  rewrite seqZ_rows, bind_app by lia. f_equal.
  cbn [mbind list_bind]. rewrite app_nil_r, list_fmap_bind.
  reflexivity.
Qed.

Lemma fmap_bind_cells {A B C : Type} (f : B -> C) (F : A -> list B)
    (l : list A) :
  f <$> (l ≫= F) = l ≫= (fun x => f <$> F x).
Proof.
  induction l as [|a l IH]; [reflexivity|].
  cbn [mbind list_bind]. rewrite fmap_app, IH. reflexivity.
Qed.

Lemma length_bind_cells {A B : Type} (F : A -> list B) (c : nat)
    (l : list A) :
  (forall x, length (F x) = c) -> length (l ≫= F) = (length l * c)%nat.
Proof.
  intros HF. induction l as [|a l IH]; [reflexivity|].
  cbn [mbind list_bind]. rewrite length_app, IH, HF. cbn [length]. lia.
Qed.

(** Cell [i] of a string of cells of [c] bytes that follows a header. *)
Lemma cell_at {B : Type} (F : Z -> list B) (c : nat) (hdr : list B)
    (n i : Z) :
  (forall x, length (F x) = c) -> 0 <= i < n ->
  take c (drop (Z.to_nat (Z.of_nat (length hdr) + Z.of_nat c * i))
               (hdr ++ (seqZ 0 n ≫= F)))
  = F i.
Proof.
  intros HF Hi.
  replace (Z.to_nat (Z.of_nat (length hdr) + Z.of_nat c * i))
    with (length hdr + Z.to_nat i * c)%nat by nia.
  rewrite drop_app_add.
  replace n with (i + (1 + (n - i - 1))) by lia.
  rewrite seqZ_app, bind_app by lia.
  rewrite drop_app_length'
    by (rewrite (length_bind_cells F c), length_seqZ by exact HF; lia).
  rewrite seqZ_app, bind_app by lia.
  change (seqZ (0 + i) 1) with [i]. cbn [mbind list_bind].
  rewrite app_nil_r. apply take_app_length'. symmetry; apply HF.
Qed.

(** ** The 16-bit cell *)

Lemma ushort_range (z : Z) : 0 <= ushort z < 65536.
Proof. unfold ushort. apply Z.mod_pos_bound. reflexivity. Qed.

Lemma forall_range_spec (k : nat) (P : Z -> bool) :
  forall base, forall_range k base P = true ->
  forall v, base <= v < base + 2 ^ Z.of_nat k -> P v = true.
Proof.
  induction k as [|k IH]; intros base H v Hv.
  - cbn in *. replace v with base by lia. exact H.
  - cbn [forall_range] in H. apply andb_prop in H as [H1 H2].
    rewrite Nat2Z.inj_succ, Z.pow_succ_r in Hv by lia.
    destruct (Z.lt_ge_cases v (base + 2 ^ Z.of_nat k)).
    + apply (IH base H1). lia.
    + apply (IH _ H2). lia.
Qed.

Lemma cell16_table :
  forall_range 16 0
    (fun v => (le_combine (bytes16 v) =? v)
              && (swap_ushort (swap_ushort v 1) 1 =? v)
              && (0 <=? swap_ushort v 1)
              && (swap_ushort v 1 <? 65536)) = true.
Proof. vm_cast_no_check (eq_refl true). Qed.

Lemma cell16 (v : Z) :
  0 <= v < 65536 ->
  le_combine (bytes16 v) = v
  /\ swap_ushort (swap_ushort v 1) 1 = v
  /\ 0 <= swap_ushort v 1 < 65536.
Proof.
  intros Hv.
  pose proof (forall_range_spec 16 _ 0 cell16_table v ltac:(cbn; lia)) as T.
  cbv beta in T.
  apply andb_prop in T as [T T4]. apply andb_prop in T as [T T3].
  apply andb_prop in T as [T1 T2]. lia.
Qed.

Lemma swap_ushort_flag (v m : Z) :
  swap_ushort v m = if m =? 0 then v else swap_ushort v 1.
Proof. unfold swap_ushort. destruct (m =? 0); reflexivity. Qed.

Lemma swap_ushort_range (v m : Z) :
  0 <= v < 65536 -> 0 <= swap_ushort v m < 65536.
Proof.
  intros Hv. rewrite swap_ushort_flag. destruct (m =? 0); [exact Hv|].
  apply cell16; exact Hv.
Qed.

Lemma swap_ushort_involutive (v m : Z) :
  0 <= v < 65536 -> swap_ushort (swap_ushort v m) m = v.
Proof.
  intros Hv. rewrite !(swap_ushort_flag _ m). destruct (m =? 0); [reflexivity|].
  apply cell16; exact Hv.
Qed.

(** ** The 16-bit packer *)

Lemma logImageSetData16_run (logImage : LogImageFile)
    (logElement : LogImageElement) (data : list float) (f : outfile) :
  bitsPerSample logElement = 16 ->
  depth logElement = imageDepth logImage ->
  0 <= width logImage -> 0 <= height logImage -> 0 <= imageDepth logImage ->
  2 * (width logImage * imageDepth logImage) < size_t_max ->
  (Z.to_nat (height logImage) <= budget f)%nat ->
  logImageSetData16 true logImage logElement data f =
    (0, {| written := written f ++ (Some <$> encode16 logImage data);
           budget := (budget f - Z.to_nat (height logImage))%nat |}).
Proof.
  intros Hbps Hd Hw Hh HD Hsmall Hb.
  unfold logImageSetData16. cbn [negb].
  set (m := width logImage * imageDepth logImage).
  assert (Hm : 0 <= m) by (subst m; nia).
  assert (HL : getRowLength (width logImage) logElement = 2 * m).
  { unfold getRowLength. rewrite Hbps, Hd. fold m.
    rewrite (size_t_small m) by (unfold size_t_max in *; lia).
    rewrite size_t_small by (unfold size_t_max in *; lia). lia. }
  rewrite HL.
  rewrite (write_rows_run logImage 2 _ _ f
             (fun y => Some <$> (x ← seqZ 0 m;
                                 bytes16 (code16 logImage data (y * m + x))))
             (fun row => length row = Z.to_nat m)); [|exact Hh|exact Hb| |].
  - f_equal. f_equal. f_equal.
    rewrite <- (fmap_bind_cells Some). f_equal. unfold encode16. fold m.
    rewrite <- (Z2Nat.id (height logImage)) by exact Hh.
    apply (bind_rows (fun i => bytes16 (code16 logImage data i))). exact Hm.
  - unfold malloc_row. rewrite length_replicate.
    replace (2 * m / 2) with m by (rewrite Z.mul_comm, Z.div_mul; lia).
    reflexivity.
  - intros y row Hy Hrow.
    rewrite (fill_cells
               (fun x => swap_ushort
                           (ushort (float_uint
                              (load (y * width logImage * imageDepth logImage + x)
                                    data) 65535))
                           (isMSB logImage)) m row) by lia.
    cbn [flow_state].
    rewrite drop_ge, app_nil_r by lia. split.
    + rewrite length_fmap, length_seqZ. reflexivity.
    + unfold row_bytes. rewrite <- list_fmap_compose.
      rewrite fmap_bind_cells.
      induction (seqZ 0 m) as [|x l IH]; [reflexivity|].
      cbn [fmap list_fmap concat mbind list_bind]. rewrite IH. f_equal.
      cbn. unfold code16, m. rewrite Z.mul_assoc. reflexivity.
Qed.

(** X3.  [logImageSetData16] appends to the file exactly two bytes a
    sample, rows without padding, every byte initialised: the cell of
    sample [i] holds the code [float_uint(data[i], 65535)] cut to 16 bits
    and swapped as [isMSB] says; it returns 0 and makes [height]
    writes. *)
Theorem logImageSetData16_bytes (logImage : LogImageFile)
    (logElement : LogImageElement) (data : list float) (f : outfile) :
  bitsPerSample logElement = 16 ->
  depth logElement = imageDepth logImage ->
  0 <= width logImage -> 0 <= height logImage -> 0 <= imageDepth logImage ->
  2 * (width logImage * imageDepth logImage) < size_t_max ->
  (Z.to_nat (height logImage) <= budget f)%nat ->
  logImageSetData16 true logImage logElement data f =
    (0, {| written := written f ++ (Some <$> encode16 logImage data);
           budget := (budget f - Z.to_nat (height logImage))%nat |}).
Proof. apply logImageSetData16_run. Qed.

Lemma logImageSetData16_bytes_witness :
  logImageSetData16 true x16_image x16_element x16_samples
    {| written := [Some 83; Some 68]; budget := 2 |}
  = (0, {| written := [Some 83; Some 68]
                      ++ (Some <$> encode16 x16_image x16_samples);
           budget := 0 |}).
Proof.
  apply (logImageSetData16_bytes x16_image x16_element x16_samples
           {| written := [Some 83; Some 68]; budget := 2 |});
    cbn; first [reflexivity | lia].
Defined.

(** X4.  Round trip of the 16-bit engines: what [logImageSetData16]
    writes behind a header, [logImageElementGetData16] reads back with
    the same handle as the 16-bit codes of the samples divided by 65535,
    whatever the byte order flag. *)
Theorem logImageSetData16_GetData16_round_trip (logImage : LogImageFile)
    (logElement : LogImageElement) (data : list float) (hdr : list Z)
    (writes : nat) (buf : buffer) :
  let n := width logImage * height logImage * depth logElement in
  bitsPerSample logElement = 16 ->
  depth logElement = imageDepth logImage ->
  0 <= width logImage -> 0 <= height logImage -> 0 <= imageDepth logImage ->
  n < 2 ^ 32 ->
  2 * (width logImage * imageDepth logImage) < size_t_max ->
  (Z.to_nat (height logImage) <= writes)%nat ->
  dataOffset logElement = Z.of_nat (length hdr) ->
  Z.of_nat (length buf) = n ->
  exists bytes,
    written (snd (logImageSetData16 true logImage logElement data
                    {| written := Some <$> hdr; budget := writes |}))
      = Some <$> bytes
    /\ logImageElementGetData16 logImage logElement
         {| content := bytes; cursor := 0 |} buf
       = (0, {| content := bytes; cursor := Z.of_nat (length bytes) |},
          decoded
            (fun i =>
               F32.div
                 (F32.of_Z (ushort (float_uint (load i data) 65535)))
                 (F32.of_Z 65535))
            n).
Proof.
  intros n Hbps Hd Hw Hh HD Hn Hsmall Hb Hoff Hbuf.
  rewrite logImageSetData16_run by assumption. cbn [snd written].
  exists (hdr ++ encode16 logImage data). split; [apply eq_sym, fmap_app|].
  assert (Hn0 : 0 <= n) by (subst n; rewrite Hd; nia).
  assert (Hcells : encode16 logImage data
                   = seqZ 0 n ≫= (fun i => bytes16 (code16 logImage data i))).
  { unfold encode16. subst n. rewrite Hd. f_equal. f_equal. lia. }
  assert (Hlen : Z.of_nat (length (hdr ++ encode16 logImage data))
                 = Z.of_nat (length hdr) + 2 * n).
  { rewrite length_app, Hcells,
      (length_bind_cells _ 2%nat) by reflexivity.
    rewrite length_seqZ. lia. }
  unfold logImageElementGetData16. fold n.
  rewrite (uint_small n) by lia.
  rewrite logimage_fseek_ok by (cbn [content]; lia). cbn [content].
  rewrite (word_loop_run
             (fun p => F32.div (F32.of_Z (swap_ushort p (isMSB logImage)))
                               (F32.of_Z 65535)));
    [|intros; reflexivity|lia|lia|lia|lia].
  rewrite drop_ge, app_nil_r by lia.
  f_equal; [f_equal; f_equal; lia|].
  unfold decoded. apply list_fmap_ext. intros k i Hk.
  apply lookup_seqZ in Hk as [-> Hk]. f_equal. f_equal. f_equal.
  unfold word_at. rewrite Hoff, Hcells.
  rewrite (cell_at (fun i => bytes16 (code16 logImage data i)) 2 hdr n)
    by (try reflexivity; lia).
  pose proof (ushort_range (float_uint (load (0 + Z.of_nat k) data) 65535)).
  unfold code16.
  rewrite (proj1 (cell16 _ (swap_ushort_range _ (isMSB logImage) H))).
  apply swap_ushort_involutive. exact H.
Qed.

Lemma logImageSetData16_GetData16_round_trip_witness :
  exists bytes,
    written (snd (logImageSetData16 true x16_image x16_element x16_samples
                    {| written := Some <$> [83; 68]; budget := 2 |}))
      = Some <$> bytes
    /\ logImageElementGetData16 x16_image x16_element
         {| content := bytes; cursor := 0 |} (replicate 4 None)
       = (0, {| content := bytes; cursor := Z.of_nat (length bytes) |},
          decoded
            (fun i =>
               F32.div
                 (F32.of_Z (ushort (float_uint (load i x16_samples) 65535)))
                 (F32.of_Z 65535))
            4).
Proof.
  apply (logImageSetData16_GetData16_round_trip x16_image x16_element
           x16_samples [83; 68] 2 (replicate 4 None));
    cbn; first [reflexivity | lia].
Defined.

(** ** Row length and dispatch *)

(** The five sample sizes of the switches on [bitsPerSample]; any other
    value takes the default branch. *)
Lemma bps_cases (bps : Z) :
  bps = 1 \/ bps = 8 \/ bps = 10 \/ bps = 12 \/ bps = 16 \/
  forall (T : Type) (a b c d e f : T),
    match bps with
    | 1 => a | 8 => b | 10 => c | 12 => d | 16 => e | _ => f
    end = f.
Proof.
  destruct bps as [|p|p]; [do 5 right; reflexivity| |do 5 right; reflexivity].
  repeat (first
    [ left; reflexivity
    | right; left; reflexivity
    | right; right; left; reflexivity
    | right; right; right; left; reflexivity
    | right; right; right; right; left; reflexivity
    | do 5 right; reflexivity
    | destruct p as [p|p|] ]).
Qed.

Lemma size_t_mul4 (z : Z) : size_t (z * 4) mod 4 = 0.
Proof.
  unfold size_t, size_t_max.
  pose proof (Z.mod_eq (z * 4) (2 ^ 64) ltac:(lia)) as H.
  replace ((z * 4) mod 2 ^ 64)
    with ((z - 2 ^ 62 * (z * 4 / 2 ^ 64)) * 4) by lia.
  apply Z.mod_mul; lia.
Qed.

Lemma size_t_mul2 (z : Z) : size_t (z * 2) mod 2 = 0.
Proof.
  unfold size_t, size_t_max.
  pose proof (Z.mod_eq (z * 2) (2 ^ 64) ltac:(lia)) as H.
  replace ((z * 2) mod 2 ^ 64)
    with ((z - 2 ^ 63 * (z * 2 / 2 ^ 64)) * 2) by lia.
  apply Z.mod_mul; lia.
Qed.

(** X5.  Alignment of the rows: [getRowLength] is a whole number of
    16-bit cells for every element and width, and a whole number of
    32-bit words unless the samples lie in 16-bit cells (16 bits, or 12
    bits filled); this holds even where the [size_t] arithmetic wraps. *)
Theorem getRowLength_aligned (w : Z) (e : LogImageElement) :
  getRowLength w e mod 2 = 0 /\
  (bitsPerSample e <> 16 ->
   ~ (bitsPerSample e = 12 /\ (packing e = 1 \/ packing e = 2)) ->
   getRowLength w e mod 4 = 0).
Proof.
  assert (H4 : forall z, size_t (z * 4) mod 2 = 0).
  { intros z. pose proof (size_t_mul4 z) as H.
    pose proof (Z.mod_eq (size_t (z * 4)) 4 ltac:(lia)) as H1.
    replace (size_t (z * 4)) with ((size_t (z * 4) / 4 * 2) * 2) by lia.
    apply Z.mod_mul; lia. }
  unfold getRowLength.
  destruct (bps_cases (bitsPerSample e))
    as [-> | [-> | [-> | [-> | [-> | Hother]]]]].
  - split; [apply H4|intros; apply size_t_mul4].
  - split; [apply H4|intros; apply size_t_mul4].
  - destruct (packing e =? 0);
      [|destruct ((packing e =? 1) || (packing e =? 2))];
      (split; [first [apply H4|reflexivity]
              |intros; first [apply size_t_mul4|reflexivity]]).
  - destruct (Z.eqb_spec (packing e) 0) as [H0|H0].
    + split; [apply H4|intros; apply size_t_mul4].
    + destruct (Z.eqb_spec (packing e) 1) as [H1|H1];
        [|destruct (Z.eqb_spec (packing e) 2) as [H2|H2]]; cbn [orb].
      * split; [apply size_t_mul2|intros _ Hn; exfalso; apply Hn; auto].
      * split; [apply size_t_mul2|intros _ Hn; exfalso; apply Hn; auto].
      * split; [reflexivity|intros; reflexivity].
  - split; [apply size_t_mul2|intros Hn; contradiction].
  - rewrite Hother. split; [reflexivity|intros; reflexivity].
Qed.

Lemma getRowLength_aligned_witness :
  getRowLength 5 (c4_element 10) mod 2 = 0 /\
  (bitsPerSample (c4_element 10) <> 16 ->
   ~ (bitsPerSample (c4_element 10) = 12
      /\ (packing (c4_element 10) = 1 \/ packing (c4_element 10) = 2)) ->
   getRowLength 5 (c4_element 10) mod 4 = 0).
Proof. apply (getRowLength_aligned 5 (c4_element 10)). Defined.

Lemma not_supported_cases (bps pack : Z) :
  ~ supported bps pack ->
  bps <> 1 /\ bps <> 8 /\ bps <> 16 /\
  ((bps = 10 \/ bps = 12) -> pack <> 0 /\ pack <> 1 /\ pack <> 2).
Proof. unfold supported. intros H. repeat split; intros; lia. Qed.

(** X6.  [getRowLength] returns 0 exactly for the formats the engines
    do not support: for a width and a depth of at least 1 whose row fits
    [size_t], the length is 0 if and only if the (bitsPerSample, packing)
    pair is not a supported one. *)
Theorem getRowLength_zero_iff_unsupported (w : Z) (e : LogImageElement) :
  1 <= w -> 1 <= depth e -> w * depth e * 12 < size_t_max ->
  (getRowLength w e = 0 <-> ~ supported (bitsPerSample e) (packing e)).
Proof.
  intros Hw Hd Hfit.
  assert (Hwd : 1 <= w * depth e) by nia.
  assert (Hpad : forall a b, 1 <= a <= w * depth e * b -> 0 < b <= 32 ->
            a <= w * depth e * 12 ->
            0 < size_t (size_t (size_t (a - 1) / b + 1) * 4)).
  { intros a b Ha Hb Ha'.
    rewrite padded_row;
      [|lia|lia|intros q Hq Hq'; assert (q < w * depth e) by nia; lia].
    rewrite <- ceil_div_pred by lia.
    pose proof (Z.div_pos (a - 1) b ltac:(lia) ltac:(lia)). lia. }
  unfold getRowLength, supported.
  rewrite (size_t_small (w * depth e)) by lia.
  destruct (bps_cases (bitsPerSample e))
    as [-> | [-> | [-> | [-> | [-> | Hother]]]]].
  - pose proof (Hpad (w * depth e) 32 ltac:(lia) ltac:(lia) ltac:(lia)). lia.
  - pose proof (Hpad (w * depth e) 4 ltac:(lia) ltac:(lia) ltac:(lia)). lia.
  - rewrite (size_t_small (w * depth e * 10)) by lia.
    pose proof (Hpad (w * depth e * 10) 32 ltac:(lia) ltac:(lia) ltac:(lia)).
    pose proof (Hpad (w * depth e) 3 ltac:(lia) ltac:(lia) ltac:(lia)).
    destruct (Z.eqb_spec (packing e) 0);
      [|destruct (Z.eqb_spec (packing e) 1);
        [|destruct (Z.eqb_spec (packing e) 2)]]; cbn [orb]; lia.
  - rewrite (size_t_small (w * depth e * 12)) by lia.
    pose proof (Hpad (w * depth e * 12) 32 ltac:(lia) ltac:(lia) ltac:(lia)).
    rewrite (size_t_small (w * depth e * 2)) by lia.
    destruct (Z.eqb_spec (packing e) 0);
      [|destruct (Z.eqb_spec (packing e) 1);
        [|destruct (Z.eqb_spec (packing e) 2)]]; cbn [orb]; lia.
  - rewrite (size_t_small (w * depth e * 2)) by lia. lia.
  - rewrite Hother. split; [intros _|reflexivity].
    intros [H|[H|[H|[[H|H] _]]]];
      specialize (Hother Z 1 8 10 12 16 0); rewrite H in Hother;
      discriminate Hother.
Qed.

Lemma getRowLength_zero_iff_unsupported_witness :
  getRowLength 5 (c4_element 14) = 0
  <-> ~ supported (bitsPerSample (c4_element 14)) (packing (c4_element 14)).
Proof.
  apply (getRowLength_zero_iff_unsupported 5 (c4_element 14));
    cbn; first [reflexivity | lia].
Defined.

Lemma logImageElementGetData_refuses (logImage : LogImageFile)
    (logElement : LogImageElement) (f : stream) (data : buffer) :
  ~ supported (bitsPerSample logElement) (packing logElement) ->
  logImageElementGetData logImage logElement f data = (1, f, data).
Proof.
  intros Hs. apply not_supported_cases in Hs as (H1 & H8 & H16 & Hp).
  unfold logImageElementGetData.
  destruct (bps_cases (bitsPerSample logElement))
    as [H | [H | [H | [H | [H | Hother]]]]]; try contradiction.
  - rewrite H. destruct (Hp (or_introl H)) as (P0 & P1 & P2).
    destruct (Z.eqb_spec (packing logElement) 0); [contradiction|].
    destruct (Z.eqb_spec (packing logElement) 1); [contradiction|].
    destruct (Z.eqb_spec (packing logElement) 2); [contradiction|].
    reflexivity.
  - rewrite H. destruct (Hp (or_intror H)) as (P0 & P1 & P2).
    destruct (Z.eqb_spec (packing logElement) 0); [contradiction|].
    destruct (Z.eqb_spec (packing logElement) 1); [contradiction|].
    destruct (Z.eqb_spec (packing logElement) 2); [contradiction|].
    reflexivity.
  - apply Hother.
Qed.

(** X7.  [logImageElementGetData] on a format that is not supported: it
    returns 1 without a seek or a read, and stores no sample. *)
Theorem logImageElementGetData_unsupported (logImage : LogImageFile)
    (logElement : LogImageElement) (f : stream) (data : buffer) :
  ~ supported (bitsPerSample logElement) (packing logElement) ->
  logImageElementGetData logImage logElement f data = (1, f, data).
Proof. apply logImageElementGetData_refuses. Qed.

Lemma logImageElementGetData_unsupported_witness :
  logImageElementGetData x16_image (c4_element 14)
    {| content := x16_bytes; cursor := 3 |} (replicate 6 None)
  = (1, {| content := x16_bytes; cursor := 3 |}, replicate 6 None).
Proof.
  apply (logImageElementGetData_unsupported x16_image (c4_element 14)).
  unfold supported; cbn; lia.
Defined.

(** ** The range of the samples read *)

Lemma lor_range (a b n : Z) :
  0 <= n -> 0 <= a < 2 ^ n -> 0 <= b < 2 ^ n -> 0 <= Z.lor a b < 2 ^ n.
Proof.
  intros Hn Ha Hb. split; [apply Z.lor_nonneg; lia|].
  destruct (Z.eq_dec (Z.lor a b) 0) as [->|Hne]; [lia|].
  assert (Hpos : 0 < Z.lor a b).
  { pose proof (proj2 (Z.lor_nonneg a b) (conj (proj1 Ha) (proj1 Hb))). lia. }
  apply Z.log2_lt_pow2; [exact Hpos|].
  rewrite Z.log2_lor by lia.
  assert (Hl : forall c, 0 <= c < 2 ^ n -> c <> 0 -> Z.log2 c < n).
  { intros c Hc Hc0. apply Z.log2_lt_pow2; lia. }
  assert (H0 : 0 < n).
  { destruct (Z.eq_dec n 0) as [->|]; [|lia].
    change (2 ^ 0) with 1 in *. replace a with 0 in * by lia.
    replace b with 0 in * by lia. cbn in Hne. contradiction. }
  destruct (Z.eq_dec a 0) as [->|Ha0]; destruct (Z.eq_dec b 0) as [->|Hb0].
  - cbn. exact H0.
  - rewrite Z.max_r by (cbn; apply Z.log2_nonneg). apply Hl; lia.
  - rewrite Z.max_l by (cbn; apply Z.log2_nonneg). apply Hl; lia.
  - apply Z.max_lub_lt; apply Hl; lia.
Qed.

Lemma land_mask_range (x n : Z) :
  0 <= n -> 0 <= Z.land x (Z.ones n) < 2 ^ n.
Proof.
  intros Hn. rewrite Z.land_ones by exact Hn.
  apply Z.mod_pos_bound. apply Z.pow_pos_nonneg; lia.
Qed.

Lemma le_combine_range (bs : list Z) :
  all_bytes bs -> 0 <= le_combine bs < 2 ^ (8 * Z.of_nat (length bs)).
Proof.
  unfold all_bytes. induction 1 as [|b bs Hb Hbs IH]; [cbn; lia|].
  cbn [le_combine length]. rewrite Nat2Z.inj_succ.
  replace (8 * Z.succ (Z.of_nat (length bs)))
    with (8 * Z.of_nat (length bs) + 8) by lia.
  apply lor_range; [lia| |].
  - split; [lia|].
    apply Z.lt_le_trans with (2 ^ 8); [cbn; lia|].
    apply Z.pow_le_mono_r; lia.
  - rewrite Z.shiftl_mul_pow2 by lia.
    rewrite Z.pow_add_r by lia. nia.
Qed.

Lemma word_at_range (n : nat) (bytes : list Z) (pos : Z) :
  all_bytes bytes -> 0 <= word_at n bytes pos < 2 ^ (8 * Z.of_nat n).
Proof.
  intros Hb. unfold word_at.
  pose proof (le_combine_range (take n (drop (Z.to_nat pos) bytes))
                (Forall_take _ _ _ (Forall_drop _ _ _ Hb))) as H.
  split; [lia|].
  apply Z.lt_le_trans with (1 := proj2 H).
  apply Z.pow_le_mono_r; [lia|]. rewrite length_take. lia.
Qed.

Lemma readExact_inv (n : nat) (f f' : stream) (v : Z) :
  readExact n f = Some (v, f') ->
  content f' = content f /\ v = word_at n (content f) (cursor f).
Proof.
  unfold readExact, word_at.
  destruct ((0 <=? cursor f) && _); [|discriminate].
  intros E. injection E as <- <-. split; reflexivity.
Qed.

Lemma logimage_fseek_inv (f f' : stream) (offset : Z) :
  logimage_fseek f offset = Some f' -> content f' = content f.
Proof.
  unfold logimage_fseek. destruct (_ && _); [|discriminate].
  intros E. injection E as <-. reflexivity.
Qed.

Lemma store_unit (i : Z) (v : float) (data : buffer) :
  Forall unit_cell data -> F32.in_unit v = true ->
  Forall unit_cell (store i v data).
Proof. intros Hd Hv. unfold store. apply Forall_insert; assumption. Qed.

(** The quotients [k / max] of the three sample sizes, for every code
    [k] of the size. *)
Lemma unit_table_255 :
  forall_range 8 0
    (fun k => F32.in_unit (F32.div (F32.of_Z k) (F32.of_Z 255))) = true.
Proof. vm_cast_no_check (eq_refl true). Qed.

Lemma unit_table_1023 :
  forall_range 10 0
    (fun k => F32.in_unit (F32.div (F32.of_Z k) (F32.of_Z 1023))) = true.
Proof. vm_cast_no_check (eq_refl true). Qed.

Lemma unit_table_4095 :
  forall_range 12 0
    (fun k => F32.in_unit (F32.div (F32.of_Z k) (F32.of_Z 4095))) = true.
Proof. vm_cast_no_check (eq_refl true). Qed.

Lemma code8_in_unit (k : Z) :
  0 <= k < 256 -> F32.in_unit (F32.div (F32.of_Z k) (F32.of_Z 255)) = true.
Proof.
  intros Hk. apply (forall_range_spec 8 _ 0 unit_table_255 k). cbn; lia.
Qed.

Lemma code10_in_unit (k : Z) :
  0 <= k < 1024 -> F32.in_unit (F32.div (F32.of_Z k) (F32.of_Z 1023)) = true.
Proof.
  intros Hk. apply (forall_range_spec 10 _ 0 unit_table_1023 k). cbn; lia.
Qed.

Lemma code12_in_unit (k : Z) :
  0 <= k < 4096 -> F32.in_unit (F32.div (F32.of_Z k) (F32.of_Z 4095)) = true.
Proof.
  intros Hk. apply (forall_range_spec 12 _ 0 unit_table_4095 k). cbn; lia.
Qed.

Lemma masked10_in_unit (x : Z) :
  F32.in_unit (F32.div (F32.of_Z (Z.land x 0x3ff)) (F32.of_Z 1023)) = true.
Proof.
  apply code10_in_unit. apply (land_mask_range x 10). lia.
Qed.

(** The buffer a function returns next to its status and its file. *)
Lemma snd_of_flow {S A B : Type} (r : flow S) (a : S -> A) (b : S -> B) :
  snd (match r with
       | Continue st => (0, a st, b st)
       | Return1 st => (1, a st, b st)
       end) = b (flow_state r).
Proof. destruct r; reflexivity. Qed.

Lemma snd_of_flow_pair {A B : Type} (r : flow (A * B)) :
  snd (match r with
       | Continue (f', d') => (0, f', d')
       | Return1 (f', d') => (1, f', d')
       end) = snd (flow_state r).
Proof. destruct r as [[? ?]|[? ?]]; reflexivity. Qed.

(** X8.  [logImageElementGetData10] stores only values within [0, 1]:
    whatever the file holds, and whether or not it ends early, a buffer
    whose cells are within [0, 1] stays so (the packings are the two the
    dispatcher sends to this function). *)
Theorem logImageElementGetData10_in_unit (logImage : LogImageFile)
    (logElement : LogImageElement) (f : stream) (data : buffer) :
  packing logElement = 1 \/ packing logElement = 2 ->
  Forall unit_cell data ->
  Forall unit_cell (snd (logImageElementGetData10 logImage logElement f data)).
Proof.
  intros _ Hdata. unfold logImageElementGetData10.
  destruct (logimage_fseek f (dataOffset logElement)) as [f0|];
    [|exact Hdata].
  cbv zeta. rewrite snd_of_flow.
  apply (for_upto_invariant (fun st => Forall unit_cell (u_data st)));
    [|exact Hdata].
  intros y st Hst.
  apply (for_upto_invariant (fun st => Forall unit_cell (u_data st)));
    [|exact Hst].
  clear st Hst. intros x st Hst.
  destruct (if (imageDepth logImage =? 1)
               && match srcFormat logImage with
                  | format_DPX => true
                  | format_Cineon => false
                  end
            then 30 <=? u_offset st else u_offset st <? 0).
  - destruct (logimage_read_uint (u_file st)) as [[pixel f2]|];
      [|exact Hst].
    cbn [flow_state u_data u_pixel u_offset].
    apply store_unit; [exact Hst|apply masked10_in_unit].
  - cbn [flow_state u_data]. apply store_unit; [exact Hst|apply masked10_in_unit].
Qed.

Lemma logImageElementGetData10_in_unit_witness :
  Forall unit_cell
    (snd (logImageElementGetData10 c2_image c2_element
            {| content := [255; 255; 255; 255; 1; 2]; cursor := 0 |}
            (replicate 3 (Some F32.zero)))).
Proof.
  apply (logImageElementGetData10_in_unit c2_image c2_element).
  - left; reflexivity.
  - apply Forall_replicate. reflexivity.
Defined.

(** X9.  [logImageElementGetData8] stores only values within [0, 1]. *)
Theorem logImageElementGetData8_in_unit (logImage : LogImageFile)
    (logElement : LogImageElement) (f : stream) (data : buffer) :
  all_bytes (content f) ->
  Forall unit_cell data ->
  Forall unit_cell (snd (logImageElementGetData8 logImage logElement f data)).
Proof.
  intros Hbytes Hdata. unfold logImageElementGetData8.
  cbv zeta. rewrite snd_of_flow_pair.
  pose (I := fun s : stream * buffer =>
               content (fst s) = content f /\ Forall unit_cell (snd s)).
  enough (HI : I (flow_state
                    (for_upto (height logImage)
                       (fun y '(f1, d1) =>
                          match logimage_fseek f1
                                  (size_t (dataOffset logElement
                                           + size_t (y * getRowLength
                                                           (width logImage)
                                                           logElement))) with
                          | None => Return1 (f1, d1)
                          | Some f2 =>
                              for_upto (width logImage * depth logElement)
                                (fun x '(f3, d3) =>
                                   match logimage_read_uchar f3 with
                                   | None => Return1 (f3, d3)
                                   | Some (pixel, f4) =>
                                       Continue
                                         (f4,
                                          store (y * width logImage
                                                 * depth logElement + x)
                                            (F32.div (F32.of_Z pixel)
                                                     (F32.of_Z 255)) d3)
                                   end)
                                (f2, d1)
                          end)
                       (f, data)))) by exact (proj2 HI).
  apply (for_upto_invariant I); [|split; [reflexivity|exact Hdata]].
  intros y [f1 d1] [Hc Hd]; cbn [fst snd] in *.
  destruct (logimage_fseek f1 _) as [f2|] eqn:Eseek;
    [|split; assumption].
  apply logimage_fseek_inv in Eseek.
  apply (for_upto_invariant I);
    [|split; cbn [fst snd]; [congruence|exact Hd]].
  intros x [f3 d3] [Hc3 Hd3]; cbn [fst snd] in *.
  destruct (logimage_read_uchar f3) as [[pixel f4]|] eqn:Eread;
    [|split; assumption].
  apply readExact_inv in Eread as [Hc4 ->].
  split; cbn [flow_state fst snd]; [congruence|].
  apply store_unit; [exact Hd3|]. apply code8_in_unit.
  apply (word_at_range 1). rewrite Hc3. exact Hbytes.
Qed.

Lemma logImageElementGetData8_in_unit_witness :
  Forall unit_cell
    (snd (logImageElementGetData8 c1_image (c1_element descriptor_Red)
            {| content := [255; 0; 51; 7]; cursor := 0 |}
            (replicate 2 (Some F32.zero)))).
Proof.
  apply (logImageElementGetData8_in_unit c1_image (c1_element descriptor_Red)).
  - repeat constructor; lia.
  - apply Forall_replicate. reflexivity.
Defined.

(** X11.  [logImageElementGetData1] stores nothing but 0.0 and 1.0,
    whatever the file holds. *)
Theorem logImageElementGetData1_bits (logImage : LogImageFile)
    (logElement : LogImageElement) (f : stream) (data : buffer) :
  Forall bit_cell data ->
  Forall bit_cell (snd (logImageElementGetData1 logImage logElement f data)).
Proof.
  intros Hdata. unfold logImageElementGetData1.
  destruct (logimage_fseek f (dataOffset logElement)) as [f0|];
    [|exact Hdata].
  cbv zeta. rewrite snd_of_flow_pair.
  apply (for_upto_invariant (fun s : stream * buffer => Forall bit_cell (snd s)));
    [|exact Hdata].
  intros y s Hs.
  apply (for_loop_invariant
           (fun s : stream * buffer => Forall bit_cell (snd s)));
    [|exact Hs].
  clear s Hs. intros x [f1 d1] Hd; cbn [snd] in *.
  destruct (logimage_read_uint f1) as [[pixel f2]|]; [|exact Hd].
  apply (for_loop_invariant
           (fun s : stream * buffer => Forall bit_cell (snd s)));
    [|exact Hd].
  intros offset [f3 d3] Hd3; cbn [snd flow_state] in *.
  unfold store. apply Forall_insert; [exact Hd3|].
  cbn [bit_cell].
  pose proof (land_mask_range
                (Z.shiftr (swap_uint pixel (isMSB logImage)) offset) 1
                ltac:(lia)) as Hb.
  change (Z.ones 1) with 1 in Hb. change (2 ^ 1) with 2 in Hb.
  assert (Hc : Z.land (Z.shiftr (swap_uint pixel (isMSB logImage)) offset) 1
               = 0 \/
               Z.land (Z.shiftr (swap_uint pixel (isMSB logImage)) offset) 1
               = 1) by lia.
  destruct Hc as [-> | ->]; [left|right]; reflexivity.
Qed.

Lemma logImageElementGetData1_bits_witness :
  Forall bit_cell
    (snd (logImageElementGetData1 c1_image (c1_element descriptor_Red)
            {| content := [5; 0; 0; 0]; cursor := 0 |}
            (replicate 2 (Some F32.zero)))).
Proof.
  apply (logImageElementGetData1_bits c1_image (c1_element descriptor_Red)).
  apply Forall_replicate. left; reflexivity.
Defined.

(** X12.  [logImageElementGetData12] with packing 1 (samples padded to
    the right) stores only values within [0, 1]: the shift by four drops
    the padding bits of the 16-bit cell. *)
Theorem logImageElementGetData12_filled_in_unit (logImage : LogImageFile)
    (logElement : LogImageElement) (f : stream) (data : buffer) :
  packing logElement = 1 ->
  all_bytes (content f) ->
  Forall unit_cell data ->
  Forall unit_cell (snd (logImageElementGetData12 logImage logElement f data)).
Proof.
  intros Hp Hbytes Hdata. unfold logImageElementGetData12.
  destruct (logimage_fseek f (dataOffset logElement)) as [f0|] eqn:Eseek;
    [|exact Hdata].
  apply logimage_fseek_inv in Eseek.
  cbv zeta. rewrite snd_of_flow_pair.
  pose (I := fun s : stream * buffer =>
               content (fst s) = content f /\ Forall unit_cell (snd s)).
  match goal with |- Forall unit_cell (snd (flow_state ?r)) =>
    enough (HI : I (flow_state r)) by apply HI
  end.
  apply (for_upto_invariant I); [|split; [exact Eseek|exact Hdata]].
  intros i [f1 d1] [Hc Hd]; cbn [fst snd] in *.
  destruct (logimage_read_ushort f1) as [[pixel f2]|] eqn:Eread;
    [|split; assumption].
  apply readExact_inv in Eread as [Hc2 ->].
  rewrite Hp. cbn [Z.eqb Pos.eqb flow_state].
  split; cbn [fst snd]; [congruence|].
  apply store_unit; [exact Hd|]. apply code12_in_unit.
  pose proof (swap_ushort_range (word_at 2 (content f1) (cursor f1))
                (isMSB logImage)
                ltac:(apply (word_at_range 2); rewrite Hc; exact Hbytes))
    as Hw.
  rewrite Z.shiftr_div_pow2 by lia. change (2 ^ 4) with 16.
  split; [apply Z.div_pos; lia|apply Z.div_lt_upper_bound; lia].
Qed.

Lemma logImageElementGetData12_filled_in_unit_witness :
  Forall unit_cell
    (snd (logImageElementGetData12 x16_image (c4_element 12)
            {| content := [255; 255; 0; 16]; cursor := 0 |}
            (replicate 2 (Some F32.zero)))).
Proof.
  apply (logImageElementGetData12_filled_in_unit x16_image (c4_element 12)).
  - reflexivity.
  - repeat constructor; lia.
  - apply Forall_replicate. reflexivity.
Defined.

(** ** The packed unpackers *)

Lemma swap_uint_range (x m : Z) :
  0 <= x < 2 ^ 32 -> 0 <= swap_uint x m < 2 ^ 32.
Proof.
  intros Hx. unfold swap_uint. destruct (m =? 0); [exact Hx|].
  unfold uint. apply Z.mod_pos_bound. reflexivity.
Qed.

Lemma shiftr_tail (p o bits : Z) :
  0 <= p < 2 ^ 32 -> 0 <= o -> 0 <= bits -> 32 < o + bits ->
  0 <= Z.shiftr p o < 2 ^ bits.
Proof.
  intros Hp Ho Hb Hob. rewrite Z.shiftr_div_pow2 by exact Ho.
  assert (H2 : 0 < 2 ^ o) by (apply Z.pow_pos_nonneg; lia).
  split; [apply Z.div_pos; lia|].
  apply Z.div_lt_upper_bound; [exact H2|].
  rewrite <- Z.pow_add_r by lia.
  apply Z.lt_le_trans with (2 ^ 32); [lia|].
  apply Z.pow_le_mono_r; lia.
Qed.

Section Packed.

Variables bits mask : Z.
Hypothesis bits_range : 0 < bits <= 16.
Hypothesis mask_ones : mask = Z.ones bits.
Hypothesis code_in_unit : forall k,
0 <= k < 2 ^ bits ->
F32.in_unit (F32.div (F32.of_Z k) (F32.of_Z mask)) = true.

Variable logImage : LogImageFile.
Variable logElement : LogImageElement.
Variable f : stream.
Hypothesis file_bytes : all_bytes (content f).

(** What holds of the registers between two samples. *)
Local Abbreviation registers_ok top st :=
(content (p_file st) = content f
 /\ Forall unit_cell (p_data st)
 /\ 0 <= p_pixel st < 2 ^ 32
 /\ 0 <= p_oldPixel st < 2 ^ bits
 /\ 0 <= p_offset st <= top
 /\ 0 <= p_offset2 st < bits).

Lemma packed_sample_step (y x : Z) (st : packed_state) :
registers_ok 32 st ->
registers_ok 32
  (flow_state
     (let st1 :=
        if negb (p_offset2 st =? 0) then
          {| p_file := p_file st; p_data := p_data st;
             p_pixel := p_pixel st; p_oldPixel := 0;
             p_offset := bits - p_offset2 st; p_offset2 := 0 |}
        else if p_offset st =? 32 then
          {| p_file := p_file st; p_data := p_data st;
             p_pixel := p_pixel st; p_oldPixel := p_oldPixel st;
             p_offset := 0; p_offset2 := 0 |}
        else if 32 <? p_offset st + bits then
          {| p_file := p_file st; p_data := p_data st;
             p_pixel := p_pixel st;
             p_oldPixel := Z.shiftr (p_pixel st) (p_offset st);
             p_offset := 0; p_offset2 := 32 - p_offset st |}
        else st in
      let next :=
        if p_offset st1 =? 0 then
          match logimage_read_uint (p_file st1) with
          | None => None
          | Some (pixel, f2) =>
              Some {| p_file := f2; p_data := p_data st1;
                      p_pixel := swap_uint pixel (isMSB logImage);
                      p_oldPixel := p_oldPixel st1;
                      p_offset := p_offset st1;
                      p_offset2 := p_offset2 st1 |}
          end
        else Some st1 in
      match next with
      | None => Return1 st1
      | Some st2 =>
          Continue
            {| p_file := p_file st2;
               p_data :=
                 store (y * width logImage * depth logElement + x)
                   (F32.div
                      (F32.of_Z
                         (Z.lor
                            (Z.land
                               (Z.shiftr
                                  (uint (Z.shiftl (p_pixel st2)
                                           (p_offset2 st2)))
                                  (p_offset st2))
                               mask)
                            (p_oldPixel st2)))
                      (F32.of_Z mask))
                   (p_data st2);
               p_pixel := p_pixel st2; p_oldPixel := p_oldPixel st2;
               p_offset := p_offset st2 + bits;
               p_offset2 := p_offset2 st2 |}
      end)).
Proof.
intros (Hc & Hd & Hp & Ho & Hoff & Hoff2).
assert (Hpow : 0 < 2 ^ bits) by (apply Z.pow_pos_nonneg; lia).
match goal with |- context [let st1 := ?t in _] => set (st1 := t) end.
assert (H1 : registers_ok (32 - bits) st1).
{ subst st1.
  destruct (Z.eqb_spec (p_offset2 st) 0) as [E2|N2]; cbn [negb].
  - destruct (Z.eqb_spec (p_offset st) 32) as [E|N].
    + cbn [p_file p_data p_pixel p_oldPixel p_offset p_offset2].
      repeat split; auto; lia.
    + destruct (Z.ltb_spec 32 (p_offset st + bits)) as [L|L].
      * cbn [p_file p_data p_pixel p_oldPixel p_offset p_offset2].
        pose proof (shiftr_tail (p_pixel st) (p_offset st) bits
                      Hp ltac:(lia) ltac:(lia) L).
        repeat split; auto; lia.
      * repeat split; auto; lia.
  - cbn [p_file p_data p_pixel p_oldPixel p_offset p_offset2].
    repeat split; auto; lia. }
clearbody st1. clear Hc Hd Hp Ho Hoff Hoff2 st.
destruct H1 as (Hc & Hd & Hp & Ho & Hoff & Hoff2).
cbv zeta.
assert (Hstore : forall st2 : packed_state,
          Forall unit_cell (p_data st2) ->
          0 <= p_oldPixel st2 < 2 ^ bits ->
          Forall unit_cell
            (store (y * width logImage * depth logElement + x)
               (F32.div
                  (F32.of_Z
                     (Z.lor
                        (Z.land
                           (Z.shiftr
                              (uint (Z.shiftl (p_pixel st2) (p_offset2 st2)))
                              (p_offset st2))
                           mask)
                        (p_oldPixel st2)))
                  (F32.of_Z mask))
               (p_data st2))).
{ intros st2 Hd2 Ho2. apply store_unit; [exact Hd2|].
  apply code_in_unit. apply lor_range; [lia| |exact Ho2].
  rewrite mask_ones. apply land_mask_range. lia. }
destruct (p_offset st1 =? 0).
- destruct (logimage_read_uint (p_file st1)) as [[pixel f2]|] eqn:Eread.
  + apply readExact_inv in Eread as [Hc2 ->].
    cbn [flow_state p_file p_data p_pixel p_oldPixel p_offset p_offset2].
    assert (Hw : 0 <= swap_uint (word_at 4 (content (p_file st1))
                                    (cursor (p_file st1)))
                           (isMSB logImage) < 2 ^ 32).
    { apply swap_uint_range. apply (word_at_range 4).
      rewrite Hc. exact file_bytes. }
    repeat split; try lia; try congruence.
    apply (Hstore {| p_file := f2; p_data := p_data st1;
                     p_pixel := swap_uint (word_at 4 (content (p_file st1))
                                             (cursor (p_file st1)))
                                  (isMSB logImage);
                     p_oldPixel := p_oldPixel st1;
                     p_offset := p_offset st1;
                     p_offset2 := p_offset2 st1 |}); assumption.
  + cbn [flow_state]. repeat split; auto; lia.
- cbn [flow_state p_file p_data p_pixel p_oldPixel p_offset p_offset2].
  repeat split; try lia; try assumption. apply Hstore; assumption.
Qed.

Lemma getDataPacked_in_unit (data : buffer) :
Forall unit_cell data ->
Forall unit_cell (snd (getDataPacked bits mask logImage logElement f data)).
Proof.
intros Hdata. unfold getDataPacked. cbv zeta. rewrite snd_of_flow.
assert (Hpow : 0 < 2 ^ bits) by (apply Z.pow_pos_nonneg; lia).
pose (I := fun st : packed_state =>
             content (p_file st) = content f
             /\ Forall unit_cell (p_data st)
             /\ 0 <= p_pixel st < 2 ^ 32).
match goal with |- Forall unit_cell (p_data (flow_state ?r)) =>
  enough (HI : I (flow_state r)) by apply HI
end.
apply (for_upto_invariant I);
  [|subst I; cbn [p_file p_data p_pixel]; repeat split; auto; lia].
intros y st (Hc & Hd & Hp).
destruct (logimage_fseek (p_file st) _) as [f1|] eqn:Eseek;
  [|subst I; cbn [flow_state]; repeat split; auto; lia].
apply logimage_fseek_inv in Eseek.
match goal with |- I (flow_state ?r) =>
  enough (HI : registers_ok 32 (flow_state r))
    by (destruct HI as (? & ? & ? & _); subst I; cbv beta; auto)
end.
apply (for_upto_invariant (fun st => registers_ok 32 st)).
- intros x st' Hst'. apply (packed_sample_step y x st' Hst').
- cbn [p_file p_data p_pixel p_oldPixel p_offset p_offset2].
  repeat split; auto; try lia. congruence.
Qed.

End Packed.

(** X10.  [logImageElementGetData10Packed] and
    [logImageElementGetData12Packed] store only values within [0, 1],
    also for the samples that straddle two 32-bit words: whatever bytes
    the file holds, and whether or not it ends early, a buffer whose cells
    are within [0, 1] stays so. *)
Theorem logImageElementGetDataPacked_in_unit (logImage : LogImageFile)
    (logElement : LogImageElement) (f : stream) (data : buffer) :
  all_bytes (content f) ->
  Forall unit_cell data ->
  Forall unit_cell
    (snd (logImageElementGetData10Packed logImage logElement f data))
  /\
  Forall unit_cell
    (snd (logImageElementGetData12Packed logImage logElement f data)).
Proof.
  intros Hbytes Hdata. split.
  - apply (getDataPacked_in_unit 10 0x3ff); auto; [lia|].
    intros k Hk. apply code10_in_unit. exact Hk.
  - apply (getDataPacked_in_unit 12 0xfff); auto; [lia|].
    intros k Hk. apply code12_in_unit. exact Hk.
Qed.

Lemma logImageElementGetDataPacked_in_unit_witness :
  Forall unit_cell
    (snd (logImageElementGetData10Packed c2_image c2_element
            {| content := [255; 3; 240; 255; 0; 252; 15; 0]; cursor := 0 |}
            (replicate 3 (Some F32.zero))))
  /\
  Forall unit_cell
    (snd (logImageElementGetData12Packed c2_image c2_element
            {| content := [255; 3; 240; 255; 0; 252; 15; 0]; cursor := 0 |}
            (replicate 3 (Some F32.zero)))).
Proof.
  apply (logImageElementGetDataPacked_in_unit c2_image c2_element).
  - repeat constructor; lia.
  - apply Forall_replicate. reflexivity.
Defined.

(** ** The status of the packers *)

(** X13.  Each of the four packers returns 0 if and only if its row
    buffer could be allocated and all the [height] writes succeed; a
    packer without a row buffer writes nothing. *)
Theorem logImageSetData_status (row_ok : bool) (logImage : LogImageFile)
    (logElement : LogImageElement) (data : list float) (f : outfile) :
  0 <= height logImage ->
  let ok := row_ok = true /\ (Z.to_nat (height logImage) <= budget f)%nat in
  (fst (logImageSetData8 row_ok logImage logElement data f) = 0 <-> ok) /\
  (fst (logImageSetData10 row_ok logImage logElement data f) = 0 <-> ok) /\
  (fst (logImageSetData12 row_ok logImage logElement data f) = 0 <-> ok) /\
  (fst (logImageSetData16 row_ok logImage logElement data f) = 0 <-> ok) /\
  (row_ok = false ->
   logImageSetData8 row_ok logImage logElement data f = (1, f) /\
   logImageSetData10 row_ok logImage logElement data f = (1, f) /\
   logImageSetData12 row_ok logImage logElement data f = (1, f) /\
   logImageSetData16 row_ok logImage logElement data f = (1, f)).
Proof.
  intros Hh ok; subst ok.
  unfold logImageSetData8, logImageSetData10, logImageSetData12,
    logImageSetData16.
  destruct row_ok; cbn [negb fst].
  - assert (W : forall cell row0 fill,
              fst (write_rows logImage cell row0 fill f) = 0
              <-> true = true
                  /\ (Z.to_nat (height logImage) <= budget f)%nat).
    { intros cell row0 fill.
      destruct (write_rows_status logImage cell row0 fill f Hh) as [W _].
      split; [intros H; split; [reflexivity|apply W; exact H]
             |intros [_ H]; apply W; exact H]. }
    split; [apply W|]. split; [apply W|]. split; [apply W|].
    split; [apply W|]. discriminate.
  - assert (N : 1 = 0 <-> false = true
                          /\ (Z.to_nat (height logImage) <= budget f)%nat).
    { split; [discriminate|intros [H _]; discriminate H]. }
    split; [exact N|]. split; [exact N|]. split; [exact N|].
    split; [exact N|]. intros _. repeat split.
Qed.

Lemma logImageSetData_status_witness :
  let ok := true = true /\ (Z.to_nat (height x16_image) <= 1)%nat in
  (fst (logImageSetData8 true x16_image x16_element x16_samples
          {| written := []; budget := 1 |}) = 0 <-> ok) /\
  (fst (logImageSetData10 true x16_image x16_element x16_samples
          {| written := []; budget := 1 |}) = 0 <-> ok) /\
  (fst (logImageSetData12 true x16_image x16_element x16_samples
          {| written := []; budget := 1 |}) = 0 <-> ok) /\
  (fst (logImageSetData16 true x16_image x16_element x16_samples
          {| written := []; budget := 1 |}) = 0 <-> ok) /\
  (true = false ->
   logImageSetData8 true x16_image x16_element x16_samples
     {| written := []; budget := 1 |}
   = (1, {| written := []; budget := 1 |}) /\
   logImageSetData10 true x16_image x16_element x16_samples
     {| written := []; budget := 1 |}
   = (1, {| written := []; budget := 1 |}) /\
   logImageSetData12 true x16_image x16_element x16_samples
     {| written := []; budget := 1 |}
   = (1, {| written := []; budget := 1 |}) /\
   logImageSetData16 true x16_image x16_element x16_samples
     {| written := []; budget := 1 |}
   = (1, {| written := []; budget := 1 |})).
Proof.
  apply (logImageSetData_status true x16_image x16_element x16_samples
           {| written := []; budget := 1 |}).
  cbn. lia.
Defined.

(** ** The 8-bit engines *)

Lemma getRowLength_nonneg (w : Z) (e : LogImageElement) :
  0 <= getRowLength w e < size_t_max.
Proof.
  assert (H : forall z, 0 <= size_t z < size_t_max).
  { intros z. unfold size_t. apply Z.mod_pos_bound. reflexivity. }
  assert (H0 : 0 <= 0 < size_t_max) by (unfold size_t_max; lia).
  unfold getRowLength.
  destruct (bps_cases (bitsPerSample e))
    as [-> | [-> | [-> | [-> | [-> | Hother]]]]];
    try apply H;
    try (destruct (packing e =? 0);
         [apply H|destruct ((packing e =? 1) || (packing e =? 2));
                  [apply H|exact H0]]).
  rewrite Hother. exact H0.
Qed.

(** A row of 8-bit samples: the samples, then less than four bytes of
    padding. *)
Lemma getRowLength_8 (w : Z) (e : LogImageElement) :
  bitsPerSample e = 8 -> 0 <= w * depth e -> w * depth e + 4 < size_t_max ->
  w * depth e <= getRowLength w e < w * depth e + 4.
Proof.
  intros Hbps Hm Hfit. unfold getRowLength. rewrite Hbps.
  rewrite (size_t_small (w * depth e)) by lia.
  destruct (Z.eq_dec (w * depth e) 0) as [->|Hne]; [vm_compute; split; congruence|].
  rewrite padded_row; [|lia|lia|intros q Hq Hq'; lia].
  unfold ceil_div.
  pose proof (Z.div_mod (w * depth e + 4 - 1) 4 ltac:(lia)).
  pose proof (Z.mod_pos_bound (w * depth e + 4 - 1) 4 ltac:(lia)).
  lia.
Qed.

Lemma row_index (y m x : Z) :
  0 <= x < m -> 0 <= y -> (y * m + x) / m = y /\ (y * m + x) mod m = x.
Proof.
  intros Hx Hy.
  assert (H : (y * m + x) / m = y).
  { symmetry. apply (Z.div_unique _ _ _ x); lia. }
  split; [exact H|]. rewrite Z.mod_eq by lia. rewrite H. lia.
Qed.

Lemma logImageElementGetData8_run (logImage : LogImageFile)
    (logElement : LogImageElement) (f : stream) (data : buffer) :
  let m := width logImage * depth logElement in
  let L := getRowLength (width logImage) logElement in
  let n := height logImage * m in
  0 < height logImage -> 0 <= m ->
  0 <= dataOffset logElement ->
  dataOffset logElement + (height logImage - 1) * L + m
    <= Z.of_nat (length (content f)) ->
  Z.of_nat (length (content f)) < size_t_max ->
  Z.of_nat (length data) = n ->
  let r := logImageElementGetData8 logImage logElement f data in
  fst (fst r) = 0 /\
  content (snd (fst r)) = content f /\
  snd r =
    decoded
      (fun i =>
         F32.div
           (F32.of_Z
              (word_at 1 (content f)
                 (dataOffset logElement + (i / m) * L + i mod m)))
           (F32.of_Z 255))
      n.
Proof.
  intros m L n Hh Hm Hoff Hlen Hmax Hdata r; subst r.
  pose proof (getRowLength_nonneg (width logImage) logElement) as HL.
  fold L in HL.
  set (g := fun i =>
         F32.div
           (F32.of_Z
              (word_at 1 (content f)
                 (dataOffset logElement + (i / m) * L + i mod m)))
           (F32.of_Z 255)).
  unfold logImageElementGetData8. cbv zeta. fold L. fold m.
  match goal with |- context [@for_upto ?S ?k ?b ?s] =>
    destruct (for_upto_run
      (fun y (st : stream * buffer) =>
         content (fst st) = content f
         /\ snd st = decoded g (y * m) ++ drop (Z.to_nat (y * m)) data)
      k b s ltac:(lia)) as ([f' d'] & Hs & Hc & Hd);
      [| |destruct (@for_upto S k b s) as [[f1 d1]|[f1 d1]] eqn:E]
  end.
  - cbn. split; reflexivity.
  - intros y [f1 d1] Hy [Hc Hd]; cbn [fst snd] in *. subst d1.
    assert (HyL : 0 <= y * L <= (height logImage - 1) * L) by nia.
    rewrite (size_t_small (y * L)) by lia.
    rewrite size_t_small by lia.
    rewrite logimage_fseek_ok by (rewrite Hc; lia).
    match goal with |- context [@for_upto ?S ?k ?b ?s] =>
      destruct (for_upto_run
        (fun x (st : stream * buffer) =>
           fst st = {| content := content f;
                       cursor := dataOffset logElement + y * L + x |}
           /\ snd st = decoded g (y * m + x)
                       ++ drop (Z.to_nat (y * m + x)) data)
        k b s Hm) as ([f2 d2] & Hs2 & Hf2 & Hd2)
    end.
    + cbn [fst snd]. rewrite Hc, !Z.add_0_r. split; reflexivity.
    + intros x [f3 d3] Hx [Hf3 Hd3]; cbn [fst snd] in *. subst f3 d3.
      unfold logimage_read_uchar.
      rewrite readExact_ok by (cbn [content cursor]; lia).
      cbn [content cursor].
      eexists; split; [reflexivity|]. cbn [fst snd]. split.
      * f_equal. lia.
      * replace (y * width logImage * depth logElement + x)
          with (y * m + x) by (subst m; lia).
        replace (y * m + (x + 1)) with (y * m + x + 1) by lia.
        transitivity
          (store (y * m + x) (g (y * m + x))
             (decoded g (y * m + x) ++ drop (Z.to_nat (y * m + x)) data)).
        { f_equal. unfold g.
          destruct (row_index y m x ltac:(lia) ltac:(lia)) as [-> ->].
          reflexivity. }
        apply (store_next g).
        assert ((y + 1) * m <= height logImage * m)
          by (apply Z.mul_le_mono_nonneg_r; lia).
        assert (0 <= y * m) by (apply Z.mul_nonneg_nonneg; lia).
        split; [lia|]. apply Z.lt_le_trans with n; [unfold n; lia|].
        apply Z.eq_le_incl. symmetry. exact Hdata.
    + exists (f2, d2). split; [exact Hs2|]. cbn [fst snd] in *.
      subst f2. split; [reflexivity|].
      rewrite Hd2. replace ((y + 1) * m) with (y * m + m) by lia.
      reflexivity.
  - pose proof (eq_trans (eq_sym E) Hs) as E1. injection E1 as -> ->.
    cbn [fst snd] in *. repeat split; [exact Hc|].
    rewrite Hd. fold n. rewrite drop_ge, app_nil_r by lia. reflexivity.
  - discriminate (eq_trans (eq_sym E) Hs).
Qed.

(** X14.  [logImageElementGetData8] on a file that holds all the rows:
    it returns 0 and sample [i] is the byte at offset [i mod m] of row
    [i / m], a row starting every [getRowLength] bytes from [dataOffset],
    divided by 255 ([m] = width * depth samples a row): the padding at
    the end of a row is skipped. *)
Theorem logImageElementGetData8_samples (logImage : LogImageFile)
    (logElement : LogImageElement) (f : stream) (data : buffer) :
  let m := width logImage * depth logElement in
  let L := getRowLength (width logImage) logElement in
  let n := height logImage * m in
  0 < height logImage -> 0 <= m ->
  0 <= dataOffset logElement ->
  dataOffset logElement + (height logImage - 1) * L + m
    <= Z.of_nat (length (content f)) ->
  Z.of_nat (length (content f)) < size_t_max ->
  Z.of_nat (length data) = n ->
  let r := logImageElementGetData8 logImage logElement f data in
  fst (fst r) = 0 /\
  content (snd (fst r)) = content f /\
  snd r =
    decoded
      (fun i =>
         F32.div
           (F32.of_Z
              (word_at 1 (content f)
                 (dataOffset logElement + (i / m) * L + i mod m)))
           (F32.of_Z 255))
      n.
Proof. apply logImageElementGetData8_run. Qed.

Lemma logImageElementGetData8_samples_witness :
  let r := logImageElementGetData8 x8_image x8_element
             {| content := [83; 68; 255; 0; 51; 9; 1; 2; 3];
                cursor := 0 |}
             (replicate 6 None) in
  fst (fst r) = 0 /\
  content (snd (fst r)) = [83; 68; 255; 0; 51; 9; 1; 2; 3] /\
  snd r =
    decoded
      (fun i =>
         F32.div
           (F32.of_Z
              (word_at 1 [83; 68; 255; 0; 51; 9; 1; 2; 3]
                 (2 + (i / 3) * getRowLength 1 x8_element + i mod 3)))
           (F32.of_Z 255))
      6.
Proof.
  apply (logImageElementGetData8_samples x8_image x8_element
           {| content := [83; 68; 255; 0; 51; 9; 1; 2; 3]; cursor := 0 |}
           (replicate 6 None));
    vm_compute; first [reflexivity | congruence].
Defined.

Lemma uchar_range (z : Z) : 0 <= uchar z < 256.
Proof. unfold uchar. apply Z.mod_pos_bound. reflexivity. Qed.

Lemma land_byte (v : Z) : 0 <= v < 256 -> Z.land v 0xff = v.
Proof.
  intros Hv. change 0xff with (Z.ones 8). rewrite Z.land_ones by lia.
  apply Z.mod_small. exact Hv.
Qed.

Lemma row_bytes_1 (codes : list Z) (k : nat) :
  Forall (fun v => 0 <= v < 256) codes ->
  row_bytes 1 ((Some <$> codes) ++ replicate k (Some 0))
  = (Some <$> codes) ++ replicate k (Some 0).
Proof.
  intros Hc. unfold row_bytes. rewrite map_app, concat_app. f_equal.
  - induction Hc as [|v l Hv Hl IH]; [reflexivity|].
    cbn [fmap list_fmap map concat cell_bytes le_split app].
    rewrite land_byte by exact Hv. f_equal. exact IH.
  - induction k as [|k IH]; [reflexivity|].
    cbn [replicate map concat cell_bytes le_split app]. f_equal. exact IH.
Qed.

Lemma logImageSetData8_run (logImage : LogImageFile)
    (logElement : LogImageElement) (data : list float) (f : outfile) :
  bitsPerSample logElement = 8 ->
  depth logElement = imageDepth logImage ->
  0 <= width logImage -> 0 <= height logImage -> 0 <= imageDepth logImage ->
  width logImage * imageDepth logImage + 4 < size_t_max ->
  (Z.to_nat (height logImage) <= budget f)%nat ->
  logImageSetData8 true logImage logElement data f =
    (0, {| written :=
             written f
             ++ (y ← seqZ 0 (height logImage);
                 Some <$> row8 logImage logElement data y);
           budget := (budget f - Z.to_nat (height logImage))%nat |}).
Proof.
  intros Hbps Hd Hw Hh HD Hsmall Hb.
  unfold logImageSetData8. cbn [negb].
  set (m := width logImage * imageDepth logImage).
  set (L := getRowLength (width logImage) logElement).
  assert (Hm : 0 <= m) by (subst m; nia).
  assert (HL : m <= L < m + 4).
  { subst m L. rewrite <- Hd. apply getRowLength_8; rewrite ?Hd; auto. }
  apply (write_rows_run logImage 1 _ _ f
           (fun y => Some <$> row8 logImage logElement data y)
           (fun row => length row = Z.to_nat L
                       /\ drop (Z.to_nat m) row
                          = replicate (Z.to_nat (L - m)) (Some 0)));
    [exact Hh|exact Hb| |].
  - split; [apply length_replicate|].
    rewrite drop_replicate. f_equal. lia.
  - intros y row Hy [Hlen Hpad].
    rewrite (fill_cells
               (fun x => uchar (float_uint
                                  (load (y * width logImage
                                         * imageDepth logImage + x) data)
                                  255)) m row) by lia.
    cbn [flow_state]. rewrite Hpad.
    assert (Hcodes :
      (fun x => Some (uchar (float_uint
                               (load (y * width logImage
                                      * imageDepth logImage + x) data) 255)))
        <$> seqZ 0 m
      = Some <$> ((fun x => code8 data (y * m + x)) <$> seqZ 0 m)).
    { rewrite <- list_fmap_compose. apply list_fmap_ext.
      intros i x _. cbn. unfold code8, m. rewrite Z.mul_assoc. reflexivity. }
    rewrite Hcodes. split; [split|].
    + rewrite length_app, !length_fmap, length_seqZ, length_replicate. lia.
    + rewrite drop_app_length'
        by (rewrite !length_fmap, length_seqZ; reflexivity).
      reflexivity.
    + rewrite row_bytes_1.
      * unfold row8. fold m. fold L.
        rewrite fmap_app, fmap_replicate. reflexivity.
      * apply Forall_fmap, Forall_forall. intros x _. cbn.
        apply uchar_range.
Qed.

(** X15.  [logImageSetData8] appends to the file rows of exactly
    [getRowLength] bytes, every byte initialised: the codes
    [float_uint(data[i], 255)] of the row, then zeros up to the 32-bit
    boundary, also in the rows after the first; it returns 0 and makes
    [height] writes. *)
Theorem logImageSetData8_rows (logImage : LogImageFile)
    (logElement : LogImageElement) (data : list float) (f : outfile) :
  bitsPerSample logElement = 8 ->
  depth logElement = imageDepth logImage ->
  0 <= width logImage -> 0 <= height logImage -> 0 <= imageDepth logImage ->
  width logImage * imageDepth logImage + 4 < size_t_max ->
  (Z.to_nat (height logImage) <= budget f)%nat ->
  logImageSetData8 true logImage logElement data f =
    (0, {| written :=
             written f
             ++ (y ← seqZ 0 (height logImage);
                 Some <$> row8 logImage logElement data y);
           budget := (budget f - Z.to_nat (height logImage))%nat |}).
Proof. apply logImageSetData8_run. Qed.

Lemma logImageSetData8_rows_witness :
  logImageSetData8 true x8_image x8_element x8_samples
    {| written := [Some 83; Some 68]; budget := 2 |}
  = (0, {| written :=
             [Some 83; Some 68]
             ++ (y ← seqZ 0 2; Some <$> row8 x8_image x8_element x8_samples y);
           budget := 0 |}).
Proof.
  apply (logImageSetData8_rows x8_image x8_element x8_samples
           {| written := [Some 83; Some 68]; budget := 2 |});
    cbn; first [reflexivity | lia].
Defined.

Lemma length_row8 (logImage : LogImageFile) (logElement : LogImageElement)
    (data : list float) (y : Z) :
  0 <= width logImage * imageDepth logImage
       <= getRowLength (width logImage) logElement ->
  length (row8 logImage logElement data y)
  = Z.to_nat (getRowLength (width logImage) logElement).
Proof.
  intros H. unfold row8.
  rewrite length_app, length_fmap, length_seqZ, length_replicate. lia.
Qed.

Lemma round_trip8 (logImage : LogImageFile)
    (logElement : LogImageElement) (data : list float) (hdr : list Z)
    (writes : nat) (buf : buffer) :
  let m := width logImage * imageDepth logImage in
  let n := height logImage * m in
  bitsPerSample logElement = 8 ->
  depth logElement = imageDepth logImage ->
  0 <= width logImage -> 0 < height logImage -> 0 <= imageDepth logImage ->
  Z.of_nat (length hdr) + height logImage * (m + 4) < size_t_max ->
  (Z.to_nat (height logImage) <= writes)%nat ->
  dataOffset logElement = Z.of_nat (length hdr) ->
  Z.of_nat (length buf) = n ->
  exists bytes,
    written (snd (logImageSetData8 true logImage logElement data
                    {| written := Some <$> hdr; budget := writes |}))
      = Some <$> bytes
    /\ fst (fst (logImageElementGetData8 logImage logElement
                   {| content := bytes; cursor := 0 |} buf)) = 0
    /\ snd (logImageElementGetData8 logImage logElement
              {| content := bytes; cursor := 0 |} buf)
       = decoded
           (fun i => F32.div (F32.of_Z (code8 data i)) (F32.of_Z 255)) n.
Proof.
  intros m n Hbps Hd Hw Hh HD Hsmall Hb Hoff Hbuf.
  assert (Hm : 0 <= m) by (subst m; nia).
  assert (Hm4 : m + 4 < size_t_max).
  { assert (1 * (m + 4) <= height logImage * (m + 4))
      by (apply Z.mul_le_mono_nonneg_r; lia). lia. }
  rewrite logImageSetData8_run by (auto; lia). cbn [snd written].
  set (L := getRowLength (width logImage) logElement).
  assert (HL : m <= L < m + 4).
  { subst m L. rewrite <- Hd. apply getRowLength_8; rewrite ?Hd; auto. }
  set (rows := seqZ 0 (height logImage) ≫= row8 logImage logElement data).
  exists (hdr ++ rows).
  assert (Hrows : Z.of_nat (length rows) = height logImage * L).
  { subst rows. rewrite (length_bind_cells _ (Z.to_nat L)).
    - rewrite length_seqZ. nia.
    - intros y. apply length_row8. fold m. fold L. lia. }
  assert (HhL : height logImage * L <= height logImage * (m + 4)).
  { apply Z.mul_le_mono_nonneg_l; lia. }
  split.
  { rewrite fmap_app. f_equal. subst rows. apply eq_sym, fmap_bind_cells. }
  destruct (logImageElementGetData8_run logImage logElement
              {| content := hdr ++ rows; cursor := 0 |} buf)
    as (Hst & _ & Hdata); cbn [content];
    rewrite ?Hd; fold m; fold L; fold n; try lia.
  { rewrite length_app, Nat2Z.inj_add, Hrows, Hoff.
    assert ((height logImage - 1) * L + L = height logImage * L) by lia.
    lia. }
  { rewrite length_app, Nat2Z.inj_add, Hrows. lia. }
  split; [exact Hst|].
  rewrite Hd in Hdata. cbn [content] in Hdata.
  fold m in Hdata. fold L in Hdata. fold n in Hdata.
  etransitivity; [exact Hdata|].
  unfold decoded. apply list_fmap_ext. intros k i Hk.
  apply lookup_seqZ in Hk as [-> Hk]. rewrite !Z.add_0_l.
  f_equal. f_equal. f_equal.
  set (i := Z.of_nat k) in *.
  assert (Hi : 0 <= i) by (subst i; lia).
  assert (Hm0 : 0 < m) by (destruct (Z.eq_dec m 0); [subst n; nia|lia]).
  pose proof (Z.div_mod i m ltac:(lia)) as Hdm.
  pose proof (Z.mod_pos_bound i m Hm0) as Hmod.
  assert (Hy : 0 <= i / m < height logImage).
  { split; [apply Z.div_pos; lia|].
    apply Z.div_lt_upper_bound; [lia|]. subst n. lia. }
  unfold word_at. rewrite Hoff.
  (* the row of the sample, then the byte in the row *)
  replace (Z.to_nat (Z.of_nat (length hdr) + i / m * L + i mod m))
    with (length hdr + (Z.to_nat (i / m) * Z.to_nat L + Z.to_nat (i mod m)))%nat.
  2:{ assert (0 <= i / m * L) by (apply Z.mul_nonneg_nonneg; lia).
      rewrite <- Z.add_assoc, Z2Nat.inj_add, Nat2Z.id by lia.
      rewrite Z2Nat.inj_add, Z2Nat.inj_mul by lia. reflexivity. }
  rewrite drop_app_add.
  subst rows.
  replace (height logImage)
    with (i / m + (1 + (height logImage - i / m - 1))) by lia.
  rewrite seqZ_app, bind_app by lia.
  rewrite <- drop_drop.
  rewrite drop_app_length'
    by (rewrite (length_bind_cells _ (Z.to_nat L)), length_seqZ;
        [lia|intros y; apply length_row8; fold m; fold L; lia]).
  rewrite seqZ_app, bind_app by lia.
  change (seqZ (0 + i / m) 1) with [i / m]. cbn [mbind list_bind].
  rewrite app_nil_r.
  unfold row8 at 1. fold m. fold L. rewrite <- !app_assoc.
  replace (Z.to_nat (i mod m))
    with (length ((fun x => code8 data (i / m * m + x)) <$> seqZ 0 (i mod m)))
    by (rewrite length_fmap, length_seqZ; reflexivity).
  replace m with (i mod m + (1 + (m - i mod m - 1))) at 2 by lia.
  rewrite seqZ_app, fmap_app, <- app_assoc by lia.
  rewrite drop_app_length.
  rewrite seqZ_app, fmap_app, <- app_assoc by lia.
  change (seqZ (0 + i mod m) 1) with [i mod m].
  cbn [fmap list_fmap app take le_combine].
  replace (i / m * m + i mod m) with i by lia.
  change (Z.shiftl 0 8) with 0. rewrite Z.lor_0_r. reflexivity.
Qed.

(** X16.  Round trip of the 8-bit engines: what [logImageSetData8]
    writes behind a header, [logImageElementGetData8] reads back with the
    same handle as the 8-bit codes of the samples divided by 255: reader
    and writer agree on the padding of the rows. *)
Theorem logImageSetData8_GetData8_round_trip (logImage : LogImageFile)
    (logElement : LogImageElement) (data : list float) (hdr : list Z)
    (writes : nat) (buf : buffer) :
  let m := width logImage * imageDepth logImage in
  let n := height logImage * m in
  bitsPerSample logElement = 8 ->
  depth logElement = imageDepth logImage ->
  0 <= width logImage -> 0 < height logImage -> 0 <= imageDepth logImage ->
  Z.of_nat (length hdr) + height logImage * (m + 4) < size_t_max ->
  (Z.to_nat (height logImage) <= writes)%nat ->
  dataOffset logElement = Z.of_nat (length hdr) ->
  Z.of_nat (length buf) = n ->
  exists bytes,
    written (snd (logImageSetData8 true logImage logElement data
                    {| written := Some <$> hdr; budget := writes |}))
      = Some <$> bytes
    /\ fst (fst (logImageElementGetData8 logImage logElement
                   {| content := bytes; cursor := 0 |} buf)) = 0
    /\ snd (logImageElementGetData8 logImage logElement
              {| content := bytes; cursor := 0 |} buf)
       = decoded
           (fun i => F32.div (F32.of_Z (code8 data i)) (F32.of_Z 255)) n.
Proof. apply round_trip8. Qed.

Lemma logImageSetData8_GetData8_round_trip_witness :
  exists bytes,
    written (snd (logImageSetData8 true x8_image x8_element x8_samples
                    {| written := Some <$> [83; 68]; budget := 2 |}))
      = Some <$> bytes
    /\ fst (fst (logImageElementGetData8 x8_image x8_element
                   {| content := bytes; cursor := 0 |} (replicate 6 None))) = 0
    /\ snd (logImageElementGetData8 x8_image x8_element
              {| content := bytes; cursor := 0 |} (replicate 6 None))
       = decoded
           (fun i => F32.div (F32.of_Z (code8 x8_samples i)) (F32.of_Z 255))
           6.
Proof.
  apply (logImageSetData8_GetData8_round_trip x8_image x8_element x8_samples
           [83; 68] 2 (replicate 6 None));
    cbn; first [reflexivity | lia].
Defined.

(** ** Reading and writing an image *)

Section TopLevel.

Variable powf : float -> float -> float.
Variable log10f : float -> float.

(** X17.  [logImageGetDataRGBA] on an image whose first element has a
  sample size or packing that is not supported: it returns 1, whether
  or not the plane could be allocated, without reading the file and
  leaving the caller's buffer as it was. *)
Theorem logImageGetDataRGBA_unsupported_format (alloc_ok : Z -> bool)
  (merged_ok : bool) (logImage : LogImageFile) (e0 : LogImageElement)
  (rest : list LogImageElement) (f : stream) (data : list float)
  (dataIsLinearRGB : Z) :
element logImage = e0 :: rest ->
1 <= numElements logImage <= Z.of_nat (length (element logImage)) ->
is_skipped (descriptor e0) = false ->
~ supported (bitsPerSample e0) (packing e0) ->
logImageGetDataRGBA powf log10f alloc_ok merged_ok logImage f data
  dataIsLinearRGB
= Some (1, f, data).
Proof.
intros Hel Hn Hskip Hs. unfold logImageGetDataRGBA.
destruct (Z.ltb_spec (Z.of_nat (length (element logImage)))
            (numElements logImage)); [lia|].
rewrite Hel.
destruct (Z.to_nat (numElements logImage)) as [|k] eqn:Ek; [lia|].
cbn [take load_elements]. rewrite Hskip.
destruct (alloc_ok 0); cbn [negb]; [|reflexivity].
rewrite logImageElementGetData_refuses by exact Hs.
reflexivity.
Qed.

Lemma samples_of_decoded (g : Z -> float) (n : Z) :
samples_of (decoded g n) = g <$> seqZ 0 n.
Proof.
unfold samples_of, decoded. rewrite <- list_fmap_compose. reflexivity.
Qed.

Lemma memcpy_all (src dst0 : list float) (n : nat) :
length src = n -> length dst0 = n ->
run_conv (memcpy_conv n;; conv_ret 0) src dst0 = Some (0, src).
Proof.
intros Hs Hd. unfold run_conv, conv_bind, memcpy_conv, conv_ret.
cbn [dst]. rewrite Hs, Hd, Nat.leb_refl. cbn [andb dst].
rewrite take_ge, drop_ge by lia. rewrite app_nil_r. reflexivity.
Qed.

Lemma pixels_4 (logImage : LogImageFile) :
0 <= width logImage -> 0 <= height logImage ->
(4 * pixels logImage)%nat
= Z.to_nat (width logImage * height logImage * 4).
Proof. intros Hw Hh. unfold pixels. nia. Qed.

Lemma copy_transfer (t : Z) :
t = transfer_UserDefined \/ t = transfer_Linear
\/ t = transfer_Logarithmic ->
(t =? transfer_UserDefined) || (t =? transfer_Linear)
|| (t =? transfer_Logarithmic) = true.
Proof. intros [-> | [-> | ->]]; reflexivity. Qed.

(** The read of an image of one 16-bit RGBA element. *)
Lemma logImageGetDataRGBA_run16 (alloc_ok : Z -> bool) (merged_ok : bool)
  (logImage : LogImageFile) (e : LogImageElement) (f : stream)
  (data : list float) :
let n := width logImage * height logImage * 4 in
element logImage = [e] -> numElements logImage = 1 ->
descriptor e = descriptor_RGBA -> depth e = 4 -> bitsPerSample e = 16 ->
transfer e = transfer_UserDefined \/ transfer e = transfer_Linear
\/ transfer e = transfer_Logarithmic ->
alloc_ok 0 = true ->
0 <= width logImage -> 0 <= height logImage -> n < 2 ^ 32 ->
0 <= dataOffset e ->
dataOffset e + 2 * n <= Z.of_nat (length (content f)) ->
Z.of_nat (length data) = n ->
logImageGetDataRGBA powf log10f alloc_ok merged_ok logImage f data 0
= Some (0,
        {| content := content f; cursor := dataOffset e + 2 * n |},
        (fun i =>
           F32.div
             (F32.of_Z
                (swap_ushort (word_at 2 (content f) (dataOffset e + 2 * i))
                   (isMSB logImage)))
             (F32.of_Z 65535)) <$> seqZ 0 n).
Proof.
intros n Hel Hnum Hdesc Hdepth Hbps Ht Halloc Hw Hh Hn Hoff Hlen Hdata.
assert (Hn0 : 0 <= n) by (subst n; nia).
unfold logImageGetDataRGBA. rewrite Hel, Hnum.
change (Z.of_nat (length [e]) <? 1) with false. cbv iota.
change (Z.to_nat 1) with 1%nat. change (1 =? 1) with true. cbv iota.
cbn [take load_elements].
rewrite Hdesc. cbn [is_skipped]. rewrite Halloc. cbn [negb].
unfold logImageElementGetData. rewrite Hbps.
rewrite logImageElementGetData16_run;
  rewrite ?Hdepth, ?length_replicate; fold n; try lia.
cbn [Z.eqb negb load_elements app lookup list_lookup mbind option_bind
     default].
unfold convertLogElementToRGBA. rewrite Hdesc.
unfold convertRGBA_RGBA. rewrite (copy_transfer _ Ht).
rewrite samples_of_decoded.
rewrite memcpy_all.
- reflexivity.
- unfold id. rewrite length_fmap, length_seqZ, pixels_4 by lia. reflexivity.
- rewrite pixels_4 by lia. fold n. lia.
Qed.

(** X18.  [logImageGetDataRGBA] on an image of one 16-bit RGBA element
  whose transfer is user-defined, linear or logarithmic, read without
  conversion to linear RGB: it returns 0 and fills the buffer with the
  (swapped) 16-bit words of the file divided by 65535, in file order. *)
Theorem logImageGetDataRGBA_rgba16 (alloc_ok : Z -> bool) (merged_ok : bool)
  (logImage : LogImageFile) (e : LogImageElement) (f : stream)
  (data : list float) :
let n := width logImage * height logImage * 4 in
element logImage = [e] -> numElements logImage = 1 ->
descriptor e = descriptor_RGBA -> depth e = 4 -> bitsPerSample e = 16 ->
transfer e = transfer_UserDefined \/ transfer e = transfer_Linear
\/ transfer e = transfer_Logarithmic ->
alloc_ok 0 = true ->
0 <= width logImage -> 0 <= height logImage -> n < 2 ^ 32 ->
0 <= dataOffset e ->
dataOffset e + 2 * n <= Z.of_nat (length (content f)) ->
Z.of_nat (length data) = n ->
logImageGetDataRGBA powf log10f alloc_ok merged_ok logImage f data 0
= Some (0,
        {| content := content f; cursor := dataOffset e + 2 * n |},
        (fun i =>
           F32.div
             (F32.of_Z
                (swap_ushort (word_at 2 (content f) (dataOffset e + 2 * i))
                   (isMSB logImage)))
             (F32.of_Z 65535)) <$> seqZ 0 n).
Proof. apply logImageGetDataRGBA_run16. Qed.

(** The write of an image of one 16-bit RGBA element. *)
Lemma logImageSetDataRGBA_run16 (logImage : LogImageFile)
  (e : LogImageElement) (data : list float) (f : outfile) :
let n := width logImage * height logImage * 4 in
element logImage = [e] -> imageDepth logImage = 4 ->
descriptor e = descriptor_RGBA -> depth e = 4 -> bitsPerSample e = 16 ->
transfer e = transfer_UserDefined \/ transfer e = transfer_Linear
\/ transfer e = transfer_Logarithmic ->
0 <= width logImage -> 0 <= height logImage ->
2 * (width logImage * 4) < size_t_max ->
(Z.to_nat (height logImage) <= budget f)%nat ->
Z.of_nat (length data) = n ->
logImageSetDataRGBA powf log10f true true true logImage data 0 f
= Some (logImageSetData16 true logImage e data f).
Proof.
intros n Hel HD Hdesc Hdepth Hbps Ht Hw Hh Hsmall Hb Hdata.
assert (Hn0 : 0 <= n) by (subst n; nia).
unfold logImageSetDataRGBA. cbn [negb]. rewrite Hel.
cbn [lookup list_lookup].
unfold convertRGBAToLogElement. cbn [Z.eqb negb]. rewrite Hdesc.
unfold convertRGBA_RGBA. rewrite (copy_transfer _ Ht).
rewrite memcpy_all.
- cbn [Z.eqb negb]. rewrite Hbps. reflexivity.
- rewrite pixels_4 by lia. fold n. lia.
- rewrite length_replicate, HD, pixels_4 by lia. reflexivity.
Qed.

(** X19.  Round trip of the whole write and read paths for an image of
  one 16-bit RGBA element (transfer user-defined, linear or
  logarithmic, no conversion to or from linear RGB):
  [logImageSetDataRGBA] writes the pixels behind the header and
  [logImageGetDataRGBA] reads them back as the 16-bit codes of the
  samples divided by 65535. *)
Theorem logImageSetDataRGBA_GetDataRGBA_round_trip (logImage : LogImageFile)
  (e : LogImageElement) (data : list float) (hdr : list Z) (writes : nat)
  (out0 : list float) :
let n := width logImage * height logImage * 4 in
element logImage = [e] -> numElements logImage = 1 ->
imageDepth logImage = 4 ->
descriptor e = descriptor_RGBA -> depth e = 4 -> bitsPerSample e = 16 ->
transfer e = transfer_UserDefined \/ transfer e = transfer_Linear
\/ transfer e = transfer_Logarithmic ->
0 <= width logImage -> 0 < height logImage -> n < 2 ^ 32 ->
(Z.to_nat (height logImage) <= writes)%nat ->
dataOffset e = Z.of_nat (length hdr) ->
Z.of_nat (length data) = n ->
Z.of_nat (length out0) = n ->
exists out bytes,
  logImageSetDataRGBA powf log10f true true true logImage data 0
    {| written := Some <$> hdr; budget := writes |}
  = Some (0, out)
  /\ written out = Some <$> bytes
  /\ logImageGetDataRGBA powf log10f (fun _ => true) true logImage
       {| content := bytes; cursor := 0 |} out0 0
     = Some (0,
             {| content := bytes; cursor := Z.of_nat (length bytes) |},
             (fun i =>
                F32.div
                  (F32.of_Z (ushort (float_uint (load i data) 65535)))
                  (F32.of_Z 65535)) <$> seqZ 0 n).
Proof.
intros n Hel Hnum HD Hdesc Hdepth Hbps Ht Hw Hh Hn Hb Hoff Hdata Hout.
assert (Hsmall : 2 * (width logImage * imageDepth logImage) < size_t_max).
{ rewrite HD. unfold size_t_max.
  assert (width logImage * 1 <= width logImage * height logImage)
    by (apply Z.mul_le_mono_nonneg_l; lia).
  assert (2 ^ 32 < 2 ^ 64) by reflexivity. lia. }
rewrite (logImageSetDataRGBA_run16 logImage e data) by
  (rewrite ?HD in *; auto; cbn [budget]; lia).
rewrite logImageSetData16_run by (rewrite ?HD, ?Hdepth; auto; lia).
eexists _, (hdr ++ encode16 logImage data).
split; [reflexivity|]. split; [cbn [written]; apply eq_sym, fmap_app|].
assert (Hcells : encode16 logImage data
                 = seqZ 0 n ≫= (fun i => bytes16 (code16 logImage data i))).
{ unfold encode16. subst n. rewrite HD. f_equal. f_equal. lia. }
assert (Hlen : Z.of_nat (length (hdr ++ encode16 logImage data))
               = Z.of_nat (length hdr) + 2 * n).
{ rewrite length_app, Hcells,
    (length_bind_cells _ 2%nat) by reflexivity.
  rewrite length_seqZ. nia. }
rewrite (logImageGetDataRGBA_run16 (fun _ => true) true logImage e)
  by (auto; cbn [content]; lia).
cbn [content]. f_equal. f_equal; [f_equal; f_equal; lia|].
apply list_fmap_ext. intros k i Hk.
apply lookup_seqZ in Hk as [-> Hk]. rewrite !Z.add_0_l.
f_equal. f_equal.
unfold word_at. rewrite Hoff, Hcells.
rewrite (cell_at (fun i => bytes16 (code16 logImage data i)) 2 hdr n)
  by (try reflexivity; lia).
pose proof (ushort_range (float_uint (load (Z.of_nat k) data) 65535)) as H.
unfold code16.
rewrite (proj1 (cell16 _ (swap_ushort_range _ (isMSB logImage) H))).
apply swap_ushort_involutive. exact H.
Qed.

End TopLevel.

Lemma logImageGetDataRGBA_unsupported_format_witness :
  logImageGetDataRGBA Libm.powf Libm.log10f (fun _ => true) true
    (c9_image descriptor_RGBA 14) {| content := [1; 2; 3]; cursor := 1 |}
    (replicate 4 F32.zero) 0
  = Some (1, {| content := [1; 2; 3]; cursor := 1 |}, replicate 4 F32.zero).
Proof.
  apply (logImageGetDataRGBA_unsupported_format Libm.powf Libm.log10f
           (fun _ => true) true (c9_image descriptor_RGBA 14)
           (c9_element descriptor_RGBA 14) []).
  - reflexivity.
  - cbn. lia.
  - reflexivity.
  - unfold supported; cbn; lia.
Defined.

Lemma logImageGetDataRGBA_rgba16_witness :
  logImageGetDataRGBA Libm.powf Libm.log10f (fun _ => true) true
    x16rgba_image
    {| content := [83; 68] ++ replicate 16 255; cursor := 0 |}
    (replicate 8 F32.zero) 0
  = Some (0,
          {| content := [83; 68] ++ replicate 16 255; cursor := 2 + 2 * 8 |},
          (fun i =>
             F32.div
               (F32.of_Z
                  (swap_ushort
                     (word_at 2 ([83; 68] ++ replicate 16 255) (2 + 2 * i))
                     1))
               (F32.of_Z 65535)) <$> seqZ 0 8).
Proof.
  apply (logImageGetDataRGBA_rgba16 Libm.powf Libm.log10f (fun _ => true)
           true x16rgba_image x16rgba_element
           {| content := [83; 68] ++ replicate 16 255; cursor := 0 |}
           (replicate 8 F32.zero));
    first [reflexivity | right; left; reflexivity | cbn; lia].
Defined.

Lemma logImageSetDataRGBA_GetDataRGBA_round_trip_witness :
  exists out bytes,
    logImageSetDataRGBA Libm.powf Libm.log10f true true true x16rgba_image
      x16rgba_samples 0 {| written := Some <$> [83; 68]; budget := 2 |}
    = Some (0, out)
    /\ written out = Some <$> bytes
    /\ logImageGetDataRGBA Libm.powf Libm.log10f (fun _ => true) true
         x16rgba_image {| content := bytes; cursor := 0 |}
         (replicate 8 F32.zero) 0
       = Some (0,
               {| content := bytes; cursor := Z.of_nat (length bytes) |},
               (fun i =>
                  F32.div
                    (F32.of_Z
                       (ushort (float_uint (load i x16rgba_samples) 65535)))
                    (F32.of_Z 65535)) <$> seqZ 0 8).
Proof.
  apply (logImageSetDataRGBA_GetDataRGBA_round_trip Libm.powf Libm.log10f
           x16rgba_image x16rgba_element x16rgba_samples [83; 68] 2
           (replicate 8 F32.zero));
    first [reflexivity | right; left; reflexivity | cbn; lia].
Defined.

(** ** The element assembler: slots that stay unassigned *)

Lemma iter_opt_fails {S : Type} (body : Z -> S -> option S) (j : Z) :
  (forall s, body j s = None) ->
  forall (n : nat) (i : Z) (s : S),
    i <= j < i + Z.of_nat n -> iter_opt n i body s = None.
Proof.
  intros Hj n; induction n as [|n IH]; intros i s Hi; [lia|].
  cbn [iter_opt]. destruct (Z.eq_dec i j) as [->|Hne].
  - rewrite Hj. reflexivity.
  - destruct (body i s) as [s'|]; [|reflexivity]. apply IH. lia.
Qed.

(** A turn of the interleave loop over a table with a free slot below
    [numElements] indexes [element[-1]]. *)
Lemma interleave_pass_unassigned (logImage : LogImageFile) (sorted : list Z)
    (elementData : list (option (list float))) (st : merge_state)
    (i : nat) (k : Z) :
  Z.of_nat i < numElements logImage ->
  sorted !! i = Some k -> k < 0 ->
  interleave_pass logImage sorted elementData st = None.
Proof.
  intros Hi Hk Hneg. unfold interleave_pass.
  apply (iter_opt_fails _ (Z.of_nat i)); [|lia].
  intros s. rewrite Nat2Z.id, Hk. cbn [mbind option_bind].
  destruct (Z.ltb_spec k 0); [reflexivity|lia].
Qed.

Lemma assigned_insert (sorted : list Z) (k : nat) (v : Z) :
  (assigned (<[k := v]> sorted) <= assigned sorted + 1)%nat.
Proof.
  revert k; induction sorted as [|a l IH]; intros k;
    [destruct k; cbn; lia|].
  destruct k as [|k]; cbn [insert list_insert assigned].
  - destruct (0 <=? v); destruct (0 <=? a); lia.
  - etransitivity; [apply Nat.add_le_mono_l, (IH k)|lia].
Qed.

Lemma set_sorted_bound (k i : Z) (sorted sorted' : list Z) :
  set_sorted k i sorted = Some sorted' ->
  length sorted' = length sorted
  /\ (assigned sorted' <= assigned sorted + 1)%nat.
Proof.
  unfold set_sorted. destruct ((0 <=? k) && (k <? 8)); [|discriminate].
  intros E; injection E as <-. split; [apply length_insert|].
  apply assigned_insert.
Qed.

Lemma assemble_step_bound (hasAlpha mergedDepth i : Z) (d : descriptor_id)
    (merged merged' : descriptor_id) (sorted sorted' : list Z) :
  assemble_step hasAlpha mergedDepth i d (merged, sorted)
  = Some (merged', sorted') ->
  length sorted' = length sorted
  /\ (assigned sorted'
      <= assigned sorted + (if is_skipped d then 0 else 1))%nat.
Proof.
  unfold assemble_step.
  destruct d; cbn [is_skipped];
    try (intros E; injection E as <- <-; split; [reflexivity|lia]);
    repeat match goal with
           | |- context [if ?c then set_sorted _ _ _ else _] => destruct c
           end;
    match goal with
    | |- context [set_sorted ?k ?i ?s] =>
        destruct (set_sorted k i s) as [s1|] eqn:E; [|discriminate];
        apply set_sorted_bound in E;
        cbn [mbind option_bind]; intros E1; injection E1 as <- <-; exact E
    end.
Qed.

Lemma loadable_le (es : list LogImageElement) :
  (loadable es <= length es)%nat.
Proof.
  induction es as [|e l IH]; [reflexivity|].
  cbn [loadable length]. destruct (is_skipped (descriptor e)); lia.
Qed.

Lemma loadable_lt (es : list LogImageElement) (i : nat)
    (e : LogImageElement) :
  es !! i = Some e -> is_skipped (descriptor e) = true ->
  (loadable es < length es)%nat.
Proof.
  revert i; induction es as [|a l IH]; intros i Hi Hs; [discriminate|].
  cbn [loadable length]. destruct i as [|i].
  - injection Hi as ->. rewrite Hs. pose proof (loadable_le l). lia.
  - specialize (IH i Hi Hs). destruct (is_skipped (descriptor a)); lia.
Qed.

Lemma assemble_bound (logImage : LogImageFile) (hasAlpha : Z) :
  forall (n : nat) (i : nat) (st st' : descriptor_id * list Z),
    iter_opt n (Z.of_nat i)
      (fun i st =>
         e ← element logImage !! Z.to_nat i;
         assemble_step hasAlpha (imageDepth logImage) i (descriptor e) st)
      st = Some st' ->
    length (snd st') = length (snd st)
    /\ (assigned (snd st')
        <= assigned (snd st)
           + loadable (take n (drop i (element logImage))))%nat.
Proof.
  induction n as [|n IH]; intros i st st' H.
  - cbn in H. injection H as <-. split; [reflexivity|cbn; lia].
  - cbn [iter_opt] in H. rewrite Nat2Z.id in H.
    destruct (element logImage !! i) as [e|] eqn:He; [|discriminate].
    cbn [mbind option_bind] in H.
    destruct st as [merged sorted].
    destruct (assemble_step hasAlpha (imageDepth logImage) (Z.of_nat i)
                (descriptor e) (merged, sorted)) as [[m1 s1]|] eqn:E;
      [|discriminate].
    apply assemble_step_bound in E as [El Ea].
    replace (Z.of_nat i + 1) with (Z.of_nat (S i)) in H by lia.
    apply IH in H as [Hl Ha]. cbn [snd] in *.
    rewrite (drop_S _ _ _ He). cbn [take loadable].
    split; [congruence|lia].
Qed.

Lemma free_slot (sorted : list Z) :
  forall n : nat,
    (n <= length sorted)%nat -> (assigned sorted < n)%nat ->
    exists (i : nat) (k : Z), (i < n)%nat /\ sorted !! i = Some k /\ k < 0.
Proof.
  induction sorted as [|a l IH]; intros n Hn Ha; [cbn in *; lia|].
  destruct n as [|n]; [lia|]. cbn [assigned length] in *.
  destruct (Z.leb_spec 0 a) as [Hge|Hlt].
  - destruct (IH n ltac:(lia) ltac:(lia)) as (i & k & Hi & Hk & Hneg).
    exists (S i), k. repeat split; [lia|exact Hk|exact Hneg].
  - exists 0%nat, a. repeat split; [lia|exact Hlt].
Qed.

(** X20.  An image of several elements one of which is a Depth or a
    Composite element cannot be merged: the skipped element assigns no
    slot of [sortedElementData], so a slot below [numElements] keeps the
    value -1 and the first turn of the interleave loop indexes
    [element[-1]], which is undefined.  This holds for every descriptor of
    the other elements and every content of the planes. *)
Theorem logImageGetDataRGBA_merge_skipped_element (logImage : LogImageFile)
    (elementData : list (option (list float))) (i : nat)
    (e : LogImageElement) :
  numElements logImage <= 8 ->
  numElements logImage <= Z.of_nat (length (element logImage)) ->
  Z.of_nat i < numElements logImage ->
  element logImage !! i = Some e ->
  is_skipped (descriptor e) = true ->
  0 < width logImage * height logImage * imageDepth logImage ->
  logImageGetDataRGBA_merge logImage elementData = None.
Proof.
  intros Hn8 Hlen Hi He Hskip Htotal. unfold logImageGetDataRGBA_merge.
  destruct (element logImage !! 0%nat) as [element0|]; [|reflexivity].
  cbn [mbind option_bind].
  destruct (assemble logImage (hasAlpha_of logImage)) as [[merged sorted]|]
    eqn:Ea; [|reflexivity].
  cbn [mbind option_bind depth].
  unfold assemble in Ea.
  apply (assemble_bound logImage (hasAlpha_of logImage)
           (Z.to_nat (numElements logImage)) 0) in Ea as [Hl Hb].
  cbn [snd] in Hl, Hb. rewrite drop_0 in Hb. rewrite length_replicate in Hl.
  change (assigned (replicate 8 (-1))) with 0%nat in Hb.
  assert (Hlt : (loadable (take (Z.to_nat (numElements logImage))
                             (element logImage))
                 < Z.to_nat (numElements logImage))%nat).
  { pose proof (loadable_lt (take (Z.to_nat (numElements logImage))
                               (element logImage)) i e) as H.
    rewrite length_take in H.
    rewrite lookup_take_lt in H by lia.
    specialize (H He Hskip). lia. }
  destruct (free_slot sorted (Z.to_nat (numElements logImage))
              ltac:(lia) ltac:(lia)) as (j & k & Hj & Hk & Hneg).
  destruct (Z.to_nat (width logImage * height logImage * imageDepth logImage))
    as [|fuel] eqn:Ef; [lia|].
  cbn [interleave sampleIndex].
  destruct (Z.ltb_spec 0 (width logImage * height logImage
                          * imageDepth logImage)); [|lia].
  rewrite (interleave_pass_unassigned logImage sorted elementData _ j k)
    by (try assumption; lia).
  reflexivity.
Qed.

Lemma logImageGetDataRGBA_merge_skipped_element_witness :
  logImageGetDataRGBA_merge xdepth_image
    [Some [F32.one; F32.half; F32.zero]; None] = None.
Proof.
  apply (logImageGetDataRGBA_merge_skipped_element xdepth_image
           [Some [F32.one; F32.half; F32.zero]; None] 1
           (c1_element descriptor_Depth));
    first [reflexivity | cbn; lia].
Defined.

(** ** Closing and opening *)

(** X21.  [logImageClose] on a handle with an open file: the file is
    closed, then the handle is freed, in this order and once each; the
    handle is dead afterwards, the other handles are untouched, and a
    second [logImageClose] of the same pointer is undefined (the pointer
    dangles). *)
Theorem logImageClose_open_file (w : world) (p : positive)
    (h : LogImageFile) (fh : positive) :
  handles w !! p = Some h -> file h = Some fh ->
  exists w',
    logImageClose (Some p) w = Some w'
    /\ calls w' = calls w ++ [call_fclose fh; call_MEM_freeN p]
    /\ (fh ∉ open_files w')
    /\ handles w' !! p = None
    /\ (forall q, q <> p -> handles w' !! q = handles w !! q)
    /\ logImageClose (Some p) w' = None.
Proof.
  intros Hp Hf. unfold logImageClose at 1. rewrite Hp.
  cbn [mbind option_bind]. rewrite Hf.
  eexists; split; [reflexivity|].
  cbn [calls open_files handles]. repeat split.
  - rewrite <- app_assoc. reflexivity.
  - intros Hin. apply elem_of_difference in Hin as [_ Hn].
    apply Hn, elem_of_singleton. reflexivity.
  - apply lookup_delete_eq.
  - intros q Hq. rewrite lookup_delete_ne, lookup_insert_ne by congruence.
    reflexivity.
  - unfold logImageClose. cbn [handles]. rewrite lookup_delete_eq. reflexivity.
Qed.

Lemma logImageClose_open_file_witness :
  exists w',
    logImageClose (Some 7%positive) xclose_world = Some w'
    /\ calls w' = calls xclose_world
                  ++ [call_fclose 1%positive; call_MEM_freeN 7%positive]
    /\ (1%positive ∉ open_files w')
    /\ handles w' !! 7%positive = None
    /\ (forall q, q <> 7%positive ->
        handles w' !! q = handles xclose_world !! q)
    /\ logImageClose (Some 7%positive) w' = None.
Proof.
  apply (logImageClose_open_file xclose_world 7%positive x16_image 1%positive).
  - reflexivity.
  - reflexivity.
Defined.

Section OpeningFacts.

Variable DPX_FILE_MAGIC : Z.
Variable CINEON_FILE_MAGIC : Z.
Variable dpxOpen : list Z -> Z -> option LogImageFile.
Variable cineonOpen : list Z -> Z -> option LogImageFile.

(** X22.  [logImageOpenFromMemory] returns a handle only for a buffer
  of at least four bytes whose first word is one of the two magic
  numbers in either byte order, and the handle is then the one the
  parser of that container returns, the DPX parser being tried first;
  in every other case it returns null, whatever the parsers would
  do. *)
Theorem logImageOpenFromMemory_magic (buffer : list Z) (size : Z) :
let magic := magicNum buffer in
let dpx := magic = DPX_FILE_MAGIC \/ magic = swap_uint DPX_FILE_MAGIC 1 in
let cin :=
  magic = CINEON_FILE_MAGIC \/ magic = swap_uint CINEON_FILE_MAGIC 1 in
(size < 4 \/ (~ dpx /\ ~ cin) ->
 logImageOpenFromMemory DPX_FILE_MAGIC CINEON_FILE_MAGIC dpxOpen cineonOpen
   buffer size = None)
/\
(4 <= size -> dpx ->
 logImageOpenFromMemory DPX_FILE_MAGIC CINEON_FILE_MAGIC dpxOpen cineonOpen
   buffer size = dpxOpen buffer size)
/\
(4 <= size -> ~ dpx -> cin ->
 logImageOpenFromMemory DPX_FILE_MAGIC CINEON_FILE_MAGIC dpxOpen cineonOpen
   buffer size = cineonOpen buffer size).
Proof.
intros magic dpx cin. subst dpx cin.
unfold logImageOpenFromMemory, logImageIsDpx, logImageIsCineon.
fold magic.
destruct (Z.ltb_spec size 4) as [Hs|Hs].
- repeat split; intros; first [reflexivity | lia].
- destruct (Z.eqb_spec magic DPX_FILE_MAGIC) as [D1|D1];
    destruct (Z.eqb_spec magic (swap_uint DPX_FILE_MAGIC 1)) as [D2|D2];
    destruct (Z.eqb_spec magic CINEON_FILE_MAGIC) as [C1|C1];
    destruct (Z.eqb_spec magic (swap_uint CINEON_FILE_MAGIC 1)) as [C2|C2];
    cbn [orb]; repeat split; intros; try reflexivity; try lia;
    exfalso; tauto.
Qed.

End OpeningFacts.

Lemma logImageOpenFromMemory_magic_witness :
  logImageOpenFromMemory 1396985944 2150629248
    (fun _ _ => Some x16_image) (fun _ _ => Some x8_image)
    [83; 68; 80] 3 = None.
Proof.
  apply (proj1 (logImageOpenFromMemory_magic 1396985944 2150629248
                  (fun _ _ => Some x16_image) (fun _ _ => Some x8_image)
                  [83; 68; 80] 3)).
  left. lia.
Defined.

(** ** The sRGB tables *)

Lemma lut_head (F : Z -> float) (n : Z) :
  1 <= n -> map F (seqZ 0 n) !! 0%nat = Some (F 0).
Proof.
  intros Hn. rewrite seqZ_cons by lia. reflexivity.
Qed.

(** X23.  Code 0 of the two sRGB tables is +0.0 for every positive
    finite [maxValue], whatever the C library's [powf] returns: black is
    mapped to black in both directions. *)
Theorem srgb_luts_black (powf : float -> float -> float)
    (logElement : LogImageElement) (m : positive) (x : Z) :
  maxValue logElement = S754_finite false m x ->
  1 <= lutsize logElement ->
  getLinToSrgbLut powf logElement !! 0%nat = Some F32.zero /\
  getSrgbToLinLut powf logElement !! 0%nat = Some F32.zero.
Proof.
  intros Hmax Hsize. unfold getLinToSrgbLut, getSrgbToLinLut.
  rewrite !lut_head by exact Hsize. rewrite Hmax.
  split; reflexivity.
Qed.

Lemma srgb_luts_black_witness :
  getLinToSrgbLut Libm.powf c2_element !! 0%nat = Some F32.zero /\
  getSrgbToLinLut Libm.powf c2_element !! 0%nat = Some F32.zero.
Proof.
  apply (srgb_luts_black Libm.powf c2_element 16760832%positive (-14)).
  - reflexivity.
  - vm_compute. congruence.
Defined.

(** ** The straight copies between RGB and RGBA *)

Lemma split4 {A : Type} (d : list A) (q : nat) :
  (q + 4 <= length d)%nat ->
  exists x0 x1 x2 x3,
    d = take q d ++ x0 :: x1 :: x2 :: x3 :: drop (q + 4) d.
Proof.
  intros H.
  assert (Hl : length (take 4 (drop q d)) = 4%nat)
    by (rewrite length_take, length_drop; lia).
  destruct (take 4 (drop q d)) as [|x0 [|x1 [|x2 [|x3 [|x4 l]]]]] eqn:E;
    try discriminate Hl.
  exists x0, x1, x2, x3.
  rewrite <- (take_drop q d) at 1. f_equal.
  rewrite <- (take_drop 4 (drop q d)), E, drop_drop. reflexivity.
Qed.

Lemma split3 {A : Type} (d : list A) (q : nat) :
  (q + 3 <= length d)%nat ->
  exists x0 x1 x2,
    d = take q d ++ x0 :: x1 :: x2 :: drop (q + 3) d.
Proof.
  intros H.
  assert (Hl : length (take 3 (drop q d)) = 3%nat)
    by (rewrite length_take, length_drop; lia).
  destruct (take 3 (drop q d)) as [|x0 [|x1 [|x2 [|x3 l]]]] eqn:E;
    try discriminate Hl.
  exists x0, x1, x2.
  rewrite <- (take_drop q d) at 1. f_equal.
  rewrite <- (take_drop 3 (drop q d)), E, drop_drop. reflexivity.
Qed.

Lemma insert4 {A : Type} (d : list A) (q : Z) (a b c e : A) :
  0 <= q -> q + 4 <= Z.of_nat (length d) ->
  <[Z.to_nat (q + 1 + 1 + 1) := e]>
    (<[Z.to_nat (q + 1 + 1) := c]>
       (<[Z.to_nat (q + 1) := b]> (<[Z.to_nat q := a]> d)))
  = take (Z.to_nat q) d ++ [a; b; c; e] ++ drop (Z.to_nat (q + 4)) d.
Proof.
  intros Hq Hl.
  destruct (split4 d (Z.to_nat q) ltac:(lia)) as (x0 & x1 & x2 & x3 & Hd).
  replace (Z.to_nat (q + 4)) with (Z.to_nat q + 4)%nat by lia.
  set (pre := take (Z.to_nat q) d) in *.
  set (post := drop (Z.to_nat q + 4) d) in *.
  assert (Hpre : length pre = Z.to_nat q)
    by (unfold pre; rewrite length_take; lia).
  replace (Z.to_nat (q + 1 + 1 + 1)) with (length pre + 3)%nat by lia.
  replace (Z.to_nat (q + 1 + 1)) with (length pre + 2)%nat by lia.
  replace (Z.to_nat (q + 1)) with (length pre + 1)%nat by lia.
  replace (Z.to_nat q) with (length pre + 0)%nat by lia.
  rewrite Hd. rewrite !insert_app_r. reflexivity.
Qed.

Lemma insert3 {A : Type} (d : list A) (q : Z) (a b c : A) :
  0 <= q -> q + 3 <= Z.of_nat (length d) ->
  <[Z.to_nat (q + 1 + 1) := c]>
    (<[Z.to_nat (q + 1) := b]> (<[Z.to_nat q := a]> d))
  = take (Z.to_nat q) d ++ [a; b; c] ++ drop (Z.to_nat (q + 3)) d.
Proof.
  intros Hq Hl.
  destruct (split3 d (Z.to_nat q) ltac:(lia)) as (x0 & x1 & x2 & Hd).
  replace (Z.to_nat (q + 3)) with (Z.to_nat q + 3)%nat by lia.
  set (pre := take (Z.to_nat q) d) in *.
  set (post := drop (Z.to_nat q + 3) d) in *.
  assert (Hpre : length pre = Z.to_nat q)
    by (unfold pre; rewrite length_take; lia).
  replace (Z.to_nat (q + 1 + 1)) with (length pre + 2)%nat by lia.
  replace (Z.to_nat (q + 1)) with (length pre + 1)%nat by lia.
  replace (Z.to_nat q) with (length pre + 0)%nat by lia.
  rewrite Hd. rewrite !insert_app_r. reflexivity.
Qed.

Lemma load_lookup (src : list float) (i : Z) :
  0 <= i < Z.of_nat (length src) ->
  src !! Z.to_nat i = Some (load i src).
Proof.
  intros Hi. unfold load.
  destruct (lookup_lt_is_Some_2 src (Z.to_nat i) ltac:(lia)) as [v Hv].
  rewrite Hv. f_equal. symmetry. apply nth_lookup_Some with (d := F32.zero).
  exact Hv.
Qed.

(** A pixel loop whose body reads [r] samples and stores [w] samples
    computed from them: pixel [k] of the destination is [F k]. *)
Section PixelLoop.

Variables r w : Z.
Variable F : Z -> list float.
Variable body : conv unit.
Variable src : list float.

Hypothesis r_pos : 0 <= r.
Hypothesis w_pos : 0 <= w.
Hypothesis length_F : forall k, Z.of_nat (length (F k)) = w.
Hypothesis body_step : forall (k : Z) (c : cursors),
0 <= k -> r * (k + 1) <= Z.of_nat (length src) ->
src_ptr c = r * k -> dst_ptr c = w * k ->
w * (k + 1) <= Z.of_nat (length (dst c)) ->
body src c =
  Some (tt, {| src_ptr := r * (k + 1); dst_ptr := w * (k + 1);
               dst := take (Z.to_nat (w * k)) (dst c) ++ F k
                      ++ drop (Z.to_nat (w * (k + 1))) (dst c) |}).

Lemma pixel_loop (n : nat) :
forall (k : Z) (c : cursors),
  0 <= k -> r * (k + Z.of_nat n) <= Z.of_nat (length src) ->
  src_ptr c = r * k -> dst_ptr c = w * k ->
  w * (k + Z.of_nat n) <= Z.of_nat (length (dst c)) ->
  repeat_conv n body src c =
    Some (tt, {| src_ptr := r * (k + Z.of_nat n);
                 dst_ptr := w * (k + Z.of_nat n);
                 dst := take (Z.to_nat (w * k)) (dst c)
                        ++ (seqZ k (Z.of_nat n) ≫= F)
                        ++ drop (Z.to_nat (w * (k + Z.of_nat n))) (dst c) |}).
Proof.
induction n as [|n IH]; intros k c Hk Hsrc Hs Hd Hdst.
- cbn [repeat_conv conv_ret]. rewrite Z.add_0_r.
  cbn [Z.of_nat seqZ]. rewrite seqZ_nil by lia. cbn [mbind list_bind app].
  rewrite take_drop. destruct c; cbn in *; subst; reflexivity.
- cbn [repeat_conv]. unfold conv_bind at 1.
  assert (Hk1 : r * (k + 1) <= r * (k + Z.of_nat (S n)))
    by (apply Z.mul_le_mono_nonneg_l; lia).
  assert (Hk2 : w * (k + 1) <= w * (k + Z.of_nat (S n)))
    by (apply Z.mul_le_mono_nonneg_l; lia).
  assert (Hk3 : 0 <= w * k) by (apply Z.mul_nonneg_nonneg; lia).
  rewrite (body_step k c) by lia.
  assert (HlF : length (F k) = Z.to_nat w) by (specialize (length_F k); lia).
  rewrite (IH (k + 1)); cbn [src_ptr dst_ptr dst];
    rewrite ?length_app, ?length_take, ?length_drop; try lia.
  f_equal. f_equal.
  replace (k + 1 + Z.of_nat n) with (k + Z.of_nat (S n)) by lia.
  f_equal.
  (* the destination: the pixels so far, pixel k, the pixels to come *)
  rewrite (seqZ_cons k) by lia. cbn [mbind list_bind].
  replace (Z.succ k) with (k + 1) by lia.
  replace (Z.pred (Z.of_nat (S n))) with (Z.of_nat n) by lia.
  rewrite <- !app_assoc.
  rewrite take_app_ge by (rewrite length_take; lia).
  rewrite length_take.
  rewrite take_app_length'
    by (rewrite HlF; replace (w * (k + 1)) with (w * k + w) by lia; lia).
  rewrite !app_assoc.
  rewrite drop_app_ge
    by (rewrite !length_app, length_take, HlF; lia).
  rewrite !length_app, length_take, HlF.
  rewrite drop_drop. rewrite <- !app_assoc.
  do 3 f_equal. f_equal.
  replace (w * (k + 1)) with (w * k + w) by lia.
  replace (w * (k + Z.of_nat (S n)))
    with (w * k + w + w * Z.of_nat n) by lia.
  assert (0 <= w * Z.of_nat n) by (apply Z.mul_nonneg_nonneg; lia).
  lia.
Qed.

Lemma pixel_loop_run (n : nat) (dst0 : list float) :
r * Z.of_nat n <= Z.of_nat (length src) ->
Z.of_nat (length dst0) = w * Z.of_nat n ->
run_conv (repeat_conv n body;; conv_ret 0) src dst0
= Some (0, seqZ 0 (Z.of_nat n) ≫= F).
Proof.
intros Hsrc Hdst. unfold run_conv, conv_bind.
rewrite (pixel_loop n 0); cbn [src_ptr dst_ptr dst]; try lia.
unfold conv_ret. cbn [dst]. rewrite Z.mul_0_r. cbn [Z.to_nat take app].
rewrite drop_ge by lia. rewrite app_nil_r. reflexivity.
Qed.

End PixelLoop.

Lemma emit_at (v : float) (src : list float) (c : cursors) :
  0 <= dst_ptr c < Z.of_nat (length (dst c)) ->
  emit v src c =
    Some (tt, {| src_ptr := src_ptr c; dst_ptr := dst_ptr c + 1;
                 dst := <[Z.to_nat (dst_ptr c) := v]> (dst c) |}).
Proof.
  intros H. unfold emit.
  destruct (Z.leb_spec 0 (dst_ptr c)); [|lia].
  destruct (Z.ltb_spec (dst_ptr c) (Z.of_nat (length (dst c)))); [|lia].
  reflexivity.
Qed.

Lemma read_inc_at (src : list float) (c : cursors) :
  0 <= src_ptr c < Z.of_nat (length src) ->
  read_inc src c =
    Some (load (src_ptr c) src,
          {| src_ptr := src_ptr c + 1; dst_ptr := dst_ptr c;
             dst := dst c |}).
Proof.
  intros H. unfold read_inc, conv_bind, deref, advance, conv_ret.
  destruct (Z.leb_spec 0 (src_ptr c)); [|lia].
  rewrite load_lookup by lia. reflexivity.
Qed.

Lemma convertRGB_RGBA_step (src : list float) (k : Z) (c : cursors) :
  0 <= k -> 3 * (k + 1) <= Z.of_nat (length src) ->
  src_ptr c = 3 * k -> dst_ptr c = 4 * k ->
  4 * (k + 1) <= Z.of_nat (length (dst c)) ->
  (do r <- read_inc; emit r;;
   do g <- read_inc; emit g;;
   do b <- read_inc; emit b;;
   emit F32.one) src c =
    Some (tt, {| src_ptr := 3 * (k + 1); dst_ptr := 4 * (k + 1);
                 dst := take (Z.to_nat (4 * k)) (dst c) ++ rgb_to_rgba src k
                        ++ drop (Z.to_nat (4 * (k + 1))) (dst c) |}).
Proof.
  intros Hk Hsrc Hs Hd Hdst. destruct c as [sp dp d]; cbn in Hs, Hd, Hdst.
  subst sp dp. unfold conv_bind.
  repeat first
    [ rewrite read_inc_at by (cbn [src_ptr]; lia); cbn [src_ptr dst_ptr dst]
    | rewrite emit_at
        by (cbn [dst_ptr dst]; rewrite ?length_insert; lia);
      cbn [src_ptr dst_ptr dst] ].
  f_equal. f_equal. f_equal; [lia|lia|].
  rewrite insert4 by lia. unfold rgb_to_rgba.
  replace (4 * k + 4) with (4 * (k + 1)) by lia.
  replace (3 * k + 1 + 1) with (3 * k + 2) by lia. reflexivity.
Qed.

Lemma convertRGBA_RGB_step (src : list float) (k : Z) (c : cursors) :
  0 <= k -> 4 * (k + 1) <= Z.of_nat (length src) ->
  src_ptr c = 4 * k -> dst_ptr c = 3 * k ->
  3 * (k + 1) <= Z.of_nat (length (dst c)) ->
  (do r <- read_inc; emit r;;
   do g <- read_inc; emit g;;
   do b <- read_inc; emit b;;
   advance 1) src c =
    Some (tt, {| src_ptr := 4 * (k + 1); dst_ptr := 3 * (k + 1);
                 dst := take (Z.to_nat (3 * k)) (dst c) ++ rgba_to_rgb src k
                        ++ drop (Z.to_nat (3 * (k + 1))) (dst c) |}).
Proof.
  intros Hk Hsrc Hs Hd Hdst. destruct c as [sp dp d]; cbn in Hs, Hd, Hdst.
  subst sp dp. unfold conv_bind.
  repeat first
    [ rewrite read_inc_at by (cbn [src_ptr]; lia); cbn [src_ptr dst_ptr dst]
    | rewrite emit_at
        by (cbn [dst_ptr dst]; rewrite ?length_insert; lia);
      cbn [src_ptr dst_ptr dst] ].
  unfold advance. cbn [src_ptr dst_ptr dst].
  f_equal. f_equal. f_equal; [lia|lia|].
  rewrite insert3 by lia. unfold rgba_to_rgb.
  replace (3 * k + 3) with (3 * (k + 1)) by lia.
  replace (4 * k + 1 + 1) with (4 * k + 2) by lia. reflexivity.
Qed.

Lemma plain_transfer (t : Z) :
  t = transfer_Unspecified \/ t = transfer_UserDefined
  \/ t = transfer_Linear \/ t = transfer_Logarithmic ->
  is_plain_transfer t = true.
Proof. intros [-> | [-> | [-> | ->]]]; reflexivity. Qed.

Section Copies.

Variable powf : float -> float -> float.
Variable log10f : float -> float.

Lemma convertRGB_RGBA_run (logImage : LogImageFile)
  (logElement : LogImageElement) (src dst0 : list float) :
let n := width logImage * height logImage in
descriptor logElement = descriptor_RGB ->
is_plain_transfer (transfer logElement) = true ->
0 <= n -> 3 * n <= Z.of_nat (length src) ->
Z.of_nat (length dst0) = 4 * n ->
convertLogElementToRGBA powf log10f src dst0 logImage logElement 0
= Some (0, seqZ 0 n ≫= rgb_to_rgba src).
Proof.
intros n Hdesc Ht Hn Hsrc Hdst.
unfold convertLogElementToRGBA. rewrite Hdesc.
unfold convertRGB_RGBA. rewrite Ht.
rewrite (pixel_loop_run 3 4 (rgb_to_rgba src));
  unfold pixels; fold n; rewrite ?Z2Nat.id by lia; try lia.
- reflexivity.
- reflexivity.
- intros k c. apply convertRGB_RGBA_step.
Qed.

Lemma convertRGBA_RGB_run (logImage : LogImageFile)
  (logElement : LogImageElement) (src dst0 : list float) :
let n := width logImage * height logImage in
descriptor logElement = descriptor_RGB ->
is_plain_transfer (transfer logElement) = true ->
0 <= n -> 4 * n <= Z.of_nat (length src) ->
Z.of_nat (length dst0) = 3 * n ->
convertRGBAToLogElement powf log10f true src dst0 logImage logElement 0
= Some (0, seqZ 0 n ≫= rgba_to_rgb src).
Proof.
intros n Hdesc Ht Hn Hsrc Hdst.
unfold convertRGBAToLogElement. cbn [Z.eqb negb]. rewrite Hdesc.
unfold convertRGBA_RGB. rewrite Ht.
rewrite (pixel_loop_run 4 3 (rgba_to_rgb src));
  unfold pixels; fold n; rewrite ?Z2Nat.id by lia; try lia.
- reflexivity.
- reflexivity.
- intros k c. apply convertRGBA_RGB_step.
Qed.

(** X24.  An RGB element with an unspecified, user-defined, linear or
  logarithmic transfer, read without conversion to linear RGB:
  [convertLogElementToRGBA] returns 0 and pixel [k] of the result is
  the three samples of pixel [k] of the source, untouched, followed by
  alpha 1.0. *)
Theorem convertLogElementToRGBA_rgb_copy (logImage : LogImageFile)
  (logElement : LogImageElement) (src dst0 : list float) :
let n := width logImage * height logImage in
descriptor logElement = descriptor_RGB ->
is_plain_transfer (transfer logElement) = true ->
0 <= n -> 3 * n <= Z.of_nat (length src) ->
Z.of_nat (length dst0) = 4 * n ->
convertLogElementToRGBA powf log10f src dst0 logImage logElement 0
= Some (0, seqZ 0 n ≫= rgb_to_rgba src).
Proof. apply convertRGB_RGBA_run. Qed.

Lemma load_cells (F : Z -> list float) (c n k j : Z) :
(forall x, Z.of_nat (length (F x)) = c) ->
0 <= k < n -> 0 <= j < c ->
load (c * k + j) (seqZ 0 n ≫= F) = load j (F k).
Proof.
intros HF Hk Hj. unfold load.
assert (Hc : forall x, length (F x) = Z.to_nat c)
  by (intros x; specialize (HF x); lia).
replace n with (k + (1 + (n - k - 1))) by lia.
rewrite seqZ_app, bind_app by lia.
rewrite seqZ_app, bind_app by lia.
change (seqZ (0 + k) 1) with [k]. cbn [mbind list_bind].
rewrite app_nil_r.
assert (Hpre : length (seqZ 0 k ≫= F) = (Z.to_nat k * Z.to_nat c)%nat)
  by (rewrite (length_bind_cells F (Z.to_nat c)), length_seqZ by exact Hc;
      reflexivity).
rewrite app_nth2 by nia.
rewrite Hpre.
replace (Z.to_nat (c * k + j) - Z.to_nat k * Z.to_nat c)%nat
  with (Z.to_nat j) by nia.
apply app_nth1. rewrite Hc. lia.
Qed.

(** X25.  Round trip of the colour converters through an RGB element
  with an unspecified, user-defined, linear or logarithmic transfer:
  [convertRGBAToLogElement] followed by [convertLogElementToRGBA] gives
  back the red, green and blue samples of every pixel exactly, and
  alpha 1.0 in place of the alpha that was given. *)
Theorem convertRGBA_RGB_RGBA_round_trip (logImage : LogImageFile)
  (logElement : LogImageElement) (src elementData0 dst0 : list float) :
let n := width logImage * height logImage in
descriptor logElement = descriptor_RGB ->
is_plain_transfer (transfer logElement) = true ->
0 <= n -> Z.of_nat (length src) = 4 * n ->
Z.of_nat (length elementData0) = 3 * n ->
Z.of_nat (length dst0) = 4 * n ->
exists elementData,
  convertRGBAToLogElement powf log10f true src elementData0 logImage
    logElement 0
  = Some (0, elementData)
  /\ convertLogElementToRGBA powf log10f elementData dst0 logImage
       logElement 0
     = Some (0, seqZ 0 n ≫= rgba_opaque src).
Proof.
intros n Hdesc Ht Hn Hsrc Hel Hdst.
exists (seqZ 0 n ≫= rgba_to_rgb src). split.
- apply convertRGBA_RGB_run; auto; lia.
- rewrite convertRGB_RGBA_run; auto; fold n; try lia.
  + f_equal. f_equal. apply Forall_bind_ext, Forall_forall.
    intros k Hk. apply elem_of_seqZ in Hk.
    unfold rgb_to_rgba, rgba_opaque.
    replace (3 * k) with (3 * k + 0) at 1 by lia.
    rewrite !(load_cells (rgba_to_rgb src) 3 n k)
      by (try reflexivity; lia).
    reflexivity.
  + rewrite (length_bind_cells _ 3%nat) by reflexivity.
    rewrite length_seqZ. lia.
Qed.

End Copies.

Lemma convertLogElementToRGBA_rgb_copy_witness :
  convertLogElementToRGBA Libm.powf Libm.log10f
    [F32.dec 1 1; F32.dec 2 1; F32.dec 3 1] (replicate 4 F32.zero)
    (c6_image 1 descriptor_RGB transfer_Unspecified)
    (c6_element descriptor_RGB transfer_Unspecified) 0
  = Some (0, seqZ 0 1 ≫= rgb_to_rgba [F32.dec 1 1; F32.dec 2 1; F32.dec 3 1]).
Proof.
  apply (convertLogElementToRGBA_rgb_copy Libm.powf Libm.log10f
           (c6_image 1 descriptor_RGB transfer_Unspecified)
           (c6_element descriptor_RGB transfer_Unspecified));
    first [reflexivity | cbn; lia].
Defined.

Lemma convertRGBA_RGB_RGBA_round_trip_witness :
  exists elementData,
    convertRGBAToLogElement Libm.powf Libm.log10f true
      [F32.dec 1 1; F32.dec 2 1; F32.dec 3 1; F32.half]
      (replicate 3 F32.zero)
      (c6_image 1 descriptor_RGB transfer_Linear)
      (c6_element descriptor_RGB transfer_Linear) 0
    = Some (0, elementData)
    /\ convertLogElementToRGBA Libm.powf Libm.log10f elementData
         (replicate 4 F32.zero)
         (c6_image 1 descriptor_RGB transfer_Linear)
         (c6_element descriptor_RGB transfer_Linear) 0
       = Some (0, seqZ 0 1
                  ≫= rgba_opaque
                       [F32.dec 1 1; F32.dec 2 1; F32.dec 3 1; F32.half]).
Proof.
  apply (convertRGBA_RGB_RGBA_round_trip Libm.powf Libm.log10f
           (c6_image 1 descriptor_RGB transfer_Linear)
           (c6_element descriptor_RGB transfer_Linear));
    first [reflexivity | cbn; lia].
Defined.

(** ** An 8-bit RGB image, written and read *)

Lemma load_fmap (g : Z -> float) (n i : Z) :
  0 <= i < n -> load i (g <$> seqZ 0 n) = g i.
Proof.
  intros Hi. unfold load.
  apply nth_lookup_Some with (d := F32.zero).
  rewrite list_lookup_fmap, lookup_seqZ_lt by lia.
  cbn. f_equal. f_equal. lia.
Qed.

Section TopLevel8.

Variable powf : float -> float -> float.
Variable log10f : float -> float.

(** X26.  Round trip of the whole write and read paths for an image of
  one 8-bit RGB element (transfer unspecified, user-defined, linear or
  logarithmic, no conversion to or from linear RGB):
  [logImageSetDataRGBA] writes padded rows behind the header and
  [logImageGetDataRGBA] reads them back; every colour sample comes back
  as its 8-bit code divided by 255 and every alpha as 1.0. *)
Theorem logImageSetDataRGBA_GetDataRGBA_round_trip_rgb8
  (logImage : LogImageFile) (e : LogImageElement) (data : list float)
  (hdr : list Z) (writes : nat) (out0 : list float) :
let n := width logImage * height logImage in
element logImage = [e] -> numElements logImage = 1 ->
imageDepth logImage = 3 ->
descriptor e = descriptor_RGB -> depth e = 3 -> bitsPerSample e = 8 ->
is_plain_transfer (transfer e) = true ->
0 <= width logImage -> 0 < height logImage ->
Z.of_nat (length hdr) + height logImage * (width logImage * 3 + 4)
  < size_t_max ->
(Z.to_nat (height logImage) <= writes)%nat ->
dataOffset e = Z.of_nat (length hdr) ->
Z.of_nat (length data) = 4 * n ->
Z.of_nat (length out0) = 4 * n ->
exists out bytes f',
  logImageSetDataRGBA powf log10f true true true logImage data 0
    {| written := Some <$> hdr; budget := writes |}
  = Some (0, out)
  /\ written out = Some <$> bytes
  /\ logImageGetDataRGBA powf log10f (fun _ => true) true logImage
       {| content := bytes; cursor := 0 |} out0 0
     = Some (0, f', seqZ 0 n ≫= rgb8_pixel data).
Proof.
intros n Hel Hnum HD Hdesc Hdepth Hbps Ht Hw Hh Hsmall Hb Hoff Hdata Hout.
assert (Hn : 0 <= n) by (subst n; nia).
assert (Hm4 : width logImage * 3 + 4 < size_t_max).
{ assert (1 * (width logImage * 3 + 4)
          <= height logImage * (width logImage * 3 + 4))
    by (apply Z.mul_le_mono_nonneg_r; lia). lia. }
set (ed := seqZ 0 n ≫= rgba_to_rgb data).
assert (Hed : Z.of_nat (length ed) = 3 * n).
{ subst ed. rewrite (length_bind_cells _ 3%nat) by reflexivity.
  rewrite length_seqZ. lia. }
(* the write path *)
assert (Hset :
  logImageSetDataRGBA powf log10f true true true logImage data 0
    {| written := Some <$> hdr; budget := writes |}
  = Some (logImageSetData8 true logImage e ed
            {| written := Some <$> hdr; budget := writes |})).
{ unfold logImageSetDataRGBA. cbn [negb]. rewrite Hel.
  cbn [lookup list_lookup].
  rewrite (convertRGBA_RGB_run powf log10f logImage e data)
    by (rewrite ?length_replicate, ?HD; fold n; auto; lia).
  cbn [Z.eqb negb]. rewrite Hbps. reflexivity. }
destruct (round_trip8 logImage e ed hdr writes
            (replicate (Z.to_nat (width logImage * height logImage
                                  * depth e)) (Some F32.zero)))
  as (bytes & Hbytes & Hst & Hplane);
  rewrite ?HD, ?length_replicate, ?Hdepth; auto; try lia.
rewrite HD in Hplane.
assert (Hrun : logImageSetData8 true logImage e ed
                 {| written := Some <$> hdr; budget := writes |}
               = (0, snd (logImageSetData8 true logImage e ed
                            {| written := Some <$> hdr;
                               budget := writes |}))).
{ rewrite logImageSetData8_run by (rewrite ?HD; auto; cbn [budget]; lia).
  reflexivity. }
rewrite Hset, Hrun.
destruct (logImageElementGetData8 logImage e
            {| content := bytes; cursor := 0 |}
            (replicate (Z.to_nat (width logImage * height logImage
                                  * depth e)) (Some F32.zero)))
  as [[st f'] plane] eqn:Eget.
cbn [fst snd] in Hst, Hplane. subst st.
eexists _, bytes, f'. split; [reflexivity|]. split; [exact Hbytes|].
(* the read path *)
unfold logImageGetDataRGBA. rewrite Hel, Hnum.
change (Z.of_nat (length [e]) <? 1) with false. cbv iota.
change (Z.to_nat 1) with 1%nat. change (1 =? 1) with true. cbv iota.
cbn [take load_elements].
rewrite Hdesc. cbn [is_skipped negb].
unfold logImageElementGetData. rewrite Hbps, Eget.
cbn [Z.eqb negb load_elements app lookup list_lookup mbind option_bind
     default].
rewrite Hplane, samples_of_decoded. unfold id.
rewrite (convertRGB_RGBA_run powf log10f logImage e); fold n; auto;
  try (rewrite ?length_fmap, ?length_seqZ; nia).
cbn [mbind option_bind]. f_equal. f_equal.
apply Forall_bind_ext, Forall_forall. intros k Hk.
apply elem_of_seqZ in Hk.
unfold rgb_to_rgba, rgb8_pixel, quantise8.
replace (3 * k) with (3 * k + 0) at 1 by lia.
replace (4 * k) with (4 * k + 0) at 4 by lia.
rewrite !load_fmap by nia. unfold code8, ed.
rewrite !(load_cells (rgba_to_rgb data) 3 n k)
  by (try reflexivity; lia).
reflexivity.
Qed.

End TopLevel8.

Lemma logImageSetDataRGBA_GetDataRGBA_round_trip_rgb8_witness :
  exists out bytes f',
    logImageSetDataRGBA Libm.powf Libm.log10f true true true x8_image
      x8_rgba 0 {| written := Some <$> [83; 68]; budget := 2 |}
    = Some (0, out)
    /\ written out = Some <$> bytes
    /\ logImageGetDataRGBA Libm.powf Libm.log10f (fun _ => true) true
         x8_image {| content := bytes; cursor := 0 |}
         (replicate 8 F32.zero) 0
       = Some (0, f', seqZ 0 2 ≫= rgb8_pixel x8_rgba).
Proof.
  apply (logImageSetDataRGBA_GetDataRGBA_round_trip_rgb8 Libm.powf
           Libm.log10f x8_image x8_element x8_rgba [83; 68] 2
           (replicate 8 F32.zero));
    first [reflexivity | cbn; lia].
Defined.

(** ** The 12-bit engines, samples in 16-bit cells *)

Lemma logImageSetData12_run (logImage : LogImageFile)
    (logElement : LogImageElement) (data : list float) (f : outfile) :
  bitsPerSample logElement = 12 ->
  packing logElement = 1 \/ packing logElement = 2 ->
  depth logElement = imageDepth logImage ->
  0 <= width logImage -> 0 <= height logImage -> 0 <= imageDepth logImage ->
  2 * (width logImage * imageDepth logImage) < size_t_max ->
  (Z.to_nat (height logImage) <= budget f)%nat ->
  logImageSetData12 true logImage logElement data f =
    (0, {| written := written f ++ (Some <$> encode12 logImage data);
           budget := (budget f - Z.to_nat (height logImage))%nat |}).
Proof.
  intros Hbps Hp Hd Hw Hh HD Hsmall Hb.
  unfold logImageSetData12. cbn [negb].
  set (m := width logImage * imageDepth logImage).
  assert (Hm : 0 <= m) by (subst m; nia).
  assert (HL : getRowLength (width logImage) logElement = 2 * m).
  { unfold getRowLength. rewrite Hbps, Hd. fold m.
    rewrite (size_t_small m) by (unfold size_t_max in *; lia).
    assert (Hp' : ((packing logElement =? 1) || (packing logElement =? 2))
                  = true) by (destruct Hp as [-> | ->]; reflexivity).
    assert (Hp0 : (packing logElement =? 0) = false)
      by (destruct Hp as [-> | ->]; reflexivity).
    rewrite Hp0, Hp'.
    rewrite size_t_small by (unfold size_t_max in *; lia). lia. }
  rewrite HL.
  rewrite (write_rows_run logImage 2 _ _ f
             (fun y => Some <$> (x ← seqZ 0 m;
                                 bytes16 (code12 logImage data (y * m + x))))
             (fun row => length row = Z.to_nat m)); [|exact Hh|exact Hb| |].
  - f_equal. f_equal. f_equal.
    rewrite <- (fmap_bind_cells Some). f_equal. unfold encode12. fold m.
    rewrite <- (Z2Nat.id (height logImage)) by exact Hh.
    apply (bind_rows (fun i => bytes16 (code12 logImage data i))). exact Hm.
  - unfold malloc_row. rewrite length_replicate.
    replace (2 * m / 2) with m by (rewrite Z.mul_comm, Z.div_mul; lia).
    reflexivity.
  - intros y row Hy Hrow.
    rewrite (fill_cells
               (fun x => swap_ushort
                           (ushort
                              (Z.shiftl
                                 (ushort (float_uint
                                    (load (y * width logImage
                                           * imageDepth logImage + x)
                                          data) 4095)) 4))
                           (isMSB logImage)) m row) by lia.
    cbn [flow_state].
    rewrite drop_ge, app_nil_r by lia. split.
    + rewrite length_fmap, length_seqZ. reflexivity.
    + unfold row_bytes. rewrite <- list_fmap_compose.
      rewrite fmap_bind_cells.
      induction (seqZ 0 m) as [|x l IH]; [reflexivity|].
      cbn [fmap list_fmap concat mbind list_bind]. rewrite IH. f_equal.
      cbn. unfold code12, m. rewrite Z.mul_assoc. reflexivity.
Qed.

Lemma cell12 (c : Z) :
  Z.shiftr (ushort (Z.shiftl c 4)) 4 = c mod 4096.
Proof.
  unfold ushort. rewrite Z.shiftl_mul_pow2, Z.shiftr_div_pow2 by lia.
  change (2 ^ 16) with (4096 * 2 ^ 4).
  rewrite Z.mul_mod_distr_r by lia.
  apply Z.div_mul. lia.
Qed.

(** X27.  Round trip of the 12-bit engines for samples padded to the
    right (packing 1): [logImageSetData12] writes each 12-bit code in the
    upper bits of a 16-bit cell and [logImageElementGetData12] reads the
    file back as the codes divided by 4095. *)
Theorem logImageSetData12_GetData12_round_trip (logImage : LogImageFile)
    (logElement : LogImageElement) (data : list float) (hdr : list Z)
    (writes : nat) (buf : buffer) :
  let n := width logImage * height logImage * depth logElement in
  bitsPerSample logElement = 12 ->
  packing logElement = 1 ->
  depth logElement = imageDepth logImage ->
  0 <= width logImage -> 0 <= height logImage -> 0 <= imageDepth logImage ->
  n < 2 ^ 32 ->
  2 * (width logImage * imageDepth logImage) < size_t_max ->
  (Z.to_nat (height logImage) <= writes)%nat ->
  dataOffset logElement = Z.of_nat (length hdr) ->
  Z.of_nat (length buf) = n ->
  exists bytes,
    logImageSetData12 true logImage logElement data
      {| written := Some <$> hdr; budget := writes |}
    = (0, {| written := Some <$> bytes;
             budget := (writes - Z.to_nat (height logImage))%nat |})
    /\ logImageElementGetData12 logImage logElement
         {| content := bytes; cursor := 0 |} buf
       = (0, {| content := bytes; cursor := Z.of_nat (length bytes) |},
          decoded
            (fun i =>
               F32.div
                 (F32.of_Z
                    (ushort (float_uint (load i data) 4095) mod 4096))
                 (F32.of_Z 4095))
            n).
Proof.
  intros n Hbps Hp Hd Hw Hh HD Hn Hsmall Hb Hoff Hbuf.
  rewrite logImageSetData12_run by (auto; cbn [budget]; lia).
  cbn [written budget].
  exists (hdr ++ encode12 logImage data).
  split; [rewrite fmap_app; reflexivity|].
  assert (Hn0 : 0 <= n) by (subst n; rewrite Hd; nia).
  assert (Hcells : encode12 logImage data
                   = seqZ 0 n ≫= (fun i => bytes16 (code12 logImage data i))).
  { unfold encode12. subst n. rewrite Hd. f_equal. f_equal. lia. }
  assert (Hlen : Z.of_nat (length (hdr ++ encode12 logImage data))
                 = Z.of_nat (length hdr) + 2 * n).
  { rewrite length_app, Hcells,
      (length_bind_cells _ 2%nat) by reflexivity.
    rewrite length_seqZ. lia. }
  unfold logImageElementGetData12. fold n.
  rewrite (uint_small n) by lia.
  rewrite logimage_fseek_ok by (cbn [content]; lia). cbn [content].
  rewrite Hp.
  rewrite (word_loop_run
             (fun p => F32.div
                         (F32.of_Z (Z.shiftr (swap_ushort p (isMSB logImage))
                                             4))
                         (F32.of_Z 4095)));
    [|intros; reflexivity|lia|lia|lia|lia].
  rewrite drop_ge, app_nil_r by lia.
  f_equal; [f_equal; f_equal; lia|].
  unfold decoded. apply list_fmap_ext. intros k i Hk.
  apply lookup_seqZ in Hk as [-> Hk]. rewrite !Z.add_0_l.
  f_equal. f_equal. f_equal.
  unfold word_at. rewrite Hoff, Hcells.
  rewrite (cell_at (fun i => bytes16 (code12 logImage data i)) 2 hdr n)
    by (try reflexivity; lia).
  unfold code12.
  pose proof (ushort_range
                (Z.shiftl (ushort (float_uint (load (Z.of_nat k) data) 4095))
                          4)) as H.
  rewrite (proj1 (cell16 _ (swap_ushort_range _ (isMSB logImage) H))).
  rewrite swap_ushort_involutive by exact H.
  apply cell12.
Qed.

Lemma logImageSetData12_GetData12_round_trip_witness :
  exists bytes,
    logImageSetData12 true x12_image x12_element x16_samples
      {| written := Some <$> [83; 68]; budget := 2 |}
    = (0, {| written := Some <$> bytes; budget := (2 - 2)%nat |})
    /\ logImageElementGetData12 x12_image x12_element
         {| content := bytes; cursor := 0 |} (replicate 4 None)
       = (0, {| content := bytes; cursor := Z.of_nat (length bytes) |},
          decoded
            (fun i =>
               F32.div
                 (F32.of_Z
                    (ushort (float_uint (load i x16_samples) 4095) mod 4096))
                 (F32.of_Z 4095))
            4).
Proof.
  apply (logImageSetData12_GetData12_round_trip x12_image x12_element
           x16_samples [83; 68] 2 (replicate 4 None));
    cbn; first [reflexivity | lia].
Defined.

(** ** The ABGR converter *)

Section Abgr.

Variable powf : float -> float -> float.
Variable log10f : float -> float.

(** The body of the ABGR loops: it steps over the four samples of the
  pixel before it reads them backwards. *)
Local Abbreviation abgr_body f :=
(advance 4;;
 do r <- read_dec; emit (f r);;
 do g <- read_dec; emit (f g);;
 do b <- read_dec; emit (f b);;
 do a <- read_dec; emit a;;
 advance 4).

(** A computation that moves the source cursor by [k] whenever it is
  defined. *)
Local Abbreviation moves m k :=
(forall (src : list float) (c : cursors) a (c' : cursors),
   m src c = Some (a, c') -> src_ptr c' = src_ptr c + k).

Lemma moves_bind {A B : Type} (m : conv A) (k : A -> conv B) (k1 k2 : Z) :
moves m k1 -> (forall a, moves (k a) k2) ->
moves (conv_bind m k) (k1 + k2).
Proof.
intros Hm Hk src c b c'. unfold conv_bind.
destruct (m src c) as [[a c1]|] eqn:E; [|discriminate].
intros E2. apply Hm in E. apply Hk in E2. lia.
Qed.

Lemma moves_advance (n : Z) : moves (advance n) n.
Proof.
intros src c a c'. unfold advance. intros E; injection E as <- <-.
reflexivity.
Qed.

Lemma moves_read_dec : moves read_dec (-1).
Proof.
intros src c a c'. unfold read_dec, conv_bind, deref, advance, conv_ret.
destruct (0 <=? src_ptr c); [|discriminate].
destruct (src !! Z.to_nat (src_ptr c)); [|discriminate].
intros E; injection E as <- <-. reflexivity.
Qed.

Lemma moves_emit (v : float) : moves (emit v) 0.
Proof.
intros src c a c'. unfold emit.
destruct ((0 <=? dst_ptr c) && (dst_ptr c <? Z.of_nat (length (dst c))));
  [|discriminate].
intros E; injection E as <- <-. cbn [src_ptr]. lia.
Qed.

Lemma abgr_body_moves (f : float -> float) (src : list float)
  (c c' : cursors) :
abgr_body f src c = Some (tt, c') -> src_ptr c' = src_ptr c + 4.
Proof.
intros E.
refine (moves_bind (advance 4) _ 4 0 (moves_advance 4) _ src c tt c' E).
intros _.
repeat first
  [ apply moves_advance
  | apply (moves_bind read_dec _ (-1) 1 moves_read_dec); intros ?
  | apply (moves_bind (emit _) _ 0 1 (moves_emit _)); intros ?
  | apply (moves_bind read_dec _ (-1) 2 moves_read_dec); intros ?
  | apply (moves_bind (emit _) _ 0 2 (moves_emit _)); intros ?
  | apply (moves_bind read_dec _ (-1) 3 moves_read_dec); intros ?
  | apply (moves_bind (emit _) _ 0 3 (moves_emit _)); intros ?
  | apply (moves_bind read_dec _ (-1) 4 moves_read_dec); intros ?
  | apply (moves_bind (emit _) _ 0 4 (moves_emit _)); intros ? ].
Qed.

Lemma abgr_body_last (f : float -> float) (src : list float) (c : cursors) :
src_ptr c + 4 = Z.of_nat (length src) -> abgr_body f src c = None.
Proof.
intros H. unfold conv_bind at 1. unfold advance at 1.
unfold conv_bind at 1. unfold read_dec, conv_bind, deref.
cbn [src_ptr]. rewrite H, Nat2Z.id.
rewrite (lookup_ge_None_2 src (length src)) by lia.
destruct (0 <=? Z.of_nat (length src)); reflexivity.
Qed.

Lemma abgr_loop_overruns (f : float -> float) (src : list float) (n : nat) :
forall c : cursors,
  (0 < n)%nat ->
  src_ptr c + 4 * Z.of_nat n = Z.of_nat (length src) ->
  repeat_conv n (abgr_body f) src c = None.
Proof.
induction n as [|n IH]; intros c Hn Hc; [lia|].
cbn [repeat_conv]. unfold conv_bind at 1.
destruct (abgr_body f src c) as [[[] c']|] eqn:E; [|reflexivity].
destruct n as [|n].
- rewrite abgr_body_last in E by lia. discriminate.
- apply abgr_body_moves in E. apply IH; lia.
Qed.

(** X28.  The ABGR converter on a source buffer of exactly four samples
  a pixel, as [logImageGetDataRGBA] allocates it: for every transfer it
  accepts, [convertLogElementToRGBA] reads the sample behind the end of
  the buffer when it comes to the last pixel, which is undefined. *)
Theorem convertABGR_RGBA_overruns (logImage : LogImageFile)
  (logElement : LogImageElement) (src dst0 : list float)
  (dstIsLinearRGB : Z) :
descriptor logElement = descriptor_ABGR ->
transfer logElement = transfer_UserDefined
\/ transfer logElement = transfer_Linear
\/ transfer logElement = transfer_Logarithmic
\/ transfer logElement = transfer_PrintingDensity ->
0 < width logImage * height logImage ->
Z.of_nat (length src) = 4 * (width logImage * height logImage) ->
convertLogElementToRGBA powf log10f src dst0 logImage logElement
  dstIsLinearRGB
= None.
Proof.
intros Hdesc Ht Hn Hsrc. unfold convertLogElementToRGBA. rewrite Hdesc.
assert (Hrun : run_conv (convertABGR_RGBA powf log10f logImage logElement 1)
                 src dst0 = None).
{ assert (Hnone : forall (m : conv unit) (k : conv Z),
            m src {| src_ptr := 0; dst_ptr := 0; dst := dst0 |} = None ->
            run_conv (m;; k) src dst0 = None).
  { intros m k E. unfold run_conv, conv_bind. rewrite E. reflexivity. }
  unfold convertABGR_RGBA.
  destruct Ht as [-> | [-> | [-> | ->]]]; cbn [Z.eqb orb Pos.eqb];
    apply Hnone;
    [apply (abgr_loop_overruns (fun v => v))
    |apply (abgr_loop_overruns (fun v => v))
    |apply (abgr_loop_overruns (fun v => v))
    |apply (abgr_loop_overruns
              (lut_at (density_lut powf log10f logImage logElement 1)
                      logElement))];
    unfold pixels; cbn [src_ptr]; lia. }
rewrite Hrun. reflexivity.
Qed.

End Abgr.

Lemma convertABGR_RGBA_overruns_witness :
  convertLogElementToRGBA Libm.powf Libm.log10f
    (F32.of_Z <$> [1; 2; 3; 4; 5; 6; 7; 8]) (replicate 8 F32.zero)
    (c6_image 2 descriptor_ABGR transfer_Linear)
    (c6_element descriptor_ABGR transfer_Linear) 0
  = None.
Proof.
  apply (convertABGR_RGBA_overruns Libm.powf Libm.log10f
           (c6_image 2 descriptor_ABGR transfer_Linear)
           (c6_element descriptor_ABGR transfer_Linear));
    first [reflexivity | right; left; reflexivity | cbn; lia].
Defined.

(** ** The 10-bit unpacker, three samples in a word *)

Lemma thirds_0 (x : Z) :
  x mod 3 = 0 ->
  (x + 2) / 3 = x / 3 /\ (x + 1 + 2) / 3 = x / 3 + 1
  /\ (x + 1) mod 3 = 1 /\ (x + 1) / 3 = x / 3.
Proof. intros H. Z.div_mod_to_equations. lia. Qed.

Lemma thirds_1 (x : Z) :
  x mod 3 = 1 ->
  (x + 2) / 3 = x / 3 + 1 /\ (x + 1 + 2) / 3 = x / 3 + 1
  /\ (x + 1) mod 3 = 2 /\ (x + 1) / 3 = x / 3.
Proof. intros H. Z.div_mod_to_equations. lia. Qed.

Lemma thirds_2 (x : Z) :
  x mod 3 = 2 ->
  (x + 2) / 3 = x / 3 + 1 /\ (x + 1 + 2) / 3 = x / 3 + 1
  /\ (x + 1) mod 3 = 0.
Proof. intros H. Z.div_mod_to_equations. lia. Qed.

Lemma thirds_ceil (x n : Z) :
  0 <= x < n -> x / 3 + 1 <= (n + 2) / 3.
Proof. intros H. Z.div_mod_to_equations. lia. Qed.

Section Ten.

Variable logImage : LogImageFile.
Variable logElement : LogImageElement.
Variable bytes : list Z.
Variable data : buffer.

Local Abbreviation m := (width logImage * depth logElement).
Local Abbreviation q := ((width logImage * depth logElement + 2) / 3).
Local Abbreviation off := (dataOffset logElement).

(** Sample [i]: the field of its word. *)
Local Abbreviation sample10 i :=
(F32.div
   (F32.of_Z
      (Z.land
         (Z.shiftr
            (word32 logImage bytes off ((i / m) * q + (i mod m) / 3))
            (shift10 logElement - 10 * ((i mod m) mod 3)))
         0x3ff))
   (F32.of_Z 1023)).

Hypothesis downward :
(imageDepth logImage =? 1)
&& match srcFormat logImage with
   | format_DPX => true
   | format_Cineon => false
   end = false.
Hypothesis filled : packing logElement = 1 \/ packing logElement = 2.
Hypothesis m_pos : 0 <= m.
Hypothesis off_pos : 0 <= off.

(** The registers before sample [x] of row [y]. *)
Local Abbreviation before y x st :=
(u_file st = {| content := bytes;
                cursor := off + 4 * (y * q + (x + 2) / 3) |}
 /\ u_data st = decoded (fun i => sample10 i) (y * m + x)
                ++ drop (Z.to_nat (y * m + x)) data
 /\ (x mod 3 = 0 -> u_offset st < 0)
 /\ (x mod 3 <> 0 ->
     u_offset st = shift10 logElement - 10 * (x mod 3)
     /\ u_pixel st = word32 logImage bytes off (y * q + x / 3))).

Lemma shift10_cases : shift10 logElement = 22 \/ shift10 logElement = 20.
Proof.
unfold shift10. destruct filled as [-> | ->]; [left|right]; reflexivity.
Qed.

Lemma ten_sample_step (y x : Z) (st : unpack_state) :
0 <= y -> 0 <= x < m ->
off + 4 * ((y + 1) * q) <= Z.of_nat (length bytes) ->
(y + 1) * m <= Z.of_nat (length data) ->
before y x st ->
exists st',
  (let refill := u_offset st <? 0 in
   let next :=
     if refill then
       let offset :=
         if packing logElement =? 1 then 22
         else if packing logElement =? 2 then 20
         else u_offset st in
       match logimage_read_uint (u_file st) with
       | None => None
       | Some (pixel, f2) =>
           Some {| u_file := f2; u_data := u_data st;
                   u_pixel := swap_uint pixel (isMSB logImage);
                   u_offset := offset |}
       end
     else Some st in
   match next with
   | None => Return1 st
   | Some st1 =>
       Continue
         {| u_file := u_file st1;
            u_data :=
              store (y * width logImage * depth logElement + x)
                (F32.div
                   (F32.of_Z
                      (Z.land (Z.shiftr (u_pixel st1) (u_offset st1))
                              0x3ff))
                   (F32.of_Z 1023))
                (u_data st1);
            u_pixel := u_pixel st1;
            u_offset := u_offset st1 - 10 |}
   end) = Continue st'
  /\ before y (x + 1) st'.
Proof.
intros Hy Hx Hlen Hdata (Hf & Hd & H0 & H12).
assert (Hbase : (if packing logElement =? 1 then 22
                 else if packing logElement =? 2 then 20
                 else u_offset st) = shift10 logElement).
{ unfold shift10. destruct filled as [-> | ->]; reflexivity. }
pose proof shift10_cases as Hs.
assert (Hq : 3 * q <= m + 2 < 3 * q + 3).
{ pose proof (Z.div_mod (m + 2) 3 ltac:(lia)).
  pose proof (Z.mod_pos_bound (m + 2) 3 ltac:(lia)). lia. }
assert (Hyq : 0 <= y * q) by (apply Z.mul_nonneg_nonneg; lia).
assert (Hym : 0 <= y * m) by (apply Z.mul_nonneg_nonneg; lia).
assert (Hi : (y * m + x) / m = y /\ (y * m + x) mod m = x)
  by (apply row_index; lia).
assert (Hstore : forall d v,
          v = sample10 (y * m + x) ->
          d = decoded (fun i => sample10 i) (y * m + x)
              ++ drop (Z.to_nat (y * m + x)) data ->
          store (y * width logImage * depth logElement + x) v d
          = decoded (fun i => sample10 i) (y * m + (x + 1))
            ++ drop (Z.to_nat (y * m + (x + 1))) data).
{ intros d v -> ->.
  replace (y * width logImage * depth logElement + x)
    with (y * m + x) by lia.
  replace (y * m + (x + 1)) with (y * m + x + 1) by lia.
  apply (store_next (fun i => sample10 i)).
  split; [lia|].
  apply Z.lt_le_trans with ((y + 1) * m); [lia|exact Hdata]. }
cbv zeta.
destruct (Z.eq_dec (x mod 3) 0) as [E0|N0].
- (* a new word *)
  specialize (H0 E0).
  destruct (Z.ltb_spec (u_offset st) 0); [|lia].
  rewrite Hbase, Hf. unfold logimage_read_uint.
  destruct (thirds_0 x E0) as (Ha & Hb & Hc & Hd3).
  pose proof (thirds_ceil x m Hx) as Hceil.
  assert (Hx0 : 0 <= x / 3) by (apply Z.div_pos; lia).
  assert (Hw : (y * q + x / 3 + 1) <= (y + 1) * q) by lia.
  rewrite readExact_ok by (cbn [content cursor]; lia).
  cbn [content cursor u_file u_data u_pixel u_offset].
  eexists; split; [reflexivity|].
  cbn [u_file u_data u_pixel u_offset]. repeat split.
  + f_equal. lia.
  + apply Hstore; [|exact Hd].
    destruct Hi as [-> ->]. rewrite E0, Ha. unfold word32.
    replace (shift10 logElement - 10 * 0) with (shift10 logElement) by lia.
    reflexivity.
  + intros. lia.
  + rewrite Hc. lia.
  + rewrite Hd3, Ha. reflexivity.
- (* the word in hand *)
  destruct (H12 N0) as [Ho Hp].
  assert (Hr : x mod 3 = 1 \/ x mod 3 = 2)
    by (pose proof (Z.mod_pos_bound x 3 ltac:(lia)); lia).
  destruct (Z.ltb_spec (u_offset st) 0); [lia|].
  eexists; split; [reflexivity|].
  cbn [u_file u_data u_pixel u_offset].
  split; [|split; [apply Hstore; [|exact Hd];
                   destruct Hi as [-> ->]; rewrite Ho, Hp; reflexivity|]].
  + rewrite Hf. f_equal.
    destruct Hr as [E1|E2];
      [destruct (thirds_1 x E1) as (-> & -> & _)
      |destruct (thirds_2 x E2) as (-> & -> & _)]; reflexivity.
  + destruct Hr as [E1|E2].
    * destruct (thirds_1 x E1) as (_ & _ & Hc & Hd3).
      split; [intros; lia|]. intros _. rewrite Hc, Hd3, Ho, E1.
      split; [lia|exact Hp].
    * destruct (thirds_2 x E2) as (_ & _ & Hc).
      split; [intros; lia|]. intros Hn. rewrite Hc in Hn. lia.
Qed.

Lemma logImageElementGetData10_run (f : stream) :
content f = bytes ->
0 <= height logImage ->
off + 4 * (height logImage * q) <= Z.of_nat (length bytes) ->
Z.of_nat (length data) = height logImage * m ->
logImageElementGetData10 logImage logElement f data =
  (0,
   {| content := bytes; cursor := off + 4 * (height logImage * q) |},
   decoded (fun i => sample10 i) (height logImage * m)).
Proof.
intros Hc Hh Hlen Hdata. unfold logImageElementGetData10.
assert (Hq0 : 0 <= q) by (apply Z.div_pos; lia).
assert (Hhq : 0 <= height logImage * q)
  by (apply Z.mul_nonneg_nonneg; lia).
rewrite logimage_fseek_ok by (rewrite Hc; lia).
cbv zeta. rewrite downward. cbv iota. rewrite Hc.
match goal with |- context [@for_upto ?S ?k ?b ?s] =>
  destruct (for_upto_run
    (fun y (st : unpack_state) =>
       u_file st = {| content := bytes; cursor := off + 4 * (y * q) |}
       /\ u_data st = decoded (fun i => sample10 i) (y * m)
                      ++ drop (Z.to_nat (y * m)) data)
    k b s Hh) as (st' & Hs & Hf' & Hd'); [| |rewrite Hs]
end.
- cbn [u_file u_data]. split; [f_equal; lia|reflexivity].
- intros y st Hy [Hf Hd].
  assert (Hyq : (y + 1) * q <= height logImage * q)
    by (apply Z.mul_le_mono_nonneg_r; lia).
  assert (Hym : (y + 1) * m <= height logImage * m)
    by (apply Z.mul_le_mono_nonneg_r; lia).
  match goal with |- context [@for_upto ?S ?k ?b ?s] =>
    destruct (for_upto_run (fun x (st : unpack_state) => before y x st)
                k b s m_pos) as (st2 & Hs2 & Hf2 & Hd2 & _)
  end.
  + cbn [u_file u_data u_pixel u_offset].
    change ((0 + 2) / 3) with 0. change (0 mod 3) with 0.
    split; [rewrite Hf; f_equal; lia|].
    split; [rewrite Hd, Z.add_0_r; reflexivity|].
    split; [intros; lia|intros H0; exfalso; apply H0; reflexivity].
  + intros x st0 Hx Hst0.
    apply (ten_sample_step y x st0); try lia; try exact Hst0.
  + exists st2. split; [exact Hs2|]. split.
    * rewrite Hf2. f_equal. lia.
    * rewrite Hd2. replace ((y + 1) * m) with (y * m + m) by lia.
      reflexivity.
- rewrite Hf', Hd'. f_equal.
  rewrite drop_ge, app_nil_r; [reflexivity|].
  apply Nat2Z.inj_le. rewrite Z2Nat.id by (apply Z.mul_nonneg_nonneg; lia).
  apply Z.eq_le_incl. exact Hdata.
Qed.

End Ten.

(** X29.  [logImageElementGetData10] on the path of every image but a
    DPX image of depth 1, for the two filled packings and a file that
    holds all the rows: it returns 0 and sample [x] of row [y] is the
    10-bit field at bit [s - 10 (x mod 3)] of the (swapped) 32-bit word
    number [y q + x / 3] of the element's data, divided by 1023, where
    [s] is 22 for packing 1 and 20 for packing 2 and a row is
    [q = ceil(width depth / 3)] words: every row starts a new word and the
    two unused bits are never read. *)
Theorem logImageElementGetData10_samples (logImage : LogImageFile)
    (logElement : LogImageElement) (f : stream) (data : buffer) :
  let m := width logImage * depth logElement in
  let q := (m + 2) / 3 in
  imageDepth logImage <> 1 \/ srcFormat logImage = format_Cineon ->
  packing logElement = 1 \/ packing logElement = 2 ->
  0 <= m -> 0 <= height logImage ->
  0 <= dataOffset logElement ->
  dataOffset logElement + 4 * (height logImage * q)
    <= Z.of_nat (length (content f)) ->
  Z.of_nat (length data) = height logImage * m ->
  logImageElementGetData10 logImage logElement f data =
    (0,
     {| content := content f;
        cursor := dataOffset logElement + 4 * (height logImage * q) |},
     decoded
       (fun i =>
          F32.div
            (F32.of_Z
               (Z.land
                  (Z.shiftr
                     (word32 logImage (content f) (dataOffset logElement)
                        ((i / m) * q + (i mod m) / 3))
                     (shift10 logElement - 10 * ((i mod m) mod 3)))
                  0x3ff))
            (F32.of_Z 1023))
       (height logImage * m)).
Proof.
  intros m q Hpath Hp Hm Hh Hoff Hlen Hdata.
  apply (logImageElementGetData10_run logImage logElement (content f) data);
    try assumption; try reflexivity.
  destruct Hpath as [Hd | Hc].
  - destruct (Z.eqb_spec (imageDepth logImage) 1); [contradiction|].
    reflexivity.
  - rewrite Hc. apply andb_false_r.
Qed.

Lemma logImageElementGetData10_samples_witness :
  logImageElementGetData10 x10_image x10_element
    {| content := [83; 68] ++ replicate 16 255; cursor := 0 |}
    (replicate 8 None)
  = (0,
     {| content := [83; 68] ++ replicate 16 255;
        cursor := 2 + 4 * (2 * ((1 * 4 + 2) / 3)) |},
     decoded
       (fun i =>
          F32.div
            (F32.of_Z
               (Z.land
                  (Z.shiftr
                     (word32 x10_image ([83; 68] ++ replicate 16 255) 2
                        ((i / (1 * 4)) * ((1 * 4 + 2) / 3)
                         + (i mod (1 * 4)) / 3))
                     (shift10 x10_element - 10 * ((i mod (1 * 4)) mod 3)))
                  0x3ff))
            (F32.of_Z 1023))
       (2 * (1 * 4))).
Proof.
  apply (logImageElementGetData10_samples x10_image x10_element
           {| content := [83; 68] ++ replicate 16 255; cursor := 0 |}
           (replicate 8 None));
    first [left; cbn; lia | cbn; lia
          | vm_compute; first [reflexivity | congruence]].
Defined.

(** ** Words and their fields *)

Lemma high_bits_false (a k n : Z) :
  0 <= a < 2 ^ k -> 0 <= k <= n -> Z.testbit a n = false.
Proof.
  intros Ha Hk. rewrite <- (Z.mod_small a (2 ^ k)) by exact Ha.
  apply Z.mod_pow2_bits_high. exact Hk.
Qed.

(** The bitwise or of a number below [2^k] and a multiple of [2^k] is
    their sum. *)
Lemma lor_add (a b k : Z) :
  0 <= k -> 0 <= a < 2 ^ k -> Z.lor a (b * 2 ^ k) = a + b * 2 ^ k.
Proof.
  intros Hk Ha. rewrite <- Z.shiftl_mul_pow2 by exact Hk.
  assert (H : Z.land a (Z.shiftl b k) = 0).
  { apply Z.bits_inj'. intros n Hn. rewrite Z.land_spec, Z.bits_0.
    destruct (Z.lt_ge_cases n k).
    - rewrite Z.shiftl_spec_low by lia. apply andb_false_r.
    - rewrite (high_bits_false a k n) by lia. reflexivity. }
  rewrite <- Z.lxor_lor by exact H. symmetry.
  apply Z.add_nocarry_lxor. exact H.
Qed.

(** A field of [w] bits at bit [k], cut out by a mask. *)
Lemma land_field (y w k : Z) :
  0 <= w -> 0 <= k ->
  Z.land y (Z.shiftl (Z.ones w) k) = (y / 2 ^ k) mod 2 ^ w * 2 ^ k.
Proof.
  intros Hw Hk. rewrite <- Z.shiftl_mul_pow2 by exact Hk.
  apply Z.bits_inj'. intros n Hn.
  rewrite Z.land_spec, !Z.shiftl_spec by exact Hn.
  destruct (Z.lt_ge_cases n k).
  - rewrite (Z.testbit_neg_r (Z.ones w)), (Z.testbit_neg_r (_ mod _)) by lia.
    apply andb_false_r.
  - destruct (Z.lt_ge_cases (n - k) w).
    + rewrite Z.ones_spec_low, Z.mod_pow2_bits_low by lia.
      rewrite Z.div_pow2_bits by lia.
      rewrite andb_true_r. f_equal. lia.
    + rewrite Z.ones_spec_high, Z.mod_pow2_bits_high by lia.
      apply andb_false_r.
Qed.

Lemma le_combine_bytes32 (v : Z) :
  0 <= v < 2 ^ 32 -> le_combine (bytes32 v) = v.
Proof.
  intros Hv. unfold bytes32. cbn [le_combine].
  change 0xff with (Z.ones 8).
  rewrite !Z.land_ones, !Z.shiftr_div_pow2, !Z.shiftl_mul_pow2 by lia.
  assert (Hb : forall x, 0 <= x mod 2 ^ 8 < 2 ^ 8)
    by (intros x; apply Z.mod_pos_bound; reflexivity).
  rewrite !lor_add by (try apply Hb; lia).
  change (2 ^ 8) with 256. change (2 ^ 16) with 65536.
  change (2 ^ 24) with 16777216. change (2 ^ 32) with 4294967296 in Hv.
  Z.div_mod_to_equations. lia.
Qed.

(** [swap_uint] reverses the four bytes of a word. *)
Lemma swap_uint_bytes (b0 b1 b2 b3 : Z) :
  0 <= b0 < 256 -> 0 <= b1 < 256 -> 0 <= b2 < 256 -> 0 <= b3 < 256 ->
  swap_uint (b0 + 256 * b1 + 65536 * b2 + 16777216 * b3) 1
  = b3 + 256 * b2 + 65536 * b1 + 16777216 * b0.
Proof.
  intros H0 H1 H2 H3. unfold swap_uint. cbn [Z.eqb].
  set (v := b0 + 256 * b1 + 65536 * b2 + 16777216 * b3).
  change 0x00ff0000 with (Z.shiftl (Z.ones 8) 16).
  change 0x0000ff00 with (Z.shiftl (Z.ones 8) 8).
  rewrite !land_field by lia.
  rewrite !Z.shiftr_div_pow2, !Z.shiftl_mul_pow2 by lia.
  change (2 ^ 8) with 256. change (2 ^ 16) with 65536.
  change (2 ^ 24) with 16777216.
  assert (E3 : v / 16777216 = b3).
  { symmetry. apply (Z.div_unique _ _ _ (b0 + 256 * b1 + 65536 * b2));
      subst v; lia. }
  assert (E1 : (v * 256 / 65536) mod 256 = b1).
  { replace (v * 256 / 65536) with (b1 + 256 * (b2 + 256 * b3)).
    - symmetry. apply (Z.mod_unique _ _ (b2 + 256 * b3)); lia.
    - apply (Z.div_unique _ _ _ (b0 * 256)); subst v; lia. }
  assert (E2 : (v / 256 / 256) mod 256 = b2).
  { replace (v / 256) with (b1 + 256 * (b2 + 256 * b3))
      by (apply (Z.div_unique _ _ _ b0); subst v; lia).
    replace ((b1 + 256 * (b2 + 256 * b3)) / 256) with (b2 + 256 * b3)
      by (apply (Z.div_unique _ _ _ b1); lia).
    symmetry. apply (Z.mod_unique _ _ b3); lia. }
  rewrite E1, E2, E3.
  rewrite <- (Z.lor_assoc b3).
  rewrite (Z.lor_comm (b1 * 65536) (b2 * 256)).
  rewrite (Z.lor_assoc b3).
  replace (Z.lor b3 (b2 * 256)) with (b3 + b2 * 256)
    by (symmetry; apply (lor_add b3 b2 8); [lia|change (2 ^ 8) with 256; lia]).
  replace (Z.lor (b3 + b2 * 256) (b1 * 65536))
    with (b3 + b2 * 256 + b1 * 65536)
    by (symmetry; apply (lor_add _ b1 16);
        [lia|change (2 ^ 16) with 65536; lia]).
  replace (Z.lor (b3 + b2 * 256 + b1 * 65536) (v * 16777216))
    with (b3 + b2 * 256 + b1 * 65536 + v * 16777216)
    by (symmetry; apply (lor_add _ v 24);
        [lia|change (2 ^ 24) with 16777216; lia]).
  unfold uint. change (2 ^ 32) with 4294967296.
  symmetry.
  apply (Z.mod_unique _ _ (b1 + 256 * b2 + 65536 * b3)); subst v; lia.
Qed.

Lemma swap_uint_flag (v m : Z) :
  swap_uint v m = if m =? 0 then v else swap_uint v 1.
Proof. unfold swap_uint. destruct (m =? 0); reflexivity. Qed.

Lemma word_bytes (v : Z) :
  0 <= v < 2 ^ 32 ->
  exists b0 b1 b2 b3,
    v = b0 + 256 * b1 + 65536 * b2 + 16777216 * b3
    /\ 0 <= b0 < 256 /\ 0 <= b1 < 256 /\ 0 <= b2 < 256 /\ 0 <= b3 < 256.
Proof.
  change (2 ^ 32) with 4294967296. intros Hv.
  pose proof (Z.div_mod v 256 ltac:(lia)) as D0.
  pose proof (Z.mod_pos_bound v 256 ltac:(lia)) as M0.
  pose proof (Z.div_mod (v / 256) 256 ltac:(lia)) as D1.
  pose proof (Z.mod_pos_bound (v / 256) 256 ltac:(lia)) as M1.
  pose proof (Z.div_mod (v / 256 / 256) 256 ltac:(lia)) as D2.
  pose proof (Z.mod_pos_bound (v / 256 / 256) 256 ltac:(lia)) as M2.
  exists (v mod 256), ((v / 256) mod 256), ((v / 256 / 256) mod 256),
    (v / 256 / 256 / 256).
  repeat split; lia.
Qed.

Lemma swap_uint_involutive (v m : Z) :
  0 <= v < 2 ^ 32 -> swap_uint (swap_uint v m) m = v.
Proof.
  intros Hv. rewrite !(swap_uint_flag _ m). destruct (m =? 0); [reflexivity|].
  destruct (word_bytes v Hv) as (b0 & b1 & b2 & b3 & -> & H0 & H1 & H2 & H3).
  rewrite (swap_uint_bytes b0 b1 b2 b3) by assumption.
  rewrite (swap_uint_bytes b3 b2 b1 b0) by assumption. lia.
Qed.

(** The three fields of a word of 10-bit codes. *)
Lemma fields10 (c0 c1 c2 : Z) :
  0 <= c0 < 1024 -> 0 <= c1 < 1024 -> 0 <= c2 < 1024 ->
  let p := Z.lor (Z.lor (Z.lor 0 (uint (Z.shiftl c0 22)))
                        (uint (Z.shiftl c1 12)))
                 (uint (Z.shiftl c2 2)) in
  0 <= p < 2 ^ 32
  /\ Z.land (Z.shiftr p 22) 0x3ff = c0
  /\ Z.land (Z.shiftr p 12) 0x3ff = c1
  /\ Z.land (Z.shiftr p 2) 0x3ff = c2.
Proof.
  intros H0 H1 H2 p.
  assert (Hp : p = c2 * 2 ^ 2 + c1 * 2 ^ 12 + c0 * 2 ^ 22).
  { subst p. rewrite Z.lor_0_l.
    rewrite !Z.shiftl_mul_pow2 by lia.
    rewrite !uint_small
      by (change (2 ^ 32) with 4294967296; change (2 ^ 22) with 4194304;
          change (2 ^ 12) with 4096; change (2 ^ 2) with 4; lia).
    rewrite (Z.lor_comm (c0 * 2 ^ 22)).
    rewrite (lor_add _ _ 22)
      by (change (2 ^ 22) with 4194304; change (2 ^ 12) with 4096; lia).
    rewrite Z.lor_comm.
    replace (c1 * 2 ^ 12 + c0 * 2 ^ 22)
      with ((c1 + c0 * 2 ^ 10) * 2 ^ 12)
      by (change (2 ^ 22) with (2 ^ 10 * 2 ^ 12); lia).
    rewrite (lor_add _ _ 12)
      by (change (2 ^ 12) with 4096; change (2 ^ 2) with 4; lia).
    change (2 ^ 22) with (2 ^ 10 * 2 ^ 12). lia. }
  change 0x3ff with (Z.ones 10).
  rewrite !Z.land_ones, !Z.shiftr_div_pow2 by lia. rewrite Hp.
  change (2 ^ 32) with 4294967296. change (2 ^ 22) with 4194304.
  change (2 ^ 12) with 4096. change (2 ^ 10) with 1024.
  change (2 ^ 2) with 4.
  repeat split; Z.div_mod_to_equations; lia.
Qed.

(** ** The 10-bit engines, three samples in a 32-bit word *)

Lemma le_split_bytes32 (v : Z) : le_split 4 v = Some <$> bytes32 v.
Proof. reflexivity. Qed.

Lemma length_bytes32 (v : Z) : length (bytes32 v) = 4%nat.
Proof. reflexivity. Qed.

Lemma row_bytes_words (g : Z -> Z) (l : list Z) :
  row_bytes 4 ((fun t => Some (g t)) <$> l)
  = Some <$> (l ≫= (fun t => bytes32 (g t))).
Proof.
  unfold row_bytes. induction l as [|t l IH]; [reflexivity|].
  cbn [fmap list_fmap map concat mbind list_bind].
  rewrite fmap_app. f_equal. exact IH.
Qed.

Lemma thirds_exact (x n : Z) :
  n mod 3 = 0 -> 0 <= x < n -> 0 <= x / 3 < n / 3.
Proof. intros H Hx. Z.div_mod_to_equations. lia. Qed.

Lemma thirds_index (x : Z) : x = 3 * (x / 3) + x mod 3.
Proof. apply Z.div_mod. lia. Qed.

Lemma thirds_whole (n : Z) : n mod 3 = 0 -> n = 3 * (n / 3).
Proof. intros H. pose proof (thirds_index n). lia. Qed.

Section TenWriter.

Variable logImage : LogImageFile.
Variable data : list float.

Local Abbreviation m := (width logImage * imageDepth logImage).
Local Abbreviation q := (width logImage * imageDepth logImage / 3).

Hypothesis whole : m mod 3 = 0.
Hypothesis m_pos : 1 <= m.
Hypothesis m_small : m < 2 ^ 32.

(** One row: the words of the row are stored in order and nothing is
  left over for the store that follows the loop. *)
Lemma ten_fill_row (y : Z) (row : list (option Z)) :
Z.of_nat (length row) = q ->
for_upto m
  (fun x '(row1, index, pixel, offset) =>
     let pixel :=
       Z.lor pixel
         (uint (Z.shiftl
                  (uint (float_uint
                           (load (y * width logImage
                                  * imageDepth logImage + x) data)
                           1023))
                  offset)) in
     let offset := offset - 10 in
     if offset <? 0 then
       Continue
         (store index (swap_uint pixel (isMSB logImage)) row1,
          uint (index + 1), 0, 22)
     else Continue (row1, index, pixel, offset))
  (row, 0, 0, 22)
= Continue ((fun t => Some (word10 logImage data (y * q + t)))
              <$> seqZ 0 q, q, 0, 22).
Proof.
intros Hrow.
pose proof (thirds_whole m whole) as Hm3.
set (base := y * width logImage * imageDepth logImage).
assert (Hbase : base = 3 * (y * q)) by (subst base; lia).
match goal with |- @for_upto ?S ?n ?b ?s = _ =>
  destruct (for_upto_run
    (fun x (st : S) =>
       fst (fst (fst st))
       = ((fun t => Some (word10 logImage data (y * q + t)))
            <$> seqZ 0 (x / 3)) ++ drop (Z.to_nat (x / 3)) row
       /\ snd (fst (fst st)) = x / 3
       /\ ((x mod 3 = 0 /\ snd (fst st) = 0 /\ snd st = 22)
           \/ (x mod 3 = 1
               /\ snd (fst st)
                  = Z.lor 0 (field10 data (base + (x - 1)) 22)
               /\ snd st = 12)
           \/ (x mod 3 = 2
               /\ snd (fst st)
                  = Z.lor (Z.lor 0 (field10 data (base + (x - 2)) 22))
                          (field10 data (base + (x - 1)) 12)
               /\ snd st = 2)))
    n b s) as ([[[row1 index] pixel] offset] & Hs & Hr & Hi & Hc)
end.
- lia.
- cbn [fst snd]. change (0 / 3) with 0. change (0 mod 3) with 0.
  split; [reflexivity|]. split; [reflexivity|]. left. auto.
- intros x [[[row1 index] pixel] offset] Hx (Hr & Hi & Hc).
  cbn [fst snd] in *. subst row1 index.
  pose proof (thirds_index x) as Hx3.
  pose proof (thirds_exact x m whole Hx) as Hq.
  destruct Hc as [(H0 & -> & ->) | [(H1 & -> & ->) | (H2 & -> & ->)]].
  + change (22 - 10 <? 0) with false. cbv beta iota zeta.
    change (22 - 10) with 12.
    eexists; split; [reflexivity|]. cbn [fst snd].
    destruct (thirds_0 x H0) as (_ & _ & Hm1 & Hd1).
    rewrite Hd1. split; [reflexivity|]. split; [reflexivity|].
    right; left. split; [exact Hm1|]. split; [|reflexivity].
    replace (base + (x + 1 - 1)) with (base + x) by lia. reflexivity.
  + change (12 - 10 <? 0) with false. cbv beta iota zeta.
    change (12 - 10) with 2.
    eexists; split; [reflexivity|]. cbn [fst snd].
    destruct (thirds_1 x H1) as (_ & _ & Hm1 & Hd1).
    rewrite Hd1. split; [reflexivity|]. split; [reflexivity|].
    right; right. split; [exact Hm1|]. split; [|reflexivity].
    replace (base + (x + 1 - 2)) with (base + (x - 1)) by lia.
    replace (base + (x + 1 - 1)) with (base + x) by lia. reflexivity.
  + change (2 - 10 <? 0) with true. cbv beta iota zeta.
    eexists; split; [reflexivity|]. cbn [fst snd].
    destruct (thirds_2 x H2) as (_ & _ & Hm1).
    assert (Hd1 : (x + 1) / 3 = x / 3 + 1)
      by (Z.div_mod_to_equations; lia).
    rewrite Hd1.
    split; [|split; [|left; auto]].
    * replace (Z.lor (Z.lor (Z.lor 0 (field10 data (base + (x - 2)) 22))
                            (field10 data (base + (x - 1)) 12))
                     (uint (Z.shiftl
                              (uint (float_uint (load (base + x) data)
                                                1023)) 2)))
        with (Z.lor (Z.lor (Z.lor 0
                             (field10 data (3 * (y * q + x / 3)) 22))
                           (field10 data (3 * (y * q + x / 3) + 1) 12))
                    (field10 data (3 * (y * q + x / 3) + 2) 2)).
      -- apply (store_next
                  (fun t => word10 logImage data (y * q + t))). lia.
      -- replace (3 * (y * q + x / 3)) with (base + (x - 2)) by lia.
         replace (base + (x - 2) + 1) with (base + (x - 1)) by lia.
         replace (base + (x - 2) + 2) with (base + x) by lia.
         reflexivity.
    * apply uint_small. lia.
- rewrite Hs. cbn [fst snd] in *. subst row1 index.
  destruct Hc as [(_ & -> & ->) | [(H1 & _) | (H2 & _)]]; [|lia|lia].
  rewrite drop_ge, app_nil_r by lia. reflexivity.
Qed.

Lemma logImageSetData10_run (logElement : LogImageElement) (f : outfile) :
bitsPerSample logElement = 10 ->
packing logElement = 1 \/ packing logElement = 2 ->
depth logElement = imageDepth logImage ->
0 <= height logImage ->
(Z.to_nat (height logImage) <= budget f)%nat ->
logImageSetData10 true logImage logElement data f =
  (0, {| written := written f ++ (Some <$> encode10 logImage data);
         budget := (budget f - Z.to_nat (height logImage))%nat |}).
Proof.
intros Hbps Hp Hd Hh Hb.
unfold logImageSetData10. cbn [negb].
pose proof (thirds_whole m whole) as Hm3.
assert (Hq : 1 <= q) by lia.
assert (HL : getRowLength (width logImage) logElement = 4 * q).
{ unfold getRowLength. rewrite Hbps, Hd.
  assert (Hp' : ((packing logElement =? 1) || (packing logElement =? 2))
                = true) by (destruct Hp as [-> | ->]; reflexivity).
  assert (Hp0 : (packing logElement =? 0) = false)
    by (destruct Hp as [-> | ->]; reflexivity).
  rewrite Hp0, Hp'.
  assert (Hbig : 2 ^ 32 * 8 < size_t_max) by reflexivity.
  rewrite (size_t_small m) by lia.
  rewrite (size_t_small (m - 1)) by lia.
  assert (Hdiv : (m - 1) / 3 = q - 1)
    by (Z.div_mod_to_equations; lia).
  rewrite Hdiv.
  rewrite (size_t_small (q - 1 + 1)) by lia.
  rewrite size_t_small by lia. lia. }
rewrite HL.
rewrite (write_rows_run logImage 4 _ _ f
           (fun y => Some <$> (t ← seqZ 0 q;
                               bytes32 (word10 logImage data (y * q + t))))
           (fun row => Z.of_nat (length row) = q)); [|exact Hh|exact Hb| |].
- f_equal. f_equal. f_equal.
  rewrite <- (fmap_bind_cells Some). f_equal. unfold encode10.
  rewrite <- (Z2Nat.id (height logImage)) by exact Hh.
  apply (bind_rows (fun i => bytes32 (word10 logImage data i))). lia.
- unfold malloc_row. rewrite length_replicate.
  rewrite (Z.mul_comm 4), Z.div_mul by lia.
  lia.
- intros y row Hy Hrow.
  match goal with |- context [@for_upto ?S ?n ?b ?s] =>
    rewrite (ten_fill_row y row Hrow : @for_upto S n b s = _)
  end.
  cbn [flow_state].
  change (negb (0 =? 0)) with false. cbv iota.
  split.
  + rewrite length_fmap, length_seqZ. lia.
  + apply (row_bytes_words
             (fun t => word10 logImage data (y * q + t))).
Qed.

End TenWriter.

(** Sample [r] of word [j], read back through the byte swap. *)
Lemma word10_field (logImage : LogImageFile) (data : list float) (j r : Z) :
  (forall k, 0 <= k <= 2 ->
     0 <= float_uint (load (3 * j + k) data) 1023 < 1024) ->
  0 <= r <= 2 ->
  0 <= word10 logImage data j < 2 ^ 32
  /\ Z.land (Z.shiftr (swap_uint (word10 logImage data j) (isMSB logImage))
                      (22 - 10 * r)) 0x3ff
     = float_uint (load (3 * j + r) data) 1023.
Proof.
  intros Hc Hr. unfold word10, field10.
  pose proof (Hc 0 ltac:(lia)) as H0. rewrite Z.add_0_r in H0.
  pose proof (Hc 1 ltac:(lia)) as H1.
  pose proof (Hc 2 ltac:(lia)) as H2.
  rewrite !uint_small with (z := float_uint _ _)
    by (change (2 ^ 32) with 4294967296; lia).
  destruct (fields10 _ _ _ H0 H1 H2) as (Hp & F0 & F1 & F2).
  split; [apply swap_uint_range; exact Hp|].
  rewrite swap_uint_involutive by exact Hp.
  assert (Hcases : r = 0 \/ r = 1 \/ r = 2) by lia.
  destruct Hcases as [-> | [-> | ->]].
  - rewrite Z.add_0_r. exact F0.
  - exact F1.
  - exact F2.
Qed.

(** X30.  Round trip of the 10-bit engines for rows of a whole number of
    words, samples filled to the left (packing 1): [logImageSetData10]
    packs three 10-bit codes in a 32-bit word and
    [logImageElementGetData10] reads the file back as the codes divided
    by 1023. *)
Theorem logImageSetData10_GetData10_round_trip (logImage : LogImageFile)
    (logElement : LogImageElement) (data : list float) (hdr : list Z)
    (writes : nat) (buf : buffer) :
  let m := width logImage * imageDepth logImage in
  let n := height logImage * m in
  bitsPerSample logElement = 10 ->
  packing logElement = 1 ->
  depth logElement = imageDepth logImage ->
  imageDepth logImage <> 1 \/ srcFormat logImage = format_Cineon ->
  m mod 3 = 0 -> 1 <= m < 2 ^ 32 -> 0 <= height logImage ->
  (forall i, 0 <= i < n -> 0 <= float_uint (load i data) 1023 < 1024) ->
  (Z.to_nat (height logImage) <= writes)%nat ->
  dataOffset logElement = Z.of_nat (length hdr) ->
  Z.of_nat (length buf) = n ->
  exists bytes,
    logImageSetData10 true logImage logElement data
      {| written := Some <$> hdr; budget := writes |}
    = (0, {| written := Some <$> bytes;
             budget := (writes - Z.to_nat (height logImage))%nat |})
    /\ logImageElementGetData10 logImage logElement
         {| content := bytes; cursor := 0 |} buf
       = (0, {| content := bytes; cursor := Z.of_nat (length bytes) |},
          decoded
            (fun i =>
               F32.div (F32.of_Z (float_uint (load i data) 1023))
                       (F32.of_Z 1023))
            n).
Proof.
  intros m n Hbps Hp Hd Hpath Hwhole Hm Hh Hcodes Hb Hoff Hbuf.
  rewrite (logImageSetData10_run logImage data Hwhole)
    by (auto; cbn [budget]; lia).
  cbn [written budget].
  exists (hdr ++ encode10 logImage data).
  split; [rewrite fmap_app; reflexivity|].
  pose proof (thirds_whole m Hwhole) as Hm3.
  set (q := m / 3) in *.
  assert (Hq : 1 <= q) by lia.
  assert (Hq' : (width logImage * depth logElement + 2) / 3 = q).
  { rewrite Hd. fold m. rewrite Hm3.
    symmetry. apply (Z.div_unique _ _ _ 2); lia. }
  assert (Hhq : 0 <= height logImage * q) by nia.
  assert (Hlen : Z.of_nat (length (hdr ++ encode10 logImage data))
                 = Z.of_nat (length hdr) + 4 * (height logImage * q)).
  { rewrite length_app. unfold encode10.
    rewrite (length_bind_cells _ 4%nat) by reflexivity.
    rewrite length_seqZ. fold m. fold q. lia. }
  rewrite (logImageElementGetData10_run logImage logElement
             (hdr ++ encode10 logImage data) buf);
    [|destruct Hpath as [H1 | Hc];
      [destruct (Z.eqb_spec (imageDepth logImage) 1);
       [contradiction|reflexivity]
      |rewrite Hc; apply andb_false_r]
     |left; exact Hp|rewrite Hd; fold m; lia|lia|reflexivity|exact Hh
     |rewrite Hq', Hlen; lia|rewrite Hd; exact Hbuf].
  rewrite Hq', Hd. fold m. fold n.
  f_equal; [f_equal; f_equal; lia|].
  unfold decoded. apply list_fmap_ext. intros k i Hk.
  apply lookup_seqZ in Hk as [-> Hk]. rewrite !Z.add_0_l.
  set (i := Z.of_nat k) in *.
  f_equal. f_equal.
  pose proof (Z.div_mod i m ltac:(lia)) as Hi.
  pose proof (Z.mod_pos_bound i m ltac:(lia)) as Hx.
  pose proof (thirds_index (i mod m)) as Hx3.
  pose proof (thirds_exact (i mod m) m Hwhole Hx) as Hxq.
  pose proof (Z.mod_pos_bound (i mod m) 3 ltac:(lia)) as Hr.
  assert (Hy : 0 <= i / m < height logImage).
  { split; [apply Z.div_pos; lia|].
    apply Z.div_lt_upper_bound; lia. }
  set (j := i / m * q + i mod m / 3).
  assert (Hj : 0 <= j < height logImage * q) by (subst j; nia).
  assert (Hij : i = 3 * j + (i mod m) mod 3) by (subst j; lia).
  unfold word32, word_at, shift10. rewrite Hoff, Hp.
  change (1 =? 1) with true. cbv iota.
  unfold encode10. fold m. fold q.
  change (4 * j) with (Z.of_nat 4 * j).
  rewrite (cell_at (fun t => bytes32 (word10 logImage data t)) 4 hdr
             (height logImage * q) j) by (try reflexivity; lia).
  destruct (word10_field logImage data j ((i mod m) mod 3)) as [Hw Hf];
    [|lia|].
  - intros r Hr2. apply Hcodes. subst n. nia.
  - rewrite le_combine_bytes32 by exact Hw.
    rewrite Hf, <- Hij. reflexivity.
Qed.

Lemma logImageSetData10_GetData10_round_trip_witness :
  exists bytes,
    logImageSetData10 true x10rgb_image x10rgb_element x10rgb_samples
      {| written := Some <$> [83; 68]; budget := 2%nat |}
    = (0, {| written := Some <$> bytes;
             budget := (2 - Z.to_nat (height x10rgb_image))%nat |})
    /\ logImageElementGetData10 x10rgb_image x10rgb_element
         {| content := bytes; cursor := 0 |} (replicate 12 None)
       = (0, {| content := bytes; cursor := Z.of_nat (length bytes) |},
          decoded
            (fun i =>
               F32.div (F32.of_Z (float_uint (load i x10rgb_samples) 1023))
                       (F32.of_Z 1023))
            (height x10rgb_image
             * (width x10rgb_image * imageDepth x10rgb_image))).
Proof.
  apply (logImageSetData10_GetData10_round_trip x10rgb_image x10rgb_element
           x10rgb_samples [83; 68] 2 (replicate 12 None));
    try reflexivity; try (left; discriminate).
  - cbn. lia.
  - cbn. lia.
  - intros i Hi.
    assert (Hc : i = 0 \/ i = 1 \/ i = 2 \/ i = 3 \/ i = 4 \/ i = 5
                 \/ i = 6 \/ i = 7 \/ i = 8 \/ i = 9 \/ i = 10 \/ i = 11)
      by (change (0 <= i < 12) in Hi; lia).
    repeat (destruct Hc as [-> | Hc]); try subst i;
      vm_compute; split; congruence.
Defined.
